(** * Video-Annote: a shallow embedding of the annotation core

    The development follows the Python sources of [video_annote]:

    - [timeutils.py]: frame/time recomputation and lane stacking;
    - [domain.py]: records, the colour palette and [get_skill_color_hex];
    - [widgets/video_grid.py]: the black-placeholder rule of the video grid;
    - [widgets/skill_timeline.py]: drag editing on the timeline canvas;
    - [widgets/annotations_table.py]: cell edits of the annotation table;
    - [main_window.py]: the step workflow and the commit of timeline edits.

    Numbers.  Python's [int] is unbounded and is modelled by [Z].  Python's
    [float] is modelled by the exact rationals [Q]: every arithmetic
    operation is taken without binary64 rounding, and NaN and the
    infinities are outside the model.  [round] on a float is Python 3's
    round-half-to-even, which returns an [int].

    Exceptions are modelled by a result type, dictionaries by stdpp's
    [gmap], and calls into Qt (message boxes, media players, signals) by an
    explicit log of effects or by explicit fields of the modelled object. *)

From Stdlib Require Import ZArith QArith Qround Qminmax Lia Lqa Bool List.
From Stdlib Require Import Sorting.Permutation Sorting.Sorted Strings.Ascii Qabs.
From stdpp Require Import base option list gmap strings pretty.

#[local] Open Scope Z_scope.

(** ** Python numerics *)

Module Py.

(** [a < b] on floats. *)
Definition Qltb (a b : Q) : bool := negb (Qle_bool b a).

(** [a <= b] on floats. *)
Definition Qleb (a b : Q) : bool := Qle_bool a b.

(** [round(x)] for a float [x]: the nearest integer, ties to the even one. *)
Definition round (x : Q) : Z :=
  let x' := Qred x in
  let n := Qnum x' in
  let d := Z.pos (Qden x') in
  let fl := n / d in
  match (2 * (n mod d)) ?= d with
  | Lt => fl
  | Gt => fl + 1
  | Eq => if Z.even fl then fl else fl + 1
  end.

(** [float(n)] for an integer [n]. *)
Definition float (n : Z) : Q := inject_Z n.

(** Exceptions raised by the modelled code. *)
Inductive exn : Type :=
| ValueError (msg : string).

(** The outcome of a call that may raise. *)
Inductive result (A : Type) : Type :=
| Return (a : A)
| Raise (e : exn).

Arguments Return {A} a.
Arguments Raise {A} e.


(** [max(0.0, x)] on floats: [x] when it is above [0.0]. *)
Definition fmax0 (x : Q) : Q := if Qltb 0 x then x else 0%Q.

End Py.

(** ** domain.py: records *)

Record SkillStep : Type := mkSkillStep {
  number : Z;
  name : string
}.

(** [AnnotationRecord]: one annotated step interval (times in seconds). *)
Record AnnotationRecord : Type := mkAnnotationRecord {
  label : string;
  camid : string;
  step_no : Z;
  step_name : string;
  start_frame : Z;
  end_frame : Z;
  total_frames : Z;
  start_time : Q;
  end_time : Q;
  total_time : Q;
  time_source : string;
  audio_source : string;
  confidence : Z;
  notes : string
}.

(** [dataclasses.replace(rec, start_time=.., end_time=.., total_time=..,
    start_frame=.., end_frame=.., total_frames=..)]. *)
Definition replace_times_frames (rec : AnnotationRecord)
    (st et tt : Q) (sf ef tf : Z) : AnnotationRecord :=
  {| label := label rec; camid := camid rec;
     step_no := step_no rec; step_name := step_name rec;
     start_frame := sf; end_frame := ef; total_frames := tf;
     start_time := st; end_time := et; total_time := tt;
     time_source := time_source rec; audio_source := audio_source rec;
     confidence := confidence rec; notes := notes rec |}.

(** [RootConfig]: stored in [<root_dir>/config.json]; [skill_color_map] is
    the stable mapping from step number to palette index. *)
Record RootConfig : Type := mkRootConfig {
  root_dir : string;
  skills : list SkillStep;
  skill_color_map : gmap Z Z
}.

(** ** domain.py: colour assignment *)

Module Colors.

(** 50 distinct, high-contrast colours (hex), assigned sequentially. *)
Definition SKILL_COLOR_PALETTE_50 : list string :=
  [ "#E6194B"; "#3CB44B"; "#FFE119"; "#4363D8"; "#F58231";
    "#911EB4"; "#46F0F0"; "#F032E6"; "#BCF60C"; "#FABEBE";
    "#008080"; "#E6BEFF"; "#9A6324"; "#FFFAC8"; "#800000";
    "#AAFFC3"; "#808000"; "#FFD8B1"; "#000075"; "#808080";
    "#000000"; "#FF4500"; "#1E90FF"; "#32CD32"; "#FFD700";
    "#8A2BE2"; "#00CED1"; "#FF1493"; "#7FFF00"; "#FFB6C1";
    "#20B2AA"; "#BA55D3"; "#B8860B"; "#F0E68C"; "#A52A2A";
    "#2E8B57"; "#BDB76B"; "#D2691E"; "#4169E1"; "#DC143C";
    "#00FA9A"; "#9400D3"; "#FF8C00"; "#2F4F4F"; "#ADFF2F";
    "#C71585"; "#00BFFF"; "#228B22"; "#FF6347"; "#6A5ACD" ]%string.

(** [palette_n = len(SKILL_COLOR_PALETTE_50)]. *)
Definition palette_n : Z := Z.of_nat (length SKILL_COLOR_PALETTE_50).

(** [SKILL_COLOR_PALETTE_50[i]] for an index within the list. *)
Definition palette_at (i : Z) : string :=
  nth (Z.to_nat i) SKILL_COLOR_PALETTE_50 EmptyString.

(** [used = set(int(x) for x in cfg.skill_color_map.values())]. *)
Definition used_indices (m : gmap Z Z) : gset Z := map_img m.

(** [range(palette_n)]. *)
Definition palette_range : list Z := map Z.of_nat (seq 0 (Z.to_nat palette_n)).

(** The loop [for i in range(palette_n): if i not in used: ...; break]. *)
Definition first_unused (used : gset Z) : option Z :=
  find (fun i => bool_decide (i ∉ used)) palette_range.

(** [max(used) + 1 if used else palette_n], then raised to [palette_n]. *)
Definition next_generated (used : gset Z) : Z :=
  let next_idx :=
    match elements used with
    | [] => palette_n
    | x :: xs => foldr Z.max x xs + 1
    end in
  if next_idx <? palette_n then palette_n else next_idx.


Section GetColor.

(** [_generated_color_hex]: the colour generated for an index beyond the
    palette.  It is a pure function of its index (golden-angle hues, HSV to
    RGB conversion and a Euclidean distance, all in floating point); the
    assignment below uses it only as such a function. *)
Variable _generated_color_hex : Z -> string.

(** [get_skill_color_hex(step_no, cfg)].  The call may add an entry to
    [cfg.skill_color_map]; the model returns the colour together with the
    configuration as the call leaves it. *)
Definition get_skill_color_hex (step_no : option Z) (cfg : option RootConfig)
    : string * option RootConfig :=
  match step_no with
  | None => (palette_at 0, cfg)
  | Some step_no =>
      match cfg with
      | Some cfg =>
          let m := skill_color_map cfg in
          let '(idx, m') :=
            match m !! step_no with
            | Some idx => (idx, m)
            | None =>
                let used := used_indices m in
                match first_unused used with
                | Some i => (i, <[step_no := i]> m)
                | None =>
                    let next_idx := next_generated used in
                    (next_idx, <[step_no := next_idx]> m)
                end
            end in
          let cfg' := {| root_dir := root_dir cfg; skills := skills cfg;
                         skill_color_map := m' |} in
          if idx <? palette_n then (palette_at (idx mod palette_n), Some cfg')
          else (_generated_color_hex (idx - palette_n), Some cfg')
      | None => (palette_at (step_no mod palette_n), None)
      end
  end.

End GetColor.

(** [x % 360.0] for a float [x]. *)
Definition fmod360 (x : Q) : Q := (x - 360 * inject_Z (Qfloor (x / 360)))%Q.

(** [_circular_hue_distance_deg(a, b)]. *)
Definition _circular_hue_distance_deg (a b : Q) : Q :=
  let d := fmod360 (Qabs (a - b)) in
  Qmin d (360 - d).

End Colors.

(** ** timeutils.py: time conversion and recomputation *)

Module TimeUtils.

Import Py.

(** [if fps is None or fps <= 0: fps = 30.0]. *)
Definition default_fps (fps : option Q) : Q :=
  match fps with
  | None => 30
  | Some f => if Qleb f 0 then 30 else f
  end%Q.

Definition seconds_to_frames (seconds : Q) (fps : option Q) : Z :=
  round (seconds * default_fps fps)%Q.

Definition frames_to_seconds (frames : Z) (fps : option Q) : Q :=
  (float frames / default_fps fps)%Q.

(** The message of the [ValueError] of [recompute_from_times]; the
    specification calls this failure [InvalidRange]. *)
Definition InvalidRange : exn := ValueError "end_time must be >= start_time".

Definition InvalidFrameRange : exn := ValueError "end_frame must be >= start_frame".

(** [if x < 0: x = 0.0]. *)
Definition clamp0 (x : Q) : Q := if Qltb x 0 then 0%Q else x.

(** [if n < 0: n = 0]. *)
Definition clamp0Z (n : Z) : Z := if n <? 0 then 0 else n.

Definition recompute_from_times (rec : AnnotationRecord) (fps : option Q)
    : result AnnotationRecord :=
  let fps := Some (default_fps fps) in
  let st := clamp0 (start_time rec) in
  let et := clamp0 (end_time rec) in
  if Qltb et st then Raise InvalidRange
  else
    let sf := seconds_to_frames st fps in
    let ef := seconds_to_frames et fps in
    Return (replace_times_frames rec st et (et - st)%Q sf ef (Z.max (ef - sf) 0)).

Definition recompute_from_frames (rec : AnnotationRecord) (fps : option Q)
    : result AnnotationRecord :=
  let fps := Some (default_fps fps) in
  let sf := clamp0Z (start_frame rec) in
  let ef := clamp0Z (end_frame rec) in
  if ef <? sf then Raise InvalidFrameRange
  else
    let st := frames_to_seconds sf fps in
    let et := frames_to_seconds ef fps in
    Return (replace_times_frames rec st et (et - st)%Q sf ef (Z.max (ef - sf) 0)).

(** *** Lane stacking for overlap rendering *)

(** [Block]: a block of the timeline, in milliseconds. *)
Record Block : Type := mkBlock {
  idx : Z;
  start_ms : Z;
  end_ms : Z
}.

(** The body of the first loop: swap the bounds if [e < s]. *)
Definition normalize (b : Block) : Block :=
  let s := start_ms b in
  let e := end_ms b in
  if e <? s then {| idx := idx b; start_ms := e; end_ms := s |}
  else {| idx := idx b; start_ms := s; end_ms := e |}.

(** The sort key [(x.start_ms, x.end_ms - x.start_ms)]. *)
Definition sort_key (x : Block) : Z * Z := (start_ms x, end_ms x - start_ms x).

(** Python's order on pairs of integers: [k1 <= k2]. *)
Definition key_leb (k1 k2 : Z * Z) : bool :=
  (k1.1 <? k2.1) || ((k1.1 =? k2.1) && (k1.2 <=? k2.2)).

(** [list.sort(key=...)] is stable: elements with equal keys keep their
    order.  A stable sort is determined by this property; it is modelled by
    insertion from the right, which puts an element before the elements of
    the sorted tail whose key is not smaller. *)
Fixpoint insert_sorted (x : Block) (l : list Block) : list Block :=
  match l with
  | [] => [x]
  | y :: l' =>
      if key_leb (sort_key x) (sort_key y) then x :: y :: l'
      else y :: insert_sorted x l'
  end.

Fixpoint sort_blocks (l : list Block) : list Block :=
  match l with
  | [] => []
  | x :: l' => insert_sorted x (sort_blocks l')
  end.

(** The inner loop over [lanes]: append [b] to the first lane whose last
    block ends at or before the start of [b]; without such a lane, a new lane
    [[b]] is appended.  A lane of [lanes] is never empty ([lane[-1]] would
    raise on an empty one); the model steps over an empty lane. *)
Fixpoint place (b : Block) (lanes : list (list Block)) : list (list Block) :=
  match lanes with
  | [] => [[b]]
  | lane :: rest =>
      match last lane with
      | Some l =>
          if end_ms l <=? start_ms b then (lane ++ [b]) :: rest
          else lane :: place b rest
      | None => lane :: place b rest
      end
  end.

(** The outer loop [for b in norm]. *)
Definition place_all (norm : list Block) : list (list Block) :=
  fold_left (fun lanes b => place b lanes) norm [].

Definition stack_blocks_into_lanes (blocks : list Block) : list (list Block) :=
  match blocks with
  | [] => []
  | _ => place_all (sort_blocks (map normalize blocks))
  end.

(** [enumerate(annotations)] from the index [i]. *)
Fixpoint annotations_to_blocks_from (i : Z) (annotations : list AnnotationRecord)
    : list Block :=
  match annotations with
  | [] => []
  | rec :: rest =>
      {| idx := i;
         start_ms := round (start_time rec * 1000)%Q;
         end_ms := round (end_time rec * 1000)%Q |}
      :: annotations_to_blocks_from (i + 1) rest
  end.

Definition annotations_to_blocks_ms (annotations : list AnnotationRecord) : list Block :=
  annotations_to_blocks_from 0 annotations.

Definition compute_lanes_for_annotations (annotations : list AnnotationRecord)
    : list (list Block) :=
  stack_blocks_into_lanes (annotations_to_blocks_ms annotations).

(** The lane of the block with index [i], if any. *)
Fixpoint lane_of_from (k : Z) (lanes : list (list Block)) (i : Z) : option Z :=
  match lanes with
  | [] => None
  | lane :: rest =>
      if existsb (fun b => idx b =? i) lane then Some k
      else lane_of_from (k + 1) rest i
  end.

Definition lane_of (lanes : list (list Block)) (i : Z) : option Z :=
  lane_of_from 0 lanes i.

(** The bounds of a block, without its index. *)
Definition bounds (b : Block) : Z * Z := (start_ms b, end_ms b).

(** Genuine overlap of two blocks. *)
Definition overlap (a b : Block) : Prop :=
  end_ms a > start_ms b /\ start_ms a < end_ms b.

(** [wf b]: the bounds of [b] are in order. *)
Definition wf (b : Block) : Prop := start_ms b <= end_ms b.

(** [before a b]: [a] ends at or before the start of [b]. *)
Definition before (a b : Block) : Prop := end_ms a <= start_ms b.

(** A lane is in order when its blocks are well formed and each block ends
    at or before the start of every later block of the lane. *)
Definition lane_ok (lane : list Block) : Prop :=
  Forall wf lane /\ StronglySorted before lane.

(** Equality of sort keys. *)
Definition key_eqb (k1 k2 : Z * Z) : bool := (k1.1 =? k2.1) && (k1.2 =? k2.2).

(** The blocks of [l] whose sort key is [k], in their order in [l]. *)
Definition with_key (k : Z * Z) (l : list Block) : list Block :=
  List.filter (fun b => key_eqb (sort_key b) k) l.

(** Two inputs list the blocks of every sort key in the same order: they
    differ at most in how blocks of different keys are interleaved. *)
Definition same_order_of_equal_keys (l1 l2 : list Block) : Prop :=
  forall k, with_key k (map normalize l1) = with_key k (map normalize l2).

(** [k1 <= k2] on sort keys, as a proposition. *)
Definition key_le (k1 k2 : Z * Z) : Prop := key_leb k1 k2 = true.


(** *** Further functions of timeutils.py *)

(** [recompute_totals(rec)]: the safe recomputation of the totals. *)
Definition recompute_totals (rec : AnnotationRecord) : AnnotationRecord :=
  let st := fmax0 (start_time rec) in
  let et := fmax0 (end_time rec) in
  let et := if Qltb et st then st else et in
  let sf := Z.max 0 (start_frame rec) in
  let ef := Z.max 0 (end_frame rec) in
  let ef := if ef <? sf then sf else ef in
  replace_times_frames rec st et (et - st)%Q sf ef (Z.max (ef - sf) 0).



(** First fit: every block of a lane starts inside some block of each lane
    before it, a block that has started and has not ended when the block
    starts; the block could not have been appended to a lane before its
    own. *)
Definition first_fit (lanes : list (list Block)) : Prop :=
  forall (k j : nat) (b : Block) (lane_k lane_j : list Block),
    (j < k)%nat -> lanes !! k = Some lane_k -> b ∈ lane_k -> lanes !! j = Some lane_j ->
    exists a, a ∈ lane_j /\ start_ms a <= start_ms b /\ start_ms b < end_ms a.

End TimeUtils.


(** ** widgets/video_grid.py: the grid of players *)

Module VideoGrid.

Import Py.

(** [QMediaPlayer.State]. *)
Inductive State : Type := StoppedState | PlayingState | PausedState.

(** [QMediaPlayer.MediaStatus]. *)
Inductive MediaStatus : Type :=
| UnknownMediaStatus | NoMedia | LoadingMedia | LoadedMedia | StalledMedia
| BufferingMedia | BufferedMedia | EndOfMedia | InvalidMedia.

(** A [QMediaPlayer] as the grid observes it: what [position()],
    [duration()], [state()], [mediaStatus()], [volume()] and
    [metaData("VideoFrameRate")] answer.  [setPosition], [pause] and [play]
    are taken to set the position and the state they are asked for. *)
Record Player : Type := mkPlayer {
  position : Z;
  duration : Z;
  state : State;
  mediaStatus : MediaStatus;
  volume : Z;
  metaFrameRate : option Q
}.

Definition setPosition (pos : Z) (p : Player) : Player :=
  {| position := pos; duration := duration p; state := state p;
     mediaStatus := mediaStatus p; volume := volume p;
     metaFrameRate := metaFrameRate p |}.

Definition setState (st : State) (p : Player) : Player :=
  {| position := position p; duration := duration p; state := st;
     mediaStatus := mediaStatus p; volume := volume p;
     metaFrameRate := metaFrameRate p |}.

Definition setDuration (dur : Z) (p : Player) : Player :=
  {| position := position p; duration := dur; state := state p;
     mediaStatus := mediaStatus p; volume := volume p;
     metaFrameRate := metaFrameRate p |}.

(** [VideoItem]: one video of a session. *)
Record VideoItem : Type := mkVideoItem {
  video_id : string;
  filename : string;
  source_type : string;
  source : string;
  duration_ms : Z;
  fps : Q
}.

(** The signals of the grid that the operations below emit. *)
Inductive Signal : Type :=
| time_position_changed (pos : Z)
| time_duration_changed (dur : Z).

(** The state of a [VideoGrid].  [_cells] holds, per video, whether its
    [VideoCell] shows the black placeholder ([show_black(True)]). *)
Record t : Type := mkGrid {
  _players : gmap string Player;
  _cells : gmap string bool;
  _items : gmap string VideoItem;
  _active_view_ids : list string;
  _time_source_id : option string;
  _audio_source_id : option string;
  _ignore_position_signals : bool;
  _last_master_pos : Z;
  _pending_play : bool
}.

(** Assignments to one field, [self._field = v]. *)
Definition with_players (ps : gmap string Player) (g : t) : t :=
  {| _players := ps; _cells := _cells g; _items := _items g;
     _active_view_ids := _active_view_ids g;
     _time_source_id := _time_source_id g; _audio_source_id := _audio_source_id g;
     _ignore_position_signals := _ignore_position_signals g;
     _last_master_pos := _last_master_pos g; _pending_play := _pending_play g |}.

Definition with_cells (cs : gmap string bool) (g : t) : t :=
  {| _players := _players g; _cells := cs; _items := _items g;
     _active_view_ids := _active_view_ids g;
     _time_source_id := _time_source_id g; _audio_source_id := _audio_source_id g;
     _ignore_position_signals := _ignore_position_signals g;
     _last_master_pos := _last_master_pos g; _pending_play := _pending_play g |}.

Definition with_ignore (b : bool) (g : t) : t :=
  {| _players := _players g; _cells := _cells g; _items := _items g;
     _active_view_ids := _active_view_ids g;
     _time_source_id := _time_source_id g; _audio_source_id := _audio_source_id g;
     _ignore_position_signals := b;
     _last_master_pos := _last_master_pos g; _pending_play := _pending_play g |}.

Definition with_last_master_pos (pos : Z) (g : t) : t :=
  {| _players := _players g; _cells := _cells g; _items := _items g;
     _active_view_ids := _active_view_ids g;
     _time_source_id := _time_source_id g; _audio_source_id := _audio_source_id g;
     _ignore_position_signals := _ignore_position_signals g;
     _last_master_pos := pos; _pending_play := _pending_play g |}.

Definition with_pending_play (b : bool) (g : t) : t :=
  {| _players := _players g; _cells := _cells g; _items := _items g;
     _active_view_ids := _active_view_ids g;
     _time_source_id := _time_source_id g; _audio_source_id := _audio_source_id g;
     _ignore_position_signals := _ignore_position_signals g;
     _last_master_pos := _last_master_pos g; _pending_play := b |}.

(** [_time_source_player]: the player of the time source, if it is set (a
    non-empty id) and loaded. *)
Definition _time_source_player (g : t) : option Player :=
  match _time_source_id g with
  | Some id => if String.eqb id EmptyString then None else _players g !! id
  | None => None
  end.

Definition _current_master_position (g : t) : Z :=
  match _time_source_player g with
  | Some master => position master
  | None => 0
  end.

Definition is_playing (g : t) : bool :=
  match _time_source_player g with
  | Some master => match state master with PlayingState => true | _ => false end
  | None => false
  end.

Definition pause_all (g : t) : t :=
  with_players (setState PausedState <$> _players g) g.

Definition stop_all (g : t) : t :=
  with_players (setState StoppedState <$> _players g) g.

(** [for p in self._players.values(): p.play()]. *)
Definition play_players (g : t) : t :=
  with_players (setState PlayingState <$> _players g) g.

(** The black-placeholder rule for one player at a master position:
    [dur > 0 and master_pos_ms > dur]. *)
Definition exhausted (master_pos_ms : Z) (p : Player) : bool :=
  (0 <? duration p) && (duration p <? master_pos_ms).

(** One turn of the loop of [_update_black_cells]. *)
Definition update_black_cell (g : t) (master_pos_ms : Z)
    (cells : gmap string bool) (vid : string) : gmap string bool :=
  match cells !! vid, _players g !! vid with
  | Some _, Some p => <[vid := exhausted master_pos_ms p]> cells
  | _, _ => cells
  end.

Definition _update_black_cells (master_pos_ms : Z) (g : t) : t :=
  with_cells
    (fold_left (update_black_cell g master_pos_ms) (_active_view_ids g) (_cells g)) g.

(** [_needs_buffer_gate]: some relevant player is loading, buffering,
    stalled, or of unknown status. *)
Definition status_gates (st : MediaStatus) : bool :=
  match st with
  | LoadingMedia | BufferingMedia | StalledMedia | UnknownMediaStatus => true
  | _ => false
  end.

Definition _needs_buffer_gate (g : t) : bool :=
  let check_ids :=
    match _active_view_ids g with
    | [] => (map_to_list (_players g)).*1
    | ids => ids
    end in
  existsb (fun vid =>
             match _players g !! vid with
             | Some p => status_gates (mediaStatus p)
             | None => false
             end) check_ids.

(** [_request_play_with_buffer_gate]; the deadline and the timer of a
    deferred play are real time and are not modelled. *)
Definition _request_play_with_buffer_gate (g : t) : t :=
  if bool_decide (_players g = ∅) then g
  else if negb (_needs_buffer_gate g) then play_players (with_pending_play false g)
  else with_pending_play true g.

(** [play_all]: play all players, through the buffer gate. *)
Definition play_all (g : t) : t :=
  if bool_decide (_players g = ∅) then g else _request_play_with_buffer_gate g.

(** [set_position_all(position_ms)]: seek all players to one position. *)
Definition set_position_all (position_ms : Z) (g : t) : t :=
  if bool_decide (_players g = ∅) then g
  else
    let was_playing := is_playing g in
    let g := if was_playing then pause_all g else g in
    let pos := Z.max 0 position_ms in
    let g := with_ignore true g in
    let g := with_players (setPosition pos <$> _players g) g in
    let g := with_ignore false g in
    let g := _update_black_cells (_current_master_position g) g in
    if was_playing then _request_play_with_buffer_gate g else g.

(** [_on_any_position_changed]: the slot of every player's
    [positionChanged]. *)
Definition _on_any_position_changed (g : t) : t * list Signal :=
  if _ignore_position_signals g then (g, [])
  else
    match _time_source_player g with
    | None => (g, [])
    | Some master =>
        let pos := position master in
        if negb (pos =? _last_master_pos g) then
          (_update_black_cells pos (with_last_master_pos pos g),
           [time_position_changed pos])
        else (g, [])
    end.

(** [_on_any_duration_changed]: the slot of every player's
    [durationChanged]. *)
Definition _on_any_duration_changed (g : t) : t * list Signal :=
  match _time_source_player g with
  | None => (g, [])
  | Some master => (g, [time_duration_changed (duration master)])
  end.

(** The backend reports a new position of the player [vid]: the player
    changes, then the slot runs. *)
Definition player_position_changed (vid : string) (pos : Z) (g : t) : t * list Signal :=
  _on_any_position_changed (with_players (alter (setPosition pos) vid (_players g)) g).

(** The backend reports a new duration of the player [vid]. *)
Definition player_duration_changed (vid : string) (dur : Z) (g : t) : t * list Signal :=
  _on_any_duration_changed (with_players (alter (setDuration dur) vid (_players g)) g).

(** [fps_for(video_id)]. *)
Definition fps_for (video_id : string) (g : t) : Q :=
  let from_player :=
    match _players g !! video_id with
    | Some p =>
        match metaFrameRate p with
        | Some f => if Qeq_bool f 0 then 30%Q else f
        | None => 30%Q
        end
    | None => 30%Q
    end in
  match _items g !! video_id with
  | Some item => if Qltb 0 (fps item) then fps item else from_player
  | None => from_player
  end.

(** Every active view satisfies the black-placeholder rule at the current
    position of the time source. *)
Definition masks_agree (g : t) : Prop :=
  forall vid p,
    vid ∈ _active_view_ids g -> _players g !! vid = Some p ->
    is_Some (_cells g !! vid) ->
    _cells g !! vid = Some (exhausted (_current_master_position g) p).

(** What [_update_black_cells] leaves in the cell of [vid] when [vid] is an
    active view: the rule if the video has a cell and a player, else what was
    there. *)
Definition refreshed (g : t) (master_pos_ms : Z) (vid : string)
    (c : option bool) : option bool :=
  match c, _players g !! vid with
  | Some _, Some p => Some (exhausted master_pos_ms p)
  | _, _ => c
  end.


(** *** Further operations of the grid *)

Definition setVolume (v : Z) (p : Player) : Player :=
  {| position := position p; duration := duration p; state := state p;
     mediaStatus := mediaStatus p; volume := v;
     metaFrameRate := metaFrameRate p |}.

Definition with_active_view_ids (ids : list string) (g : t) : t :=
  {| _players := _players g; _cells := _cells g; _items := _items g;
     _active_view_ids := ids;
     _time_source_id := _time_source_id g; _audio_source_id := _audio_source_id g;
     _ignore_position_signals := _ignore_position_signals g;
     _last_master_pos := _last_master_pos g; _pending_play := _pending_play g |}.

Definition with_time_source_id (id : option string) (g : t) : t :=
  {| _players := _players g; _cells := _cells g; _items := _items g;
     _active_view_ids := _active_view_ids g;
     _time_source_id := id; _audio_source_id := _audio_source_id g;
     _ignore_position_signals := _ignore_position_signals g;
     _last_master_pos := _last_master_pos g; _pending_play := _pending_play g |}.

Definition with_audio_source_id (id : option string) (g : t) : t :=
  {| _players := _players g; _cells := _cells g; _items := _items g;
     _active_view_ids := _active_view_ids g;
     _time_source_id := _time_source_id g; _audio_source_id := id;
     _ignore_position_signals := _ignore_position_signals g;
     _last_master_pos := _last_master_pos g; _pending_play := _pending_play g |}.

(** [video_id in self._players]. *)
Definition loaded (video_id : string) (g : t) : bool :=
  match _players g !! video_id with Some _ => true | None => false end.

(** [set_active_views(video_ids)].  [first_id] is the first key of
    [self._players], [next(iter(self._players.keys()))]: the order of
    insertion of the dictionary is not kept by the map of the model.  The
    layout of the grid ([_rebuild_grid]) is presentation. *)
Definition set_active_views (first_id : option string) (video_ids : list string)
    (g : t) : t :=
  let ids := filter (fun vid => loaded vid g) video_ids in
  let ids :=
    match ids, first_id with
    | [], Some id0 => if bool_decide (_players g = ∅) then [] else [id0]
    | _, _ => ids
    end in
  let g := with_active_view_ids ids g in
  _update_black_cells (_current_master_position g) g.

(** [set_time_source(video_id)]. *)
Definition set_time_source (video_id : string) (g : t) : t * list Signal :=
  match _players g !! video_id with
  | None => (g, [])
  | Some p =>
      let g := with_time_source_id (Some video_id) g in
      (_update_black_cells (_current_master_position g) g,
       [time_duration_changed (duration p)])
  end.

(** [set_audio_source(video_id)]. *)
Definition set_audio_source (video_id : string) (g : t) : t :=
  if negb (loaded video_id g) then g
  else
    let g := with_audio_source_id (Some video_id) g in
    with_players
      (map_imap (fun vid p =>
                   Some (setVolume (if String.eqb vid video_id then 100 else 0) p))
                (_players g)) g.

(** [_status_ready(status)]. *)
Definition _status_ready (st : MediaStatus) : bool :=
  match st with
  | LoadedMedia | BufferedMedia | EndOfMedia | NoMedia | InvalidMedia => true
  | _ => false
  end.

(** [_play_gate_tick]; [expired] tells whether [time.monotonic()] has
    reached the deadline of the pending play. *)
Definition _play_gate_tick (expired : bool) (g : t) : t :=
  if negb (_pending_play g) then g
  else if negb (_needs_buffer_gate g) || expired then
    play_players (with_pending_play false g)
  else g.

(** The gate is open: every relevant player, a player of an active view
    or, when no view is active, any player, has a status that
    [_status_ready] lets pass. *)
Definition gate_open (g : t) : Prop :=
  forall vid p, _active_view_ids g = [] \/ vid ∈ _active_view_ids g ->
                _players g !! vid = Some p -> _status_ready (mediaStatus p) = true.

(** The loop of [_sync_tick] over one player: a player other than the
    master that is more than 200 ms away from [target] is sent to [target]
    and made to play. *)
Definition sync_player (master_id : string) (target : Z) (vid : string) (p : Player)
    : Player :=
  if String.eqb vid master_id then p
  else if 200 <? Z.abs (position p - target) then
    setState PlayingState (setPosition target p)
  else p.

(** [_sync_tick]: the grid after the tick, and whether
    [time_source_ended] was emitted.  The slots of the signals that the
    players emit in reaction to the seeks are separate events. *)
Definition _sync_tick (g : t) : t * bool :=
  match _time_source_id g, _time_source_player g with
  | Some master_id, Some master =>
      match state master with
      | PlayingState =>
          let target := position master in
          let mdur := duration master in
          if (0 <? mdur) && (mdur <=? target) then (stop_all g, true)
          else
            let g := with_players
                       (map_imap (fun vid p => Some (sync_player master_id target vid p))
                                 (_players g)) g in
            (_update_black_cells target g, false)
      | _ => (g, false)
      end
  | _, _ => (g, false)
  end.

End VideoGrid.

(** ** domain.py: camera ids and the session state *)

Module Domain.

(** [str.lower] on one ASCII character. *)
Definition lower_ascii (c : ascii) : ascii :=
  let n := N_of_ascii c in
  if ((65 <=? n) && (n <=? 90))%N then ascii_of_N (n + 32) else c.

Fixpoint lower (s : string) : string :=
  match s with
  | EmptyString => EmptyString
  | String c s' => String (lower_ascii c) (lower s')
  end.

Fixpoint lstrip (s : string) : string :=
  match s with
  | EmptyString => EmptyString
  | String c s' => if Ascii.is_space c then lstrip s' else s
  end.

(** [str.strip] for ASCII white space. *)
Definition strip (s : string) : string :=
  String.rev (lstrip (String.rev (lstrip s))).

(** [normalize_camid(label)]. *)
Definition normalize_camid (label : string) : string :=
  if String.eqb label EmptyString then EmptyString else lower (strip label).

(** The loop of [encode_camid_from_active_views] that drops duplicates and
    keeps the order. *)
Fixpoint dedup_keep_order (seen : list string) (clean : list string) : list string :=
  match clean with
  | [] => []
  | x :: rest =>
      if existsb (String.eqb x) seen then dedup_keep_order seen rest
      else x :: dedup_keep_order (x :: seen) rest
  end.

Definition encode_camid_from_active_views (active_view_ids : list string) : string :=
  let clean :=
    filter (fun x => negb (String.eqb x EmptyString))
           (map normalize_camid active_view_ids) in
  String.concat "," (dedup_keep_order [] clean).

(** [SessionState]: the state of the loaded session.  The fields
    [root_dir] and [label] of the source are [root_dir_s] and [label_s]
    here; [videos] is kept by the grid. *)
Record SessionState : Type := mkSessionState {
  root_dir_s : option string;
  label_s : option string;
  session_dir : option string;
  annotations : list AnnotationRecord;
  active_view_ids : list string;
  time_source_id : option string;
  audio_source_id : option string;
  pending_step : option SkillStep;
  pending_camid : option string;
  pending_start_ms : option Z;
  pending_time_source : option string;
  pending_audio_source : option string;
  pending_color : option string
}.

(** Assignments to one field, [state.field = v]. *)
Definition with_annotations (v : list AnnotationRecord) (s : SessionState) : SessionState :=
  {| root_dir_s := root_dir_s s; label_s := label_s s; session_dir := session_dir s;
     annotations := v; active_view_ids := active_view_ids s;
     time_source_id := time_source_id s; audio_source_id := audio_source_id s;
     pending_step := pending_step s; pending_camid := pending_camid s;
     pending_start_ms := pending_start_ms s;
     pending_time_source := pending_time_source s;
     pending_audio_source := pending_audio_source s; pending_color := pending_color s |}.

Definition with_pending_step (v : option SkillStep) (s : SessionState) : SessionState :=
  {| root_dir_s := root_dir_s s; label_s := label_s s; session_dir := session_dir s;
     annotations := annotations s; active_view_ids := active_view_ids s;
     time_source_id := time_source_id s; audio_source_id := audio_source_id s;
     pending_step := v; pending_camid := pending_camid s;
     pending_start_ms := pending_start_ms s;
     pending_time_source := pending_time_source s;
     pending_audio_source := pending_audio_source s; pending_color := pending_color s |}.

Definition with_pending_camid (v : option string) (s : SessionState) : SessionState :=
  {| root_dir_s := root_dir_s s; label_s := label_s s; session_dir := session_dir s;
     annotations := annotations s; active_view_ids := active_view_ids s;
     time_source_id := time_source_id s; audio_source_id := audio_source_id s;
     pending_step := pending_step s; pending_camid := v;
     pending_start_ms := pending_start_ms s;
     pending_time_source := pending_time_source s;
     pending_audio_source := pending_audio_source s; pending_color := pending_color s |}.

Definition with_pending_start_ms (v : option Z) (s : SessionState) : SessionState :=
  {| root_dir_s := root_dir_s s; label_s := label_s s; session_dir := session_dir s;
     annotations := annotations s; active_view_ids := active_view_ids s;
     time_source_id := time_source_id s; audio_source_id := audio_source_id s;
     pending_step := pending_step s; pending_camid := pending_camid s;
     pending_start_ms := v; pending_time_source := pending_time_source s;
     pending_audio_source := pending_audio_source s; pending_color := pending_color s |}.

Definition with_pending_time_source (v : option string) (s : SessionState) : SessionState :=
  {| root_dir_s := root_dir_s s; label_s := label_s s; session_dir := session_dir s;
     annotations := annotations s; active_view_ids := active_view_ids s;
     time_source_id := time_source_id s; audio_source_id := audio_source_id s;
     pending_step := pending_step s; pending_camid := pending_camid s;
     pending_start_ms := pending_start_ms s; pending_time_source := v;
     pending_audio_source := pending_audio_source s; pending_color := pending_color s |}.

Definition with_pending_audio_source (v : option string) (s : SessionState) : SessionState :=
  {| root_dir_s := root_dir_s s; label_s := label_s s; session_dir := session_dir s;
     annotations := annotations s; active_view_ids := active_view_ids s;
     time_source_id := time_source_id s; audio_source_id := audio_source_id s;
     pending_step := pending_step s; pending_camid := pending_camid s;
     pending_start_ms := pending_start_ms s;
     pending_time_source := pending_time_source s; pending_audio_source := v;
     pending_color := pending_color s |}.

Definition with_pending_color (v : option string) (s : SessionState) : SessionState :=
  {| root_dir_s := root_dir_s s; label_s := label_s s; session_dir := session_dir s;
     annotations := annotations s; active_view_ids := active_view_ids s;
     time_source_id := time_source_id s; audio_source_id := audio_source_id s;
     pending_step := pending_step s; pending_camid := pending_camid s;
     pending_start_ms := pending_start_ms s;
     pending_time_source := pending_time_source s;
     pending_audio_source := pending_audio_source s; pending_color := v |}.

Definition clear_pending (s : SessionState) : SessionState :=
  with_pending_color None
    (with_pending_audio_source None
       (with_pending_time_source None
          (with_pending_start_ms None
             (with_pending_camid None (with_pending_step None s))))).

Definition with_active_view_ids (v : list string) (s : SessionState) : SessionState :=
  {| root_dir_s := root_dir_s s; label_s := label_s s; session_dir := session_dir s;
     annotations := annotations s; active_view_ids := v;
     time_source_id := time_source_id s; audio_source_id := audio_source_id s;
     pending_step := pending_step s; pending_camid := pending_camid s;
     pending_start_ms := pending_start_ms s;
     pending_time_source := pending_time_source s;
     pending_audio_source := pending_audio_source s;
     pending_color := pending_color s |}.

Definition with_time_source_id (v : option string) (s : SessionState) : SessionState :=
  {| root_dir_s := root_dir_s s; label_s := label_s s; session_dir := session_dir s;
     annotations := annotations s; active_view_ids := active_view_ids s;
     time_source_id := v; audio_source_id := audio_source_id s;
     pending_step := pending_step s; pending_camid := pending_camid s;
     pending_start_ms := pending_start_ms s;
     pending_time_source := pending_time_source s;
     pending_audio_source := pending_audio_source s;
     pending_color := pending_color s |}.

Definition with_audio_source_id (v : option string) (s : SessionState) : SessionState :=
  {| root_dir_s := root_dir_s s; label_s := label_s s; session_dir := session_dir s;
     annotations := annotations s; active_view_ids := active_view_ids s;
     time_source_id := time_source_id s; audio_source_id := v;
     pending_step := pending_step s; pending_camid := pending_camid s;
     pending_start_ms := pending_start_ms s;
     pending_time_source := pending_time_source s;
     pending_audio_source := pending_audio_source s;
     pending_color := pending_color s |}.

(** Truth of an optional string: set and not empty. *)
Definition truthy (o : option string) : bool :=
  match o with
  | Some s => negb (String.eqb s EmptyString)
  | None => false
  end.

Definition is_loaded (s : SessionState) : bool :=
  truthy (root_dir_s s) && truthy (label_s s) && truthy (session_dir s).

(** [not x or x not in ids] for an optional id [x]. *)
Definition unusable (x : option string) (ids : list string) : bool :=
  match x with
  | Some id => String.eqb id EmptyString || negb (existsb (String.eqb id) ids)
  | None => true
  end.

(** [ensure_default_sources]; [ids] is [self.video_ids()], the ids of the
    videos of the session in their order. *)
Definition ensure_default_sources (ids : list string) (s : SessionState) : SessionState :=
  match ids with
  | [] =>
      with_active_view_ids []
        (with_audio_source_id None (with_time_source_id None s))
  | id0 :: _ =>
      let s := match active_view_ids s with
               | [] => with_active_view_ids [id0] s
               | _ => s
               end in
      let s := if unusable (time_source_id s) ids
               then with_time_source_id (Some id0) s else s in
      if unusable (audio_source_id s) ids
      then with_audio_source_id (Some id0) s else s
  end.

End Domain.

(** ** widgets/skill_timeline.py: the timeline canvas *)

Module SkillTimeline.

Import Py.

(** The edge of a block that a drag moves. *)
Inductive Edge : Type := left_edge | right_edge.

(** The signals of the canvas. *)
Inductive Signal : Type :=
| record_selected (idx : Z)
| request_edit (idx : Z)
| request_delete (idx : Z)
| edit_preview (idx start_ms end_ms : Z)
| edit_preview_drag (idx start_ms end_ms : Z) (edge : Edge)
| edit_committed (idx start_ms end_ms : Z)
| edit_canceled (idx : Z).

(** The state of a [_SkillTimelineCanvas].  [width] is the width of the
    widget; [_hit_blocks] holds the indices of the blocks that the last
    paint drew (their rectangles are not modelled). *)
Record Canvas : Type := mkCanvas {
  _annotations : list AnnotationRecord;
  _lanes : list (list TimeUtils.Block);
  _duration_ms : Z;
  width : Z;
  _playhead_ms : Z;
  _hit_blocks : list Z;
  _selected_idx : option Z;
  _allow_edit : bool;
  _editing_idx : option Z;
  _edit_start_ms : Z;
  _edit_end_ms : Z;
  _drag_mode : option Edge
}.

(** Assignments to one field, [self._field = v]. *)
Definition with_annotations (v : list AnnotationRecord) (c : Canvas) : Canvas :=
  {| _annotations := v; _lanes := _lanes c; _duration_ms := _duration_ms c;
     width := width c; _playhead_ms := _playhead_ms c; _hit_blocks := _hit_blocks c;
     _selected_idx := _selected_idx c; _allow_edit := _allow_edit c;
     _editing_idx := _editing_idx c; _edit_start_ms := _edit_start_ms c;
     _edit_end_ms := _edit_end_ms c; _drag_mode := _drag_mode c |}.

Definition with_lanes (v : list (list TimeUtils.Block)) (c : Canvas) : Canvas :=
  {| _annotations := _annotations c; _lanes := v; _duration_ms := _duration_ms c;
     width := width c; _playhead_ms := _playhead_ms c; _hit_blocks := _hit_blocks c;
     _selected_idx := _selected_idx c; _allow_edit := _allow_edit c;
     _editing_idx := _editing_idx c; _edit_start_ms := _edit_start_ms c;
     _edit_end_ms := _edit_end_ms c; _drag_mode := _drag_mode c |}.

Definition with_duration_ms (v : Z) (c : Canvas) : Canvas :=
  {| _annotations := _annotations c; _lanes := _lanes c; _duration_ms := v;
     width := width c; _playhead_ms := _playhead_ms c; _hit_blocks := _hit_blocks c;
     _selected_idx := _selected_idx c; _allow_edit := _allow_edit c;
     _editing_idx := _editing_idx c; _edit_start_ms := _edit_start_ms c;
     _edit_end_ms := _edit_end_ms c; _drag_mode := _drag_mode c |}.

Definition with_playhead_ms (v : Z) (c : Canvas) : Canvas :=
  {| _annotations := _annotations c; _lanes := _lanes c;
     _duration_ms := _duration_ms c; width := width c; _playhead_ms := v;
     _hit_blocks := _hit_blocks c; _selected_idx := _selected_idx c;
     _allow_edit := _allow_edit c; _editing_idx := _editing_idx c;
     _edit_start_ms := _edit_start_ms c; _edit_end_ms := _edit_end_ms c;
     _drag_mode := _drag_mode c |}.

Definition with_selected_idx (v : option Z) (c : Canvas) : Canvas :=
  {| _annotations := _annotations c; _lanes := _lanes c;
     _duration_ms := _duration_ms c; width := width c; _playhead_ms := _playhead_ms c;
     _hit_blocks := _hit_blocks c; _selected_idx := v; _allow_edit := _allow_edit c;
     _editing_idx := _editing_idx c; _edit_start_ms := _edit_start_ms c;
     _edit_end_ms := _edit_end_ms c; _drag_mode := _drag_mode c |}.

Definition with_allow_edit (v : bool) (c : Canvas) : Canvas :=
  {| _annotations := _annotations c; _lanes := _lanes c;
     _duration_ms := _duration_ms c; width := width c; _playhead_ms := _playhead_ms c;
     _hit_blocks := _hit_blocks c; _selected_idx := _selected_idx c; _allow_edit := v;
     _editing_idx := _editing_idx c; _edit_start_ms := _edit_start_ms c;
     _edit_end_ms := _edit_end_ms c; _drag_mode := _drag_mode c |}.

Definition with_editing_idx (v : option Z) (c : Canvas) : Canvas :=
  {| _annotations := _annotations c; _lanes := _lanes c;
     _duration_ms := _duration_ms c; width := width c; _playhead_ms := _playhead_ms c;
     _hit_blocks := _hit_blocks c; _selected_idx := _selected_idx c;
     _allow_edit := _allow_edit c; _editing_idx := v;
     _edit_start_ms := _edit_start_ms c; _edit_end_ms := _edit_end_ms c;
     _drag_mode := _drag_mode c |}.

Definition with_edit_start_ms (v : Z) (c : Canvas) : Canvas :=
  {| _annotations := _annotations c; _lanes := _lanes c;
     _duration_ms := _duration_ms c; width := width c; _playhead_ms := _playhead_ms c;
     _hit_blocks := _hit_blocks c; _selected_idx := _selected_idx c;
     _allow_edit := _allow_edit c; _editing_idx := _editing_idx c; _edit_start_ms := v;
     _edit_end_ms := _edit_end_ms c; _drag_mode := _drag_mode c |}.

Definition with_edit_end_ms (v : Z) (c : Canvas) : Canvas :=
  {| _annotations := _annotations c; _lanes := _lanes c;
     _duration_ms := _duration_ms c; width := width c; _playhead_ms := _playhead_ms c;
     _hit_blocks := _hit_blocks c; _selected_idx := _selected_idx c;
     _allow_edit := _allow_edit c; _editing_idx := _editing_idx c;
     _edit_start_ms := _edit_start_ms c; _edit_end_ms := v; _drag_mode := _drag_mode c |}.

Definition with_drag_mode (v : option Edge) (c : Canvas) : Canvas :=
  {| _annotations := _annotations c; _lanes := _lanes c;
     _duration_ms := _duration_ms c; width := width c; _playhead_ms := _playhead_ms c;
     _hit_blocks := _hit_blocks c; _selected_idx := _selected_idx c;
     _allow_edit := _allow_edit c; _editing_idx := _editing_idx c;
     _edit_start_ms := _edit_start_ms c; _edit_end_ms := _edit_end_ms c;
     _drag_mode := v |}.

Definition _pad_x : Z := 10.

(** [0 <= idx < len(l)]. *)
Definition in_range {A : Type} (idx : Z) (l : list A) : bool :=
  (0 <=? idx) && (idx <? Z.of_nat (length l)).

Definition set_duration_ms (duration_ms : Z) (c : Canvas) : Canvas :=
  with_duration_ms (Z.max 0 duration_ms) c.

Definition set_annotations (annotations : list AnnotationRecord) (c : Canvas) : Canvas :=
  let c := with_annotations annotations c in
  let c := with_lanes (TimeUtils.compute_lanes_for_annotations annotations) c in
  let c :=
    match _selected_idx c with
    | Some i => if in_range i annotations then c else with_selected_idx None c
    | None => c
    end in
  match _editing_idx c with
  | Some i =>
      if in_range i annotations then c
      else with_drag_mode None (with_editing_idx None c)
  | None => c
  end.

Definition set_playhead_ms (ms : Z) (c : Canvas) : Canvas :=
  with_playhead_ms (Z.max 0 ms) c.

Definition is_editing (c : Canvas) : bool :=
  match _editing_idx c with Some _ => true | None => false end.

Definition set_allow_edit (allow : bool) (c : Canvas) : Canvas :=
  with_allow_edit allow c.

(** [exit_editing(commit)]. *)
Definition exit_editing (commit : bool) (c : Canvas) : Canvas * list Signal :=
  match _editing_idx c with
  | None => (c, [])
  | Some idx =>
      let s := _edit_start_ms c in
      let e := _edit_end_ms c in
      let c := with_drag_mode None (with_editing_idx None c) in
      (c, if commit then [edit_committed idx s e] else [edit_canceled idx])
  end.

(** [_x_to_ms(x)]: the time under the pixel column [x]. *)
Definition _x_to_ms (x : Z) (c : Canvas) : Z :=
  if _duration_ms c <=? 0 then 0
  else
    let w := Z.max 1 (width c - 2 * _pad_x) in
    let rel := (float (x - _pad_x) / float w)%Q in
    let ms := round (rel * float (_duration_ms c))%Q in
    Z.max 0 (Z.min ms (_duration_ms c)).

(** [_ms_to_x(ms)]: the pixel column of the time [ms]. *)
Definition _ms_to_x (ms : Z) (c : Canvas) : Z :=
  if _duration_ms c <=? 0 then _pad_x
  else
    let w := Z.max 1 (width c - 2 * _pad_x) in
    let ms := Z.max 0 (Z.min ms (_duration_ms c)) in
    _pad_x + round ((float ms / float (_duration_ms c)) * float w)%Q.

(** The hit block of the block in edit, [next((h for h in
    self._hit_blocks if h.idx == self._editing_idx), None)]. *)
Definition editing_hit_block (c : Canvas) : option Z :=
  match _editing_idx c with
  | Some idx => find (Z.eqb idx) (_hit_blocks c)
  | None => None
  end.

(** [_enter_edit_mode(idx)]. *)
Definition _enter_edit_mode (idx : Z) (c : Canvas) : Canvas * list Signal :=
  if negb (in_range idx (_annotations c)) then (c, [])
  else
    match _annotations c !! Z.to_nat idx with
    | None => (c, [])
    | Some rec =>
        let s := round (start_time rec * 1000)%Q in
        let e := round (end_time rec * 1000)%Q in
        let c := with_editing_idx (Some idx) c in
        let c := with_selected_idx (Some idx) c in
        let c := with_edit_start_ms s c in
        let c := with_edit_end_ms e c in
        let c := with_drag_mode None c in
        (c, [request_edit idx; edit_preview idx s e;
             edit_preview_drag idx s e right_edge])
    end.

(** [mousePressEvent] with the left button on the handle [handle] of the
    block in edit: the drag starts. *)
Definition mousePressEvent_handle (handle : Edge) (c : Canvas) : Canvas * list Signal :=
  match _editing_idx c, editing_hit_block c with
  | Some idx, Some _ =>
      let c := with_drag_mode (Some handle) c in
      let c :=
        match handle with
        | left_edge => with_playhead_ms (_edit_start_ms c) c
        | right_edge => with_playhead_ms (_edit_end_ms c) c
        end in
      (c, [edit_preview idx (_edit_start_ms c) (_edit_end_ms c);
           edit_preview_drag idx (_edit_start_ms c) (_edit_end_ms c) handle])
  | _, _ => (c, [])
  end.

(** [mousePressEvent] with the left button outside the block in edit: the
    edit is committed. *)
Definition mousePressEvent_elsewhere (c : Canvas) : Canvas * list Signal :=
  match _editing_idx c with
  | Some _ => exit_editing true c
  | None => (with_selected_idx None c, [])
  end.

(** The part of [mouseMoveEvent] that drags a handle to the pixel column
    [x]. *)
Definition mouseMoveEvent (x : Z) (c : Canvas) : Canvas * list Signal :=
  match _editing_idx c, _drag_mode c with
  | Some idx, Some mode =>
      match editing_hit_block c with
      | None => (c, [])
      | Some _ =>
          let new_ms := _x_to_ms x c in
          let c :=
            match mode with
            | left_edge => with_edit_start_ms (Z.min new_ms (_edit_end_ms c)) c
            | right_edge => with_edit_end_ms (Z.max new_ms (_edit_start_ms c)) c
            end in
          let c :=
            match mode with
            | left_edge => with_playhead_ms (_edit_start_ms c) c
            | right_edge => with_playhead_ms (_edit_end_ms c) c
            end in
          (c, [edit_preview idx (_edit_start_ms c) (_edit_end_ms c);
               edit_preview_drag idx (_edit_start_ms c) (_edit_end_ms c) mode])
      end
  | _, _ => (c, [])
  end.

(** [mouseReleaseEvent] with the left button. *)
Definition mouseReleaseEvent (c : Canvas) : Canvas :=
  match _drag_mode c with
  | Some _ => with_drag_mode None c
  | None => c
  end.

End SkillTimeline.

(** ** widgets/annotations_table.py: cell edits *)

Module AnnotationsTable.

Import Py.

(** The text of an edited cell, with what [int(text)] and [float(text)]
    make of it ([None] when the conversion raises). *)
Record Text : Type := mkText {
  text : string;
  int_of_text : option Z;
  float_of_text : option Q
}.

(** The state of the table: [_records], [_skills] and [_fps_provider].
    The records are the objects of the session state; an edit changes them
    in place, also when it then raises. *)
Record t : Type := mkTable {
  _records : list AnnotationRecord;
  _skills : list SkillStep;
  _fps_provider : option (string -> Q)
}.

Definition with_records (rs : list AnnotationRecord) (tb : t) : t :=
  {| _records := rs; _skills := _skills tb; _fps_provider := _fps_provider tb |}.

Definition set_records (records : list AnnotationRecord) (tb : t) : t :=
  with_records records tb.

Definition records (tb : t) : list AnnotationRecord := _records tb.

(** [as_int(v, field)] of [_apply_edit_to_record]. *)
Definition as_int (v : Text) (field : string) : result Z :=
  match int_of_text v with
  | Some n => Return n
  | None => Raise (ValueError (field ++ " must be an integer"))
  end.

(** [as_float(v, field)] of [_apply_edit_to_record]. *)
Definition as_float (v : Text) (field : string) : result Q :=
  match float_of_text v with
  | Some q => Return q
  | None => Raise (ValueError (field ++ " must be a number"))
  end.

(** [_fps_for_time_source(time_source_id)]. *)
Definition _fps_for_time_source (time_source_id : string) (tb : t) : Q :=
  match _fps_provider tb with
  | Some fn => if Qltb 0 (fn time_source_id) then fn time_source_id else 30%Q
  | None => 30%Q
  end.

(** [max(0.0, x)] on floats. *)
Definition max0 (x : Q) : Q := if Qltb 0 x then x else 0%Q.

Definition with_step (no : Z) (nm : string) (tt : Q) (tf : Z)
    (rec : AnnotationRecord) : AnnotationRecord :=
  {| label := label rec; camid := camid rec; step_no := no; step_name := nm;
     start_frame := start_frame rec; end_frame := end_frame rec; total_frames := tf;
     start_time := start_time rec; end_time := end_time rec; total_time := tt;
     time_source := time_source rec; audio_source := audio_source rec;
     confidence := confidence rec; notes := notes rec |}.

Definition with_start_time (st : Q) (rec : AnnotationRecord) : AnnotationRecord :=
  replace_times_frames rec st (end_time rec) (total_time rec)
    (start_frame rec) (end_frame rec) (total_frames rec).

Definition with_end_time (et : Q) (rec : AnnotationRecord) : AnnotationRecord :=
  replace_times_frames rec (start_time rec) et (total_time rec)
    (start_frame rec) (end_frame rec) (total_frames rec).

Definition with_confidence (c : Z) (rec : AnnotationRecord) : AnnotationRecord :=
  {| label := label rec; camid := camid rec;
     step_no := step_no rec; step_name := step_name rec;
     start_frame := start_frame rec; end_frame := end_frame rec;
     total_frames := total_frames rec;
     start_time := start_time rec; end_time := end_time rec;
     total_time := total_time rec;
     time_source := time_source rec; audio_source := audio_source rec;
     confidence := c; notes := notes rec |}.

Definition with_notes (n : string) (rec : AnnotationRecord) : AnnotationRecord :=
  {| label := label rec; camid := camid rec;
     step_no := step_no rec; step_name := step_name rec;
     start_frame := start_frame rec; end_frame := end_frame rec;
     total_frames := total_frames rec;
     start_time := start_time rec; end_time := end_time rec;
     total_time := total_time rec;
     time_source := time_source rec; audio_source := audio_source rec;
     confidence := confidence rec; notes := n |}.

(** The assignments [rec.start_time = new_rec.start_time; ...] after a
    recomputation. *)
Definition take_times_frames (rec new_rec : AnnotationRecord) : AnnotationRecord :=
  replace_times_frames rec (start_time new_rec) (end_time new_rec) (total_time new_rec)
    (start_frame new_rec) (end_frame new_rec) (total_frames new_rec).

(** The branches [col == 7] and [col == 8]: the record with its new time is
    stored first, then recomputed. *)
Definition edit_time (row : nat) (rec : AnnotationRecord) (tb : t) : t * result unit :=
  let tb := with_records (<[row := rec]> (_records tb)) tb in
  let fps := _fps_for_time_source (time_source rec) tb in
  match TimeUtils.recompute_from_times rec (Some fps) with
  | Raise e => (tb, Raise e)
  | Return new_rec =>
      (with_records (<[row := take_times_frames rec new_rec]> (_records tb)) tb,
       Return tt)
  end.

(** [_apply_edit_to_record(row, col, text)]: the table after the call, and
    whether the call returned or raised. *)
Definition _apply_edit_to_record (row col : Z) (v : Text) (tb : t) : t * result unit :=
  if (row <? 0) || (Z.of_nat (length (_records tb)) <=? row) then (tb, Return tt)
  else
    match _records tb !! Z.to_nat row with
    | None => (tb, Return tt)
    | Some rec =>
        if col =? 2 then
          match as_int v "step_no" with
          | Raise e => (tb, Raise e)
          | Return new_step_no =>
              if new_step_no <=? 0 then
                (tb, Raise (ValueError "step_no must be a positive integer"))
              else
                match find (fun s => number s =? new_step_no) (_skills tb) with
                | None =>
                    (tb, Raise (ValueError
                      ("Step number " ++ pretty new_step_no ++
                       " is not defined in the Skills list. " ++
                       "Please add it first (right panel) or choose an existing step number.")))
                | Some matching =>
                    let rec' :=
                      with_step new_step_no (name matching)
                        (max0 (end_time rec - start_time rec)%Q)
                        (Z.max 0 (end_frame rec - start_frame rec)) rec in
                    (with_records (<[Z.to_nat row := rec']> (_records tb)) tb, Return tt)
                end
          end
        else if col =? 7 then
          match as_float v "start_time" with
          | Raise e => (tb, Raise e)
          | Return st => edit_time (Z.to_nat row) (with_start_time st rec) tb
          end
        else if col =? 8 then
          match as_float v "end_time" with
          | Raise e => (tb, Raise e)
          | Return et => edit_time (Z.to_nat row) (with_end_time et rec) tb
          end
        else if col =? 12 then
          match as_int v "confidence" with
          | Raise e => (tb, Raise e)
          | Return new_conf =>
              if (1 <=? new_conf) && (new_conf <=? 10) then
                (with_records (<[Z.to_nat row := with_confidence new_conf rec]> (_records tb)) tb,
                 Return tt)
              else (tb, Raise (ValueError "confidence must be between 1 and 10"))
          end
        else if col =? 13 then
          (with_records (<[Z.to_nat row := with_notes (text v) rec]> (_records tb)) tb,
           Return tt)
        else (tb, Raise (ValueError "This field is not editable."))
    end.

(** The kept fields of a record. *)
Definition same_identity (r rec : AnnotationRecord) : Prop :=
  label r = label rec /\ camid r = camid rec /\
  time_source r = time_source rec /\ audio_source r = audio_source rec.

(** The record of a time edit before the recomputation: the new start
    time (column 7) or the new end time (column 8) in place of the old. *)
Definition with_time (col : Z) (x : Q) (rec : AnnotationRecord) : AnnotationRecord :=
  if col =? 7 then with_start_time x rec else with_end_time x rec.

End AnnotationsTable.

(** ** main_window.py: the step workflow and timeline edits *)

Module MainWindow.

Import Py.

(** [OverlayRange]: a translucent overlay on the slider groove. *)
Record OverlayRange : Type := mkOverlayRange {
  start_value : Z;
  end_value : Z;
  color_hex : string;
  alpha : Z
}.

(** Calls that leave the window: message boxes and the autosave. *)
Inductive Effect : Type :=
| warning (title text : string)
| information (title text : string)
| persist_session_state (s : Domain.SessionState).

(** The state of the [MainWindow] that the step workflow and the timeline
    edits read and write.  The slider is kept as its value, its maximum and
    its overlays; the four step buttons as their enabled flags.  Labels and
    the Play, Pause and Restart buttons are presentation and are left out. *)
Record t : Type := mkMainWindow {
  cfg : option RootConfig;
  state : Domain.SessionState;
  _skill_selected : option SkillStep;
  _ignore_slider_updates : bool;
  _user_scrubbing : bool;
  _timeline_drag_active : bool;
  _timeline_drag_was_playing : bool;
  _step_flow_was_playing : bool;
  video_grid : VideoGrid.t;
  skill_timeline : SkillTimeline.Canvas;
  table : AnnotationsTable.t;
  slider_value : Z;
  slider_maximum : Z;
  slider_overlays : list OverlayRange;
  slider_edit_overlay : option OverlayRange;
  btn_start_step : bool;
  btn_confirm_start : bool;
  btn_end_step : bool;
  btn_finish_step : bool
}.

(** Assignments to one field of the window or of one of its widgets. *)
Definition with_cfg (v : option RootConfig) (w : t) : t :=
  {| cfg := v; state := state w; _skill_selected := _skill_selected w;
     _ignore_slider_updates := _ignore_slider_updates w;
     _user_scrubbing := _user_scrubbing w;
     _timeline_drag_active := _timeline_drag_active w;
     _timeline_drag_was_playing := _timeline_drag_was_playing w;
     _step_flow_was_playing := _step_flow_was_playing w; video_grid := video_grid w;
     skill_timeline := skill_timeline w; table := table w;
     slider_value := slider_value w; slider_maximum := slider_maximum w;
     slider_overlays := slider_overlays w;
     slider_edit_overlay := slider_edit_overlay w; btn_start_step := btn_start_step w;
     btn_confirm_start := btn_confirm_start w; btn_end_step := btn_end_step w;
     btn_finish_step := btn_finish_step w |}.

Definition with_state (v : Domain.SessionState) (w : t) : t :=
  {| cfg := cfg w; state := v; _skill_selected := _skill_selected w;
     _ignore_slider_updates := _ignore_slider_updates w;
     _user_scrubbing := _user_scrubbing w;
     _timeline_drag_active := _timeline_drag_active w;
     _timeline_drag_was_playing := _timeline_drag_was_playing w;
     _step_flow_was_playing := _step_flow_was_playing w; video_grid := video_grid w;
     skill_timeline := skill_timeline w; table := table w;
     slider_value := slider_value w; slider_maximum := slider_maximum w;
     slider_overlays := slider_overlays w;
     slider_edit_overlay := slider_edit_overlay w; btn_start_step := btn_start_step w;
     btn_confirm_start := btn_confirm_start w; btn_end_step := btn_end_step w;
     btn_finish_step := btn_finish_step w |}.

Definition with_timeline_drag_active (v : bool) (w : t) : t :=
  {| cfg := cfg w; state := state w; _skill_selected := _skill_selected w;
     _ignore_slider_updates := _ignore_slider_updates w;
     _user_scrubbing := _user_scrubbing w; _timeline_drag_active := v;
     _timeline_drag_was_playing := _timeline_drag_was_playing w;
     _step_flow_was_playing := _step_flow_was_playing w; video_grid := video_grid w;
     skill_timeline := skill_timeline w; table := table w;
     slider_value := slider_value w; slider_maximum := slider_maximum w;
     slider_overlays := slider_overlays w;
     slider_edit_overlay := slider_edit_overlay w; btn_start_step := btn_start_step w;
     btn_confirm_start := btn_confirm_start w; btn_end_step := btn_end_step w;
     btn_finish_step := btn_finish_step w |}.

Definition with_timeline_drag_was_playing (v : bool) (w : t) : t :=
  {| cfg := cfg w; state := state w; _skill_selected := _skill_selected w;
     _ignore_slider_updates := _ignore_slider_updates w;
     _user_scrubbing := _user_scrubbing w;
     _timeline_drag_active := _timeline_drag_active w; _timeline_drag_was_playing := v;
     _step_flow_was_playing := _step_flow_was_playing w; video_grid := video_grid w;
     skill_timeline := skill_timeline w; table := table w;
     slider_value := slider_value w; slider_maximum := slider_maximum w;
     slider_overlays := slider_overlays w;
     slider_edit_overlay := slider_edit_overlay w; btn_start_step := btn_start_step w;
     btn_confirm_start := btn_confirm_start w; btn_end_step := btn_end_step w;
     btn_finish_step := btn_finish_step w |}.

Definition with_step_flow_was_playing (v : bool) (w : t) : t :=
  {| cfg := cfg w; state := state w; _skill_selected := _skill_selected w;
     _ignore_slider_updates := _ignore_slider_updates w;
     _user_scrubbing := _user_scrubbing w;
     _timeline_drag_active := _timeline_drag_active w;
     _timeline_drag_was_playing := _timeline_drag_was_playing w;
     _step_flow_was_playing := v; video_grid := video_grid w;
     skill_timeline := skill_timeline w; table := table w;
     slider_value := slider_value w; slider_maximum := slider_maximum w;
     slider_overlays := slider_overlays w;
     slider_edit_overlay := slider_edit_overlay w; btn_start_step := btn_start_step w;
     btn_confirm_start := btn_confirm_start w; btn_end_step := btn_end_step w;
     btn_finish_step := btn_finish_step w |}.

Definition with_video_grid (v : VideoGrid.t) (w : t) : t :=
  {| cfg := cfg w; state := state w; _skill_selected := _skill_selected w;
     _ignore_slider_updates := _ignore_slider_updates w;
     _user_scrubbing := _user_scrubbing w;
     _timeline_drag_active := _timeline_drag_active w;
     _timeline_drag_was_playing := _timeline_drag_was_playing w;
     _step_flow_was_playing := _step_flow_was_playing w; video_grid := v;
     skill_timeline := skill_timeline w; table := table w;
     slider_value := slider_value w; slider_maximum := slider_maximum w;
     slider_overlays := slider_overlays w;
     slider_edit_overlay := slider_edit_overlay w; btn_start_step := btn_start_step w;
     btn_confirm_start := btn_confirm_start w; btn_end_step := btn_end_step w;
     btn_finish_step := btn_finish_step w |}.

Definition with_skill_timeline (v : SkillTimeline.Canvas) (w : t) : t :=
  {| cfg := cfg w; state := state w; _skill_selected := _skill_selected w;
     _ignore_slider_updates := _ignore_slider_updates w;
     _user_scrubbing := _user_scrubbing w;
     _timeline_drag_active := _timeline_drag_active w;
     _timeline_drag_was_playing := _timeline_drag_was_playing w;
     _step_flow_was_playing := _step_flow_was_playing w; video_grid := video_grid w;
     skill_timeline := v; table := table w; slider_value := slider_value w;
     slider_maximum := slider_maximum w; slider_overlays := slider_overlays w;
     slider_edit_overlay := slider_edit_overlay w; btn_start_step := btn_start_step w;
     btn_confirm_start := btn_confirm_start w; btn_end_step := btn_end_step w;
     btn_finish_step := btn_finish_step w |}.

Definition with_table (v : AnnotationsTable.t) (w : t) : t :=
  {| cfg := cfg w; state := state w; _skill_selected := _skill_selected w;
     _ignore_slider_updates := _ignore_slider_updates w;
     _user_scrubbing := _user_scrubbing w;
     _timeline_drag_active := _timeline_drag_active w;
     _timeline_drag_was_playing := _timeline_drag_was_playing w;
     _step_flow_was_playing := _step_flow_was_playing w; video_grid := video_grid w;
     skill_timeline := skill_timeline w; table := v; slider_value := slider_value w;
     slider_maximum := slider_maximum w; slider_overlays := slider_overlays w;
     slider_edit_overlay := slider_edit_overlay w; btn_start_step := btn_start_step w;
     btn_confirm_start := btn_confirm_start w; btn_end_step := btn_end_step w;
     btn_finish_step := btn_finish_step w |}.

Definition with_slider_value (v : Z) (w : t) : t :=
  {| cfg := cfg w; state := state w; _skill_selected := _skill_selected w;
     _ignore_slider_updates := _ignore_slider_updates w;
     _user_scrubbing := _user_scrubbing w;
     _timeline_drag_active := _timeline_drag_active w;
     _timeline_drag_was_playing := _timeline_drag_was_playing w;
     _step_flow_was_playing := _step_flow_was_playing w; video_grid := video_grid w;
     skill_timeline := skill_timeline w; table := table w; slider_value := v;
     slider_maximum := slider_maximum w; slider_overlays := slider_overlays w;
     slider_edit_overlay := slider_edit_overlay w; btn_start_step := btn_start_step w;
     btn_confirm_start := btn_confirm_start w; btn_end_step := btn_end_step w;
     btn_finish_step := btn_finish_step w |}.

Definition with_slider_overlays (v : list OverlayRange) (w : t) : t :=
  {| cfg := cfg w; state := state w; _skill_selected := _skill_selected w;
     _ignore_slider_updates := _ignore_slider_updates w;
     _user_scrubbing := _user_scrubbing w;
     _timeline_drag_active := _timeline_drag_active w;
     _timeline_drag_was_playing := _timeline_drag_was_playing w;
     _step_flow_was_playing := _step_flow_was_playing w; video_grid := video_grid w;
     skill_timeline := skill_timeline w; table := table w;
     slider_value := slider_value w; slider_maximum := slider_maximum w;
     slider_overlays := v; slider_edit_overlay := slider_edit_overlay w;
     btn_start_step := btn_start_step w; btn_confirm_start := btn_confirm_start w;
     btn_end_step := btn_end_step w; btn_finish_step := btn_finish_step w |}.

Definition with_slider_edit_overlay (v : option OverlayRange) (w : t) : t :=
  {| cfg := cfg w; state := state w; _skill_selected := _skill_selected w;
     _ignore_slider_updates := _ignore_slider_updates w;
     _user_scrubbing := _user_scrubbing w;
     _timeline_drag_active := _timeline_drag_active w;
     _timeline_drag_was_playing := _timeline_drag_was_playing w;
     _step_flow_was_playing := _step_flow_was_playing w; video_grid := video_grid w;
     skill_timeline := skill_timeline w; table := table w;
     slider_value := slider_value w; slider_maximum := slider_maximum w;
     slider_overlays := slider_overlays w; slider_edit_overlay := v;
     btn_start_step := btn_start_step w; btn_confirm_start := btn_confirm_start w;
     btn_end_step := btn_end_step w; btn_finish_step := btn_finish_step w |}.

Definition with_btn_start_step (v : bool) (w : t) : t :=
  {| cfg := cfg w; state := state w; _skill_selected := _skill_selected w;
     _ignore_slider_updates := _ignore_slider_updates w;
     _user_scrubbing := _user_scrubbing w;
     _timeline_drag_active := _timeline_drag_active w;
     _timeline_drag_was_playing := _timeline_drag_was_playing w;
     _step_flow_was_playing := _step_flow_was_playing w; video_grid := video_grid w;
     skill_timeline := skill_timeline w; table := table w;
     slider_value := slider_value w; slider_maximum := slider_maximum w;
     slider_overlays := slider_overlays w;
     slider_edit_overlay := slider_edit_overlay w; btn_start_step := v;
     btn_confirm_start := btn_confirm_start w; btn_end_step := btn_end_step w;
     btn_finish_step := btn_finish_step w |}.

Definition with_btn_confirm_start (v : bool) (w : t) : t :=
  {| cfg := cfg w; state := state w; _skill_selected := _skill_selected w;
     _ignore_slider_updates := _ignore_slider_updates w;
     _user_scrubbing := _user_scrubbing w;
     _timeline_drag_active := _timeline_drag_active w;
     _timeline_drag_was_playing := _timeline_drag_was_playing w;
     _step_flow_was_playing := _step_flow_was_playing w; video_grid := video_grid w;
     skill_timeline := skill_timeline w; table := table w;
     slider_value := slider_value w; slider_maximum := slider_maximum w;
     slider_overlays := slider_overlays w;
     slider_edit_overlay := slider_edit_overlay w; btn_start_step := btn_start_step w;
     btn_confirm_start := v; btn_end_step := btn_end_step w;
     btn_finish_step := btn_finish_step w |}.

Definition with_btn_end_step (v : bool) (w : t) : t :=
  {| cfg := cfg w; state := state w; _skill_selected := _skill_selected w;
     _ignore_slider_updates := _ignore_slider_updates w;
     _user_scrubbing := _user_scrubbing w;
     _timeline_drag_active := _timeline_drag_active w;
     _timeline_drag_was_playing := _timeline_drag_was_playing w;
     _step_flow_was_playing := _step_flow_was_playing w; video_grid := video_grid w;
     skill_timeline := skill_timeline w; table := table w;
     slider_value := slider_value w; slider_maximum := slider_maximum w;
     slider_overlays := slider_overlays w;
     slider_edit_overlay := slider_edit_overlay w; btn_start_step := btn_start_step w;
     btn_confirm_start := btn_confirm_start w; btn_end_step := v;
     btn_finish_step := btn_finish_step w |}.

Definition with_btn_finish_step (v : bool) (w : t) : t :=
  {| cfg := cfg w; state := state w; _skill_selected := _skill_selected w;
     _ignore_slider_updates := _ignore_slider_updates w;
     _user_scrubbing := _user_scrubbing w;
     _timeline_drag_active := _timeline_drag_active w;
     _timeline_drag_was_playing := _timeline_drag_was_playing w;
     _step_flow_was_playing := _step_flow_was_playing w; video_grid := video_grid w;
     skill_timeline := skill_timeline w; table := table w;
     slider_value := slider_value w; slider_maximum := slider_maximum w;
     slider_overlays := slider_overlays w;
     slider_edit_overlay := slider_edit_overlay w; btn_start_step := btn_start_step w;
     btn_confirm_start := btn_confirm_start w; btn_end_step := btn_end_step w;
     btn_finish_step := v |}.

Definition with_ignore_slider_updates (v : bool) (w : t) : t :=
  {| cfg := cfg w; state := state w; _skill_selected := _skill_selected w;
     _ignore_slider_updates := v; _user_scrubbing := _user_scrubbing w;
     _timeline_drag_active := _timeline_drag_active w;
     _timeline_drag_was_playing := _timeline_drag_was_playing w;
     _step_flow_was_playing := _step_flow_was_playing w; video_grid := video_grid w;
     skill_timeline := skill_timeline w; table := table w;
     slider_value := slider_value w; slider_maximum := slider_maximum w;
     slider_overlays := slider_overlays w;
     slider_edit_overlay := slider_edit_overlay w; btn_start_step := btn_start_step w;
     btn_confirm_start := btn_confirm_start w; btn_end_step := btn_end_step w;
     btn_finish_step := btn_finish_step w |}.

(** [QSlider.setValue]: the value is kept within the range of the slider. *)
Definition slider_setValue (v : Z) (w : t) : t :=
  with_slider_value (Z.max 0 (Z.min v (slider_maximum w))) w.

Definition _set_slider_value (ms : Z) (w : t) : t :=
  slider_setValue (Z.max 0 ms) w.

Definition _is_at_end (w : t) : bool :=
  (0 <? slider_maximum w) && (Z.max 0 (slider_maximum w - 2) <=? slider_value w).

Definition _resume_if_allowed (was_playing : bool) (w : t) : t :=
  if negb was_playing || _is_at_end w then
    with_video_grid (VideoGrid.pause_all (video_grid w)) w
  else with_video_grid (VideoGrid.play_all (video_grid w)) w.

Definition _autosave_session (w : t) : list Effect :=
  [persist_session_state (state w)].

Section WithGeneratedColors.

Variable _generated_color_hex : Z -> string.

(** [get_skill_color_hex(step_no, self.cfg)], with its effect on
    [self.cfg]. *)
Definition color_for (step_no : Z) (w : t) : string * t :=
  let '(color, cfg') :=
    Colors.get_skill_color_hex _generated_color_hex (Some step_no) (cfg w) in
  (color, with_cfg cfg' w).

Definition _refresh_overlays_and_timeline (w : t) : t :=
  let tl := SkillTimeline.set_duration_ms (slider_maximum w) (skill_timeline w) in
  let tl := SkillTimeline.set_annotations (Domain.annotations (state w)) tl in
  let tl := SkillTimeline.set_playhead_ms (slider_value w) tl in
  let w := with_skill_timeline tl w in
  let '(overlays, w) :=
    match Domain.pending_start_ms (state w), Domain.pending_step (state w) with
    | Some s, Some step =>
        let e := slider_value w in
        let e := if e <? s then s else e in
        let '(color, w) :=
          if Domain.truthy (Domain.pending_color (state w)) then
            (default EmptyString (Domain.pending_color (state w)), w)
          else color_for (number step) w in
        ([mkOverlayRange s e color 140], w)
    | _, _ => ([], w)
    end in
  let w := with_slider_overlays overlays w in
  let allow_edit :=
    match Domain.pending_step (state w), Domain.pending_start_ms (state w) with
    | None, None => true
    | _, _ => false
    end in
  with_skill_timeline (SkillTimeline.set_allow_edit allow_edit (skill_timeline w)) w.

(** [_on_master_position(pos_ms)]: the slot of [time_position_changed]. *)
Definition _on_master_position (pos_ms : Z) (w : t) : t :=
  if _ignore_slider_updates w || _user_scrubbing w then w
  else
    let w := _set_slider_value pos_ms w in
    let w := with_skill_timeline
               (SkillTimeline.set_playhead_ms pos_ms (skill_timeline w)) w in
    _refresh_overlays_and_timeline w.

Definition _start_step (w : t) : t * list Effect :=
  if negb (Domain.is_loaded (state w)) then
    (w, [warning "No session" "Create or import a session first."])
  else
    match _skill_selected w with
    | None =>
        (w, [warning "No label selected" "Select a label from the Labels panel."])
    | Some step =>
        if SkillTimeline.is_editing (skill_timeline w) then
          (w, [information "Editing active"
                 "Exit timeline edit mode before starting a new label."])
        else
          let w := with_step_flow_was_playing (VideoGrid.is_playing (video_grid w)) w in
          let w := with_video_grid (VideoGrid.pause_all (video_grid w)) w in
          let camid := Domain.encode_camid_from_active_views
                         (VideoGrid._active_view_ids (video_grid w)) in
          let '(color, w) := color_for (number step) w in
          let st := state w in
          let st := Domain.with_pending_step (Some step) st in
          let st := Domain.with_pending_camid (Some camid) st in
          let st := Domain.with_pending_start_ms None st in
          let st := Domain.with_pending_time_source None st in
          let st := Domain.with_pending_audio_source None st in
          let st := Domain.with_pending_color (Some color) st in
          let w := with_state st w in
          let w := with_btn_start_step false w in
          let w := with_btn_confirm_start true w in
          let w := with_btn_end_step false w in
          let w := with_btn_finish_step false w in
          let w := with_skill_timeline
                     (SkillTimeline.set_allow_edit false (skill_timeline w)) w in
          (_refresh_overlays_and_timeline w, [])
    end.

Definition _confirm_start (w : t) : t * list Effect :=
  match Domain.pending_step (state w) with
  | None => (w, [])
  | Some _ =>
      let time_source := VideoGrid._time_source_id (video_grid w) in
      let audio_source := VideoGrid._audio_source_id (video_grid w) in
      if negb (Domain.truthy time_source) || negb (Domain.truthy audio_source) then
        (w, [warning "Missing sources"
               "Time source and audio source must be selected."])
      else
        let st := state w in
        let st := Domain.with_pending_start_ms (Some (slider_value w)) st in
        let st := Domain.with_pending_time_source time_source st in
        let st := Domain.with_pending_audio_source audio_source st in
        let w := with_state st w in
        let w := with_btn_confirm_start false w in
        let w := with_btn_end_step true w in
        let w := with_btn_finish_step false w in
        let w := _resume_if_allowed (_step_flow_was_playing w) w in
        (_refresh_overlays_and_timeline w, [])
  end.

Definition _end_step (w : t) : t * list Effect :=
  match Domain.pending_start_ms (state w), Domain.pending_step (state w) with
  | Some _, Some _ =>
      let w := with_video_grid (VideoGrid.pause_all (video_grid w)) w in
      let w := with_btn_end_step false w in
      let w := with_btn_finish_step true w in
      (_refresh_overlays_and_timeline w, [])
  | _, _ => (w, [warning "No start" "Confirm Start before ending the step."])
  end.

(** [str(x)] for an optional string. *)
Definition str (o : option string) : string := default "None"%string o.

(** [_finish_step]; [conf_notes] is what the dialog
    [_prompt_confidence_and_notes] returns ([None] when it is cancelled). *)
Definition _finish_step (conf_notes : option (Z * string)) (w : t) : t * list Effect :=
  let st := state w in
  match Domain.pending_start_ms st, Domain.pending_step st with
  | Some start_ms, Some step =>
      if negb (Domain.truthy (Domain.pending_camid st))
         || negb (Domain.truthy (Domain.pending_time_source st))
         || negb (Domain.truthy (Domain.pending_audio_source st))
      then (w, [warning "Incomplete" "Step state incomplete; try again."])
      else
        let end_ms := slider_value w in
        if end_ms <? start_ms then
          (w, [warning "Invalid range" "End time must be after start time."])
        else
          match conf_notes with
          | None => (w, [])
          | Some (confidence, notes) =>
              let fps := VideoGrid.fps_for (str (Domain.pending_time_source st))
                           (video_grid w) in
              let start_time := (float start_ms / 1000)%Q in
              let end_time := (float end_ms / 1000)%Q in
              let start_frame := round (start_time * fps)%Q in
              let end_frame := round (end_time * fps)%Q in
              let rec :=
                {| label := str (Domain.label_s st);
                   camid := str (Domain.pending_camid st);
                   step_no := number step;
                   step_name := name step;
                   start_frame := start_frame;
                   end_frame := end_frame;
                   total_frames := Z.max (end_frame - start_frame) 0;
                   start_time := start_time;
                   end_time := end_time;
                   total_time := (end_time - start_time)%Q;
                   time_source := str (Domain.pending_time_source st);
                   audio_source := str (Domain.pending_audio_source st);
                   confidence := confidence;
                   notes := notes |} in
              let st := Domain.with_annotations (Domain.annotations st ++ [rec]) st in
              let w := with_state st w in
              let w := with_table
                         (AnnotationsTable.set_records (Domain.annotations st) (table w)) w in
              let saved := _autosave_session w in
              let w := with_state (Domain.clear_pending (state w)) w in
              let w := with_btn_start_step true w in
              let w := with_btn_confirm_start false w in
              let w := with_btn_end_step false w in
              let w := with_btn_finish_step false w in
              let w := with_skill_timeline
                         (SkillTimeline.set_allow_edit true (skill_timeline w)) w in
              let w := _resume_if_allowed (_step_flow_was_playing w) w in
              let w := with_step_flow_was_playing false w in
              (_refresh_overlays_and_timeline w, saved)
          end
  | _, _ => (w, [warning "Incomplete" "Step state incomplete; try again."])
  end.

(** [_on_timeline_drag_end]. *)
Definition _on_timeline_drag_end (w : t) : t :=
  if negb (_timeline_drag_active w) then w
  else
    let w := with_timeline_drag_active false w in
    let w :=
      if _timeline_drag_was_playing w then
        with_video_grid (VideoGrid.play_all (video_grid w)) w
      else w in
    with_timeline_drag_was_playing false w.

(** [_on_skill_timeline_edit_commit(idx, start_ms, end_ms)]: the slot of
    [edit_committed]. *)
Definition _on_skill_timeline_edit_commit (idx start_ms end_ms : Z) (w : t)
    : t * list Effect :=
  let w := _on_timeline_drag_end w in
  let w := with_slider_edit_overlay None w in
  if (idx <? 0) || (Z.of_nat (length (Domain.annotations (state w))) <=? idx) then (w, [])
  else
    match Domain.annotations (state w) !! Z.to_nat idx with
    | None => (w, [])
    | Some rec =>
        let '(start_ms, end_ms) :=
          if end_ms <? start_ms then (end_ms, start_ms) else (start_ms, end_ms) in
        let rec := AnnotationsTable.with_start_time (float start_ms / 1000)%Q rec in
        let rec := AnnotationsTable.with_end_time (float end_ms / 1000)%Q rec in
        let store r w :=
          with_state
            (Domain.with_annotations
               (<[Z.to_nat idx := r]> (Domain.annotations (state w))) (state w)) w in
        let w := store rec w in
        let fps := VideoGrid.fps_for (time_source rec) (video_grid w) in
        match TimeUtils.recompute_from_times rec (Some fps) with
        | Raise (ValueError msg) => (w, [warning "Invalid edit" msg])
        | Return new_rec =>
            let w := store (AnnotationsTable.take_times_frames rec new_rec) w in
            let w := with_table
                       (AnnotationsTable.set_records (Domain.annotations (state w))
                          (table w)) w in
            let saved := _autosave_session w in
            (_refresh_overlays_and_timeline w, saved)
        end
    end.

(** [_on_table_annotations_changed(records)]: the slot of the table's
    [annotations_changed]. *)
Definition _on_table_annotations_changed (records : list AnnotationRecord) (w : t)
    : t * list Effect :=
  let w := with_state (Domain.with_annotations records (state w)) w in
  let saved := _autosave_session w in
  (_refresh_overlays_and_timeline w, saved).

(** [_begin_timeline_drag]: called on the first drag event of a gesture. *)
Definition _begin_timeline_drag (w : t) : t :=
  if _timeline_drag_active w then w
  else
    let w := with_timeline_drag_active true w in
    let w := with_timeline_drag_was_playing (VideoGrid.is_playing (video_grid w)) w in
    if _timeline_drag_was_playing w then
      with_video_grid (VideoGrid.pause_all (video_grid w)) w
    else w.

(** [_on_skill_timeline_edit_cancel(idx)]: the slot of [edit_canceled]. *)
Definition _on_skill_timeline_edit_cancel (idx : Z) (w : t) : t * list Effect :=
  let w := _on_timeline_drag_end w in
  let w := with_slider_edit_overlay None w in
  (_refresh_overlays_and_timeline w, []).

(** [_on_skill_timeline_request_edit(idx)]: the slot of [request_edit];
    while a step is pending the edit is refused and the canvas leaves edit
    mode, which emits [edit_canceled]. *)
Definition _on_skill_timeline_request_edit (idx : Z) (w : t) : t * list Effect :=
  match Domain.pending_step (state w), Domain.pending_start_ms (state w) with
  | None, None => (w, [])
  | _, _ =>
      let refused :=
        information "Edit disabled"
          "Finish the current step before editing an annotation." in
      let '(c, sigs) := SkillTimeline.exit_editing false (skill_timeline w) in
      let w := with_skill_timeline c w in
      match sigs with
      | SkillTimeline.edit_canceled i :: _ =>
          let '(w, effs) := _on_skill_timeline_edit_cancel i w in
          (w, refused :: effs)
      | _ => (w, [refused])
      end
  end.

(** [_on_skill_timeline_edit_preview(idx, start_ms, end_ms)]: the slot of
    [edit_preview]. *)
Definition _on_skill_timeline_edit_preview (idx start_ms end_ms : Z) (w : t) : t :=
  if (idx <? 0) || (Z.of_nat (length (Domain.annotations (state w))) <=? idx) then w
  else
    match Domain.annotations (state w) !! Z.to_nat idx with
    | None => w
    | Some rec =>
        let '(color, w) := color_for (step_no rec) w in
        with_slider_edit_overlay (Some (mkOverlayRange start_ms end_ms color 180)) w
    end.

(** [_on_skill_timeline_edit_preview_drag(idx, start_ms, end_ms, edge)]:
    the slot of [edit_preview_drag]; the debounce timer that ends the
    gesture is real time and is not modelled. *)
Definition _on_skill_timeline_edit_preview_drag (idx start_ms end_ms : Z)
    (edge : SkillTimeline.Edge) (w : t) : t :=
  if (idx <? 0) || (Z.of_nat (length (Domain.annotations (state w))) <=? idx) then w
  else
    match Domain.annotations (state w) !! Z.to_nat idx with
    | None => w
    | Some rec =>
        let '(color, w) := color_for (step_no rec) w in
        let w := with_slider_edit_overlay
                   (Some (mkOverlayRange start_ms end_ms color 180)) w in
        let w := _begin_timeline_drag w in
        let target :=
          match edge with
          | SkillTimeline.left_edge => start_ms
          | SkillTimeline.right_edge => end_ms
          end in
        let target := Z.max 0 (Z.min target (slider_maximum w)) in
        let w := with_ignore_slider_updates true w in
        let w := slider_setValue target w in
        let w := with_video_grid (VideoGrid.set_position_all target (video_grid w)) w in
        let w := with_ignore_slider_updates false w in
        with_skill_timeline (SkillTimeline.set_playhead_ms target (skill_timeline w)) w
    end.

(** The connections of the signals of the timeline to the slots of the
    window.  [record_selected] has no slot; the slot of [request_delete]
    asks for a confirmation in a dialog and is not modelled. *)
Definition deliver (sig : SkillTimeline.Signal) (w : t) : t * list Effect :=
  match sig with
  | SkillTimeline.request_edit idx => _on_skill_timeline_request_edit idx w
  | SkillTimeline.edit_preview idx s e => (_on_skill_timeline_edit_preview idx s e w, [])
  | SkillTimeline.edit_preview_drag idx s e edge =>
      (_on_skill_timeline_edit_preview_drag idx s e edge w, [])
  | SkillTimeline.edit_committed idx s e => _on_skill_timeline_edit_commit idx s e w
  | SkillTimeline.edit_canceled idx => _on_skill_timeline_edit_cancel idx w
  | SkillTimeline.record_selected _ | SkillTimeline.request_delete _ => (w, [])
  end.

Fixpoint deliver_all (sigs : list SkillTimeline.Signal) (w : t) : t * list Effect :=
  match sigs with
  | [] => (w, [])
  | sig :: rest =>
      let '(w, effs) := deliver sig w in
      let '(w, effs') := deliver_all rest w in
      (w, effs ++ effs')
  end.

(** An event of the canvas of the timeline, followed by the slots of the
    signals it emits. *)
Definition timeline_event
    (ev : SkillTimeline.Canvas -> SkillTimeline.Canvas * list SkillTimeline.Signal)
    (w : t) : t * list Effect :=
  let '(c, sigs) := ev (skill_timeline w) in
  deliver_all sigs (with_skill_timeline c w).

(** A cell edit of the table, followed by the slot of
    [annotations_changed] when the edit is accepted. *)
Definition table_edit (row col : Z) (v : AnnotationsTable.Text) (w : t)
    : t * list Effect * result unit :=
  let '(tb, r) := AnnotationsTable._apply_edit_to_record row col v (table w) in
  let w := with_table tb w in
  match r with
  | Raise (ValueError msg) => (w, [warning "Invalid value" msg], r)
  | Return _ =>
      let '(w, effs) := _on_table_annotations_changed (AnnotationsTable.records tb) w in
      (w, effs, r)
  end.

End WithGeneratedColors.

(** The timeline after a refresh: the maximum of the slider as duration,
    the annotations of the session, the value of the slider as playhead. *)
Definition refreshed_timeline (w : t) : SkillTimeline.Canvas :=
  SkillTimeline.set_playhead_ms (slider_value w)
    (SkillTimeline.set_annotations (Domain.annotations (state w))
       (SkillTimeline.set_duration_ms (slider_maximum w) (skill_timeline w))).

(** Whether the refresh allows edits: no step is pending. *)
Definition idle (w : t) : bool :=
  match Domain.pending_step (state w), Domain.pending_start_ms (state w) with
  | None, None => true
  | _, _ => false
  end.

(** The step workflow waits for the confirmation of the end: a step, its
    start, its cameras and its sources are pending, and of the four step
    buttons only Finish is enabled. *)
Definition AwaitingConfirmEnd (w : t) : Prop :=
  is_Some (Domain.pending_step (state w)) /\
  is_Some (Domain.pending_start_ms (state w)) /\
  Domain.truthy (Domain.pending_camid (state w)) = true /\
  Domain.truthy (Domain.pending_time_source (state w)) = true /\
  Domain.truthy (Domain.pending_audio_source (state w)) = true /\
  btn_start_step w = false /\ btn_confirm_start w = false /\
  btn_end_step w = false /\ btn_finish_step w = true.

End MainWindow.

(** * Binary floating point

    The functions of timeutils.py compute in the floats of Python, the
    binary64 numbers of IEEE 754.  The module [TimeUtils] above works with
    exact arithmetic, which gives the order and the structure of the
    results; the module [TimeUtils64] below follows the same functions in
    binary64: every product, quotient and difference is rounded to the
    nearest float, ties to even, a result beyond the range is an infinity,
    and the conversions between integers and floats fail as they do in
    Python.  The sign of a zero is not kept. *)

Module Binary64.

(** A float: a finite value, an infinity with its sign, or not a number.
    The finite floats of Python are rationals; the operations below return
    rationals that are floats. *)
Inductive float64 : Type :=
| Finite (q : Q)
| Infinity (negative : bool)
| NaN.

(** The exceptions that the arithmetic and the recomputations raise. *)
Inductive exn : Type :=
| ValueError (msg : string)
| OverflowError (msg : string)
| ZeroDivisionError (msg : string).

Inductive result (A : Type) : Type :=
| Return (a : A)
| Raise (e : exn).

Arguments Return {A} a.
Arguments Raise {A} e.

(** Rounding works on [X = |x| * 2^1074], the magnitude in units of the
    smallest positive float.  [grid_shift X] is the binary logarithm of the
    spacing of the floats around [X], in these units: 53 significant bits
    above [2^52] units, the units themselves below. *)
Definition grid_shift (X : Q) : Z := Z.max (Z.log2 (Qfloor X) - 52) 0.

(** The nearest multiple of the spacing, ties to the even multiple. *)
Definition rn_units (X : Q) : Z :=
  let s := grid_shift X in
  Py.round (X / inject_Z (2 ^ s)) * 2 ^ s.

(** The number of units of [2^1024], the first magnitude out of range. *)
Definition overflow_units : Z := 2 ^ 2098.

(** [rn x]: the float nearest to the real number [x]. *)
Definition rn (x : Q) : float64 :=
  let negative := Py.Qltb x 0 in
  let M := rn_units (Qabs x * inject_Z (2 ^ 1074)) in
  if overflow_units <=? M then Infinity negative
  else
    let q := (inject_Z M / inject_Z (2 ^ 1074))%Q in
    Finite (if negative then - q else q)%Q.

Definition is_zero (q : Q) : bool := Qeq_bool q 0.

(** [a * b]. *)
Definition mul (a b : float64) : float64 :=
  match a, b with
  | NaN, _ | _, NaN => NaN
  | Finite x, Finite y => rn (x * y)
  | Finite x, Infinity s | Infinity s, Finite x =>
      if is_zero x then NaN else Infinity (xorb s (Py.Qltb x 0))
  | Infinity s, Infinity t => Infinity (xorb s t)
  end.

(** [a - b]. *)
Definition sub (a b : float64) : float64 :=
  match a, b with
  | NaN, _ | _, NaN => NaN
  | Finite x, Finite y => rn (x - y)
  | Finite _, Infinity t => Infinity (negb t)
  | Infinity s, Finite _ => Infinity s
  | Infinity s, Infinity t => if Bool.eqb s t then NaN else Infinity s
  end.

(** [a / b]; Python raises on a zero divisor. *)
Definition div (a b : float64) : result float64 :=
  match a, b with
  | _, Finite y =>
      if is_zero y then Raise (ZeroDivisionError "float division by zero")
      else
        match a with
        | Finite x => Return (rn (x / y))
        | Infinity s => Return (Infinity (xorb s (Py.Qltb y 0)))
        | NaN => Return NaN
        end
  | NaN, _ | _, NaN => Return NaN
  | Finite _, Infinity _ => Return (Finite 0)
  | Infinity _, Infinity _ => Return NaN
  end.

(** [a < b] and [a <= b]; a comparison with not-a-number is false. *)
Definition ltb (a b : float64) : bool :=
  match a, b with
  | NaN, _ | _, NaN => false
  | Finite x, Finite y => Py.Qltb x y
  | Finite _, Infinity t => negb t
  | Infinity s, Finite _ => s
  | Infinity s, Infinity t => s && negb t
  end.

Definition leb (a b : float64) : bool :=
  match a, b with
  | NaN, _ | _, NaN => false
  | Finite x, Finite y => Py.Qleb x y
  | Finite _, Infinity t => negb t
  | Infinity s, Finite _ => s
  | Infinity s, Infinity t => s || negb t
  end.

(** [float(n)] for an integer [n]. *)
Definition of_int (n : Z) : result float64 :=
  match rn (inject_Z n) with
  | Infinity _ => Raise (OverflowError "int too large to convert to float")
  | f => Return f
  end.

(** [int(round(x))] for a float [x]. *)
Definition to_int (x : float64) : result Z :=
  match x with
  | Finite q => Return (Py.round q)
  | Infinity _ => Raise (OverflowError "cannot convert float infinity to integer")
  | NaN => Raise (ValueError "cannot convert float NaN to integer")
  end.

End Binary64.

(** * timeutils.py in binary64 *)

Module TimeUtils64.

Import Binary64.

(** [AnnotationRecord] with its times as floats. *)
Record AnnotationRecord : Type := mkAnnotationRecord {
  label : string;
  camid : string;
  step_no : Z;
  step_name : string;
  start_frame : Z;
  end_frame : Z;
  total_frames : Z;
  start_time : float64;
  end_time : float64;
  total_time : float64;
  time_source : string;
  audio_source : string;
  confidence : Z;
  notes : string
}.

(** [dataclasses.replace(rec, start_time=.., end_time=.., total_time=..,
    start_frame=.., end_frame=.., total_frames=..)]. *)
Definition replace_times_frames (rec : AnnotationRecord)
    (st et tt : float64) (sf ef tf : Z) : AnnotationRecord :=
  {| label := label rec; camid := camid rec;
     step_no := step_no rec; step_name := step_name rec;
     start_frame := sf; end_frame := ef; total_frames := tf;
     start_time := st; end_time := et; total_time := tt;
     time_source := time_source rec; audio_source := audio_source rec;
     confidence := confidence rec; notes := notes rec |}.

Definition InvalidRange : exn := ValueError "end_time must be >= start_time".
Definition InvalidFrameRange : exn := ValueError "end_frame must be >= start_frame".

(** [if fps is None or fps <= 0: fps = 30.0]. *)
Definition default_fps (fps : option float64) : float64 :=
  match fps with
  | None => Finite 30
  | Some f => if leb f (Finite 0) then Finite 30 else f
  end.

(** [seconds_to_frames(seconds, fps)]. *)
Definition seconds_to_frames (seconds : float64) (fps : option float64) : result Z :=
  to_int (mul seconds (default_fps fps)).

(** [frames_to_seconds(frames, fps)]. *)
Definition frames_to_seconds (frames : Z) (fps : option float64) : result float64 :=
  match of_int frames with
  | Raise e => Raise e
  | Return f => div f (default_fps fps)
  end.

(** [if x < 0: x = 0.0]. *)
Definition clamp0 (x : float64) : float64 := if ltb x (Finite 0) then Finite 0 else x.

(** [if n < 0: n = 0]. *)
Definition clamp0Z (n : Z) : Z := if n <? 0 then 0 else n.

Definition recompute_from_times (rec : AnnotationRecord) (fps : option float64)
    : result AnnotationRecord :=
  let fps := Some (default_fps fps) in
  let st := clamp0 (start_time rec) in
  let et := clamp0 (end_time rec) in
  if ltb et st then Raise InvalidRange
  else
    match seconds_to_frames st fps with
    | Raise e => Raise e
    | Return sf =>
        match seconds_to_frames et fps with
        | Raise e => Raise e
        | Return ef =>
            Return (replace_times_frames rec st et (sub et st) sf ef (Z.max (ef - sf) 0))
        end
    end.

Definition recompute_from_frames (rec : AnnotationRecord) (fps : option float64)
    : result AnnotationRecord :=
  let fps := Some (default_fps fps) in
  let sf := clamp0Z (start_frame rec) in
  let ef := clamp0Z (end_frame rec) in
  if ef <? sf then Raise InvalidFrameRange
  else
    match frames_to_seconds sf fps with
    | Raise e => Raise e
    | Return st =>
        match frames_to_seconds ef fps with
        | Raise e => Raise e
        | Return et =>
            Return (replace_times_frames rec st et (sub et st) sf ef (Z.max (ef - sf) 0))
        end
    end.

End TimeUtils64.

(** * persistence.py: the notes column of the TSV file *)

Module Persistence.

Definition TAB : ascii := "009"%char.
Definition LF : ascii := "010"%char.
Definition CR : ascii := "013"%char.

(** [s.replace(c, new)] for a single character [c]. *)
Fixpoint replace_char (c : ascii) (new : string) (s : string) : string :=
  match s with
  | EmptyString => EmptyString
  | String x rest =>
      if Ascii.eqb x c then new +:+ replace_char c new rest
      else String x (replace_char c new rest)
  end.

(** [_escape_notes(notes)]. *)
Definition _escape_notes (notes : option string) : string :=
  let notes := default EmptyString notes in
  replace_char LF "\n" (replace_char TAB " " (replace_char CR EmptyString notes)).

(** [s.replace("\\n", "\n")]: every backslash followed by [n], found from
    the left, becomes a line feed. *)
Fixpoint replace_backslash_n (s : string) : string :=
  match s with
  | EmptyString => EmptyString
  | String c rest =>
      match rest with
      | String d rest' =>
          if Ascii.eqb c "\" && Ascii.eqb d "n"
          then String LF (replace_backslash_n rest')
          else String c (replace_backslash_n rest)
      | EmptyString => String c EmptyString
      end
  end.

(** [_unescape_notes(notes)]. *)
Definition _unescape_notes (notes : option string) : string :=
  match notes with
  | None => EmptyString
  | Some s => replace_backslash_n s
  end.

(** No carriage return, no tab, and no backslash followed by [n]. *)
Fixpoint plain (s : string) : bool :=
  match s with
  | EmptyString => true
  | String c rest =>
      negb (Ascii.eqb c CR) && negb (Ascii.eqb c TAB)
      && negb (Ascii.eqb c "\" && match rest with
                                  | String d _ => Ascii.eqb d "n"
                                  | EmptyString => false
                                  end)
      && plain rest
  end.

End Persistence.

(** The map in which the steps [100 .. 149] have the palette indices
    [0 .. 49] and the step [200] has the index [70]. *)
Definition full_palette_map : gmap Z Z :=
  <[200 := 70]>
    (list_to_map (map (fun j => (100 + Z.of_nat j, Z.of_nat j)) (seq 0 50))).

(** A paused, loaded player of the given duration, and a grid of three
    videos, all of them active views, with [video-3] as time and audio
    source; used in the examples below. *)
Definition sample_player (dur : Z) : VideoGrid.Player :=
  VideoGrid.mkPlayer 0 dur VideoGrid.PausedState VideoGrid.LoadedMedia 0 None.

Definition sample_grid (d1 d2 d3 : Z) : VideoGrid.t :=
  VideoGrid.mkGrid
    (<["video-1" := sample_player d1]>
       (<["video-2" := sample_player d2]> (<["video-3" := sample_player d3]> ∅)))
    (<["video-1" := false]> (<["video-2" := false]> (<["video-3" := false]> ∅)))
    ∅
    ["video-1"; "video-2"; "video-3"]%string
    (Some "video-3"%string) (Some "video-3"%string)
    false 0 false.

(** A record used in the examples below. *)
Definition sample_record (st et : Q) : AnnotationRecord :=
  {| label := "session"; camid := "video-1"; step_no := 1; step_name := "reach";
     start_frame := 0; end_frame := 0; total_frames := 0;
     start_time := st; end_time := et; total_time := 0;
     time_source := "video-1"; audio_source := "video-1";
     confidence := 5; notes := EmptyString |}.

(** A canvas and a window over the grid above, with a loaded session, one
    skill selected and the given annotations; used in the examples below. *)
Definition sample_canvas (annotations : list AnnotationRecord) : SkillTimeline.Canvas :=
  SkillTimeline.mkCanvas annotations
    (TimeUtils.compute_lanes_for_annotations annotations)
    10000 1020 0 (map Z.of_nat (seq 0 (length annotations))) None true None 0 0 None.

Definition sample_window (annotations : list AnnotationRecord) : MainWindow.t :=
  MainWindow.mkMainWindow
    (Some (mkRootConfig "root" [mkSkillStep 1 "reach"] ∅))
    (Domain.mkSessionState (Some "root"%string) (Some "session"%string)
       (Some "root/session"%string) annotations
       ["video-1"; "video-2"; "video-3"]%string
       (Some "video-3"%string) (Some "video-3"%string)
       None None None None None None)
    (Some (mkSkillStep 1 "reach"))
    false false false false false
    (sample_grid 10000 8000 12000)
    (sample_canvas annotations)
    (AnnotationsTable.mkTable annotations [mkSkillStep 1 "reach"] None)
    0 10000 [] None
    true false false false.

(** The bounds of a record in milliseconds, as the timeline takes them
    ([int(round(rec.start_time * 1000.0))] and the like). *)
Definition record_ms (rec : AnnotationRecord) : Z * Z :=
  (Py.round (start_time rec * 1000)%Q, Py.round (end_time rec * 1000)%Q).

(** The scenario of a drag of the right handle: the record [4 s .. 5 s]
    enters edit mode, the press on its right handle starts the drag, the
    pointer moves to the pixel column [x], and a press outside the block
    commits. *)
Definition drag_right_handle_to (gen : Z -> string) (x : Z)
    : MainWindow.t * list MainWindow.Effect :=
  let w := sample_window [sample_record 4 5] in
  let w := (MainWindow.timeline_event gen (SkillTimeline._enter_edit_mode 0) w).1 in
  let w := (MainWindow.timeline_event gen
              (SkillTimeline.mousePressEvent_handle SkillTimeline.right_edge) w).1 in
  let w := (MainWindow.timeline_event gen (SkillTimeline.mouseMoveEvent x) w).1 in
  MainWindow.timeline_event gen SkillTimeline.mousePressEvent_elsewhere w.

(** The colour generator used in the examples below. *)
Definition sample_generated (gen_index : Z) : string := "#00B400".

(** * Properties *)

(** ** Facts about Python's [round] *)

Section RoundFacts.

Import Py.

Lemma round_red_bounds (n : Z) (d : positive) :
  let r := match (2 * (n mod Z.pos d)) ?= Z.pos d with
           | Lt => n / Z.pos d
           | Gt => n / Z.pos d + 1
           | Eq => if Z.even (n / Z.pos d) then n / Z.pos d else n / Z.pos d + 1
           end in
  2 * Z.pos d * r - Z.pos d <= 2 * n <= 2 * Z.pos d * r + Z.pos d.
Proof.
  intros r. subst r.
  pose proof (Z.div_mod n (Z.pos d) ltac:(lia)) as Hdm.
  pose proof (Z.mod_pos_bound n (Z.pos d) ltac:(lia)) as Hb.
  destruct (Z.compare_spec (2 * (n mod Z.pos d)) (Z.pos d)) as [He|Hl|Hg].
  - destruct (Z.even (n / Z.pos d)); nia.
  - nia.
  - nia.
Qed.

Lemma round_bounds (x : Q) :
  (x - (1#2) <= inject_Z (round x) /\ inject_Z (round x) <= x + (1#2))%Q.
Proof.
  unfold round.
  pose proof (Qred_correct x) as Hx.
  destruct (Qred x) as [n d] eqn:Hr. cbn [Qnum Qden].
  pose proof (round_red_bounds n d) as Hb. cbv zeta in Hb.
  set (r := match (2 * (n mod Z.pos d)) ?= Z.pos d with
            | Lt => n / Z.pos d | Gt => n / Z.pos d + 1
            | Eq => if Z.even (n / Z.pos d) then n / Z.pos d else n / Z.pos d + 1
            end) in *.
  rewrite <- Hx. unfold Qle, Qminus, Qplus, Qopp, inject_Z. cbn.
  split; nia.
Qed.

Lemma round_proper (x y : Q) : (x == y)%Q -> round x = round y.
Proof.
  intros H. unfold round. rewrite (Qred_complete x y H). reflexivity.
Qed.

Lemma round_mono (x y : Q) : (x <= y)%Q -> round x <= round y.
Proof.
  intros H. destruct (Qle_lt_or_eq _ _ H) as [Hlt|Heq].
  - pose proof (round_bounds x) as [_ Hx].
    pose proof (round_bounds y) as [Hy _].
    assert (Hs : (inject_Z (round x) < inject_Z (round y) + 1)%Q) by lra.
    assert (Hz : (inject_Z (round x) < inject_Z (round y + 1))%Q).
    { rewrite inject_Z_plus. exact Hs. }
    rewrite <- Zlt_Qlt in Hz. lia.
  - rewrite (round_proper x y Heq). lia.
Qed.

Lemma round_inject_Z (n : Z) : round (inject_Z n) = n.
Proof.
  pose proof (round_bounds (inject_Z n)) as [H1 H2].
  assert (Ha : (inject_Z (round (inject_Z n)) < inject_Z (n + 1))%Q).
  { rewrite inject_Z_plus. change (inject_Z 1) with 1%Q. lra. }
  assert (Hb : (inject_Z n < inject_Z (round (inject_Z n) + 1))%Q).
  { rewrite inject_Z_plus. change (inject_Z 1) with 1%Q. lra. }
  rewrite <- Zlt_Qlt in Ha, Hb.
  lia.
Qed.


End RoundFacts.

(** ** timeutils.py: recomputation from times and from frames *)

Section Recompute.

Import Py TimeUtils.

Lemma Qltb_lt (a b : Q) : Qltb a b = true <-> (a < b)%Q.
Proof.
  unfold Qltb. rewrite negb_true_iff. split.
  - intros H. apply Qnot_le_lt. intros Hle.
    apply Qle_bool_iff in Hle. congruence.
  - intros H. destruct (Qle_bool b a) eqn:E; [|reflexivity].
    apply Qle_bool_iff in E. lra.
Qed.

Lemma Qltb_ge (a b : Q) : Qltb a b = false <-> (b <= a)%Q.
Proof.
  unfold Qltb. rewrite negb_false_iff. apply Qle_bool_iff.
Qed.
















End Recompute.

(** ** timeutils.py: lane stacking *)

Section Lanes.

Import TimeUtils.

Lemma normalize_wf (b : Block) : wf (normalize b).
Proof.
  unfold wf, normalize. destruct (Z.ltb_spec (end_ms b) (start_ms b)); cbn; lia.
Qed.


Lemma normalize_wf_id (b : Block) : wf b -> normalize b = b.
Proof.
  unfold wf, normalize. intros H. destruct (Z.ltb_spec (end_ms b) (start_ms b)); [lia|].
  destruct b; reflexivity.
Qed.

Lemma insert_sorted_perm (x : Block) (l : list Block) :
  Permutation (insert_sorted x l) (x :: l).
Proof.
  induction l as [|y l IH]; cbn; [reflexivity|].
  destruct (key_leb _ _); [reflexivity|].
  rewrite IH. apply perm_swap.
Qed.

Lemma sort_blocks_perm (l : list Block) : Permutation (sort_blocks l) l.
Proof.
  induction l as [|x l IH]; cbn; [reflexivity|].
  rewrite insert_sorted_perm, IH. reflexivity.
Qed.

Lemma before_last (lane : list Block) (x b : Block) :
  lane_ok lane -> last lane = Some x -> before x b -> Forall (fun a => before a b) lane.
Proof.
  intros [Hwf Hs] Hlast Hxb.
  apply last_Some in Hlast as [l' ->].
  apply Forall_app in Hwf as [_ Hwfx].
  apply Forall_app. split; [|constructor; [exact Hxb|constructor]].
  apply Forall_forall. intros a Ha.
  assert (Hax : before a x).
  { clear -Hs Ha. induction l' as [|y l' IH]; [inversion Ha|].
    cbn in Hs. apply StronglySorted_inv in Hs as [Hs Hall].
    apply elem_of_cons in Ha as [->|Ha]; [|auto].
    rewrite Forall_app in Hall. destruct Hall as [_ Hall].
    inversion Hall; assumption. }
  inversion Hwfx as [|? ? Hx _]; subst.
  unfold before, wf in *. lia.
Qed.

Lemma lane_ok_snoc (lane : list Block) (x b : Block) :
  lane_ok lane -> wf b -> last lane = Some x -> before x b -> lane_ok (lane ++ [b]).
Proof.
  intros Hok Hb Hlast Hxb.
  pose proof (before_last lane x b Hok Hlast Hxb) as Hall.
  destruct Hok as [Hwf Hs]. split.
  - apply Forall_app. split; [exact Hwf|]. constructor; [exact Hb|constructor].
  - clear Hlast Hxb Hwf. induction lane as [|y lane IH]; cbn.
    + constructor; constructor.
    + apply StronglySorted_inv in Hs as [Hs Hy].
      inversion Hall as [|? ? Hyb Hall']; subst.
      constructor; [apply IH; assumption|].
      apply Forall_app. split; [exact Hy|]. constructor; [exact Hyb|constructor].
Qed.

Lemma place_ok (b : Block) (lanes : list (list Block)) :
  wf b -> Forall lane_ok lanes -> Forall lane_ok (place b lanes).
Proof.
  intros Hb. induction lanes as [|lane rest IH]; intros Hok; cbn.
  - constructor; [|constructor]. split.
    + constructor; [exact Hb|constructor].
    + constructor; constructor.
  - inversion Hok as [|? ? Hlane Hrest]; subst.
    destruct (last lane) as [x|] eqn:Hlast.
    + destruct (Z.leb_spec (end_ms x) (start_ms b)).
      * constructor; [|exact Hrest]. eapply lane_ok_snoc; eauto.
      * constructor; auto.
    + constructor; auto.
Qed.

Lemma place_perm (b : Block) (lanes : list (list Block)) :
  Permutation (concat (place b lanes)) (b :: concat lanes).
Proof.
  induction lanes as [|lane rest IH]; cbn; [reflexivity|].
  assert (Hskip : Permutation (lane ++ concat (place b rest)) (b :: lane ++ concat rest)).
  { rewrite IH. symmetry. apply Permutation_middle. }
  destruct (last lane) as [x|]; [|exact Hskip].
  destruct (_ <=? _); [|exact Hskip].
  cbn. rewrite <- app_assoc. cbn. symmetry. apply Permutation_middle.
Qed.

Lemma place_all_from (norm : list Block) (lanes : list (list Block)) :
  Forall wf norm -> Forall lane_ok lanes ->
  Forall lane_ok (fold_left (fun lanes b => place b lanes) norm lanes) /\
  Permutation (concat (fold_left (fun lanes b => place b lanes) norm lanes))
              (concat lanes ++ norm).
Proof.
  revert lanes. induction norm as [|b norm IH]; intros lanes Hwf Hok; cbn.
  - rewrite app_nil_r. split; [exact Hok|reflexivity].
  - inversion Hwf as [|? ? Hb Hwf']; subst.
    destruct (IH (place b lanes) Hwf' (place_ok b lanes Hb Hok)) as [H1 H2].
    split; [exact H1|]. rewrite H2, place_perm. apply Permutation_middle.
Qed.

Lemma stack_lanes_ok (blocks : list Block) :
  Forall lane_ok (stack_blocks_into_lanes blocks) /\
  Permutation (concat (stack_blocks_into_lanes blocks)) (map normalize blocks).
Proof.
  unfold stack_blocks_into_lanes. destruct blocks as [|b0 blocks].
  - split; [constructor|reflexivity].
  - set (l := b0 :: blocks).
    assert (Hwf : Forall wf (sort_blocks (map normalize l))).
    { rewrite sort_blocks_perm. apply Forall_forall. intros b Hb.
      apply list_elem_of_fmap in Hb as [b' [-> _]]. apply normalize_wf. }
    destruct (place_all_from _ [] Hwf ltac:(constructor)) as [H1 H2].
    split; [exact H1|]. unfold place_all. rewrite H2. cbn [concat app].
    apply sort_blocks_perm.
Qed.

Lemma lane_ok_lookup (lane : list Block) (i j : nat) (a b : Block) :
  lane_ok lane -> (i < j)%nat -> lane !! i = Some a -> lane !! j = Some b -> before a b.
Proof.
  intros [_ Hs]. revert i j. induction Hs as [|x l Hs IH Hx]; intros i j Hij Hi Hj.
  - rewrite lookup_nil in Hi. discriminate.
  - destruct j as [|j]; [lia|]. cbn in Hj. destruct i as [|i].
    + cbn in Hi. injection Hi as ->. rewrite Forall_forall in Hx.
      apply Hx. eapply list_elem_of_lookup_2. exact Hj.
    + cbn in Hi. apply (IH i j); [lia|assumption|assumption].
Qed.

Lemma key_leb_spec (a b : Block) :
  key_leb (sort_key a) (sort_key b) = true <->
  start_ms a < start_ms b \/
  (start_ms a = start_ms b /\ end_ms a - start_ms a <= end_ms b - start_ms b).
Proof.
  unfold key_leb, sort_key. cbn.
  rewrite orb_true_iff, andb_true_iff, Z.ltb_lt, Z.eqb_eq, Z.leb_le. reflexivity.
Qed.

Lemma stack_two_touching (x y : Block) :
  wf x -> wf y -> end_ms x = start_ms y ->
  (place_all (sort_blocks [x; y]) = [[x; y]]) /\
  (place_all (sort_blocks [y; x]) = [[x; y]] \/
   place_all (sort_blocks [y; x]) = [[y; x]]).
Proof.
  unfold wf. intros Hx Hy Hxy. cbn. split.
  - destruct (key_leb (sort_key x) (sort_key y)) eqn:E; cbn.
    + destruct (Z.leb_spec (end_ms x) (start_ms y)); [reflexivity|lia].
    + assert (Hk : ~ (start_ms x < start_ms y \/
        (start_ms x = start_ms y /\ end_ms x - start_ms x <= end_ms y - start_ms y))).
      { rewrite <- key_leb_spec. congruence. }
      lia.
  - destruct (key_leb (sort_key y) (sort_key x)) eqn:E; cbn.
    + apply key_leb_spec in E.
      destruct (Z.leb_spec (end_ms y) (start_ms x)); [right; reflexivity|lia].
    + destruct (Z.leb_spec (end_ms x) (start_ms y)); [left; reflexivity|lia].
Qed.

(** C2 (as amended).  The lanes hold exactly the normalised input blocks;
    no two blocks at different places of one lane genuinely overlap; and an
    input of exactly two blocks whose normalised bounds touch ([a] ends
    where [b] starts) is stacked into a single lane holding both. *)
Theorem lanes_disjoint_touching_shared (blocks : list Block) :
  Permutation (concat (stack_blocks_into_lanes blocks)) (map normalize blocks) /\
  (forall lane i j a b,
     lane ∈ stack_blocks_into_lanes blocks -> i <> j ->
     lane !! i = Some a -> lane !! j = Some b -> ~ overlap a b) /\
  (forall a b,
     blocks = [a; b] \/ blocks = [b; a] ->
     end_ms (normalize a) = start_ms (normalize b) ->
     stack_blocks_into_lanes blocks = [[normalize a; normalize b]] \/
     stack_blocks_into_lanes blocks = [[normalize b; normalize a]]).
Proof.
  destruct (stack_lanes_ok blocks) as [Hok Hperm].
  split; [exact Hperm|]. split.
  - intros lane i j a b Hlane Hij Hi Hj [Ho1 Ho2].
    rewrite Forall_forall in Hok. specialize (Hok lane Hlane).
    destruct (Nat.lt_total i j) as [Hlt|[Heq|Hgt]]; [|contradiction|].
    + pose proof (lane_ok_lookup lane i j a b Hok Hlt Hi Hj) as Hb.
      unfold before in Hb. lia.
    + pose proof (lane_ok_lookup lane j i b a Hok Hgt Hj Hi) as Hb.
      unfold before in Hb. lia.
  - intros a b Hbl Htouch.
    destruct (stack_two_touching (normalize a) (normalize b)
                (normalize_wf a) (normalize_wf b) Htouch) as [H1 H2].
    destruct Hbl as [-> | ->]; unfold stack_blocks_into_lanes; cbn [map].
    + left. exact H1.
    + exact H2.
Qed.

Lemma lanes_disjoint_touching_shared_witness :
  stack_blocks_into_lanes [mkBlock 0 0 10; mkBlock 1 10 20]
  = [[mkBlock 0 0 10; mkBlock 1 10 20]] \/
  stack_blocks_into_lanes [mkBlock 0 0 10; mkBlock 1 10 20]
  = [[mkBlock 1 10 20; mkBlock 0 0 10]].
Proof.
  pose proof (lanes_disjoint_touching_shared [mkBlock 0 0 10; mkBlock 1 10 20])
    as (_ & _ & H).
  apply (H (mkBlock 0 0 10) (mkBlock 1 10 20)); [left|]; reflexivity.
Defined.

(** C2, counterexample to the claim as stated: the block [a] is given with
    its bounds inverted and [a.end_ms = b.start_ms]; after normalisation the
    two blocks overlap and are put in different lanes. *)
Lemma touching_inverted_blocks_split :
  let a := mkBlock 0 10 5 in
  let b := mkBlock 1 5 20 in
  end_ms a = start_ms b /\
  stack_blocks_into_lanes [a; b] = [[mkBlock 0 5 10]; [mkBlock 1 5 20]] /\
  lane_of (stack_blocks_into_lanes [a; b]) (idx a) = Some 0 /\
  lane_of (stack_blocks_into_lanes [a; b]) (idx b) = Some 1.
Proof. repeat split. Qed.

(** *** Order of the input *)

Lemma key_le_iff (k1 k2 : Z * Z) :
  key_le k1 k2 <-> k1.1 < k2.1 \/ (k1.1 = k2.1 /\ k1.2 <= k2.2).
Proof.
  unfold key_le, key_leb.
  rewrite orb_true_iff, andb_true_iff, Z.ltb_lt, Z.eqb_eq, Z.leb_le. reflexivity.
Qed.

Lemma key_le_total (k1 k2 : Z * Z) : key_le k1 k2 \/ key_le k2 k1.
Proof. rewrite !key_le_iff. lia. Qed.

Lemma key_le_trans (k1 k2 k3 : Z * Z) : key_le k1 k2 -> key_le k2 k3 -> key_le k1 k3.
Proof. rewrite !key_le_iff. lia. Qed.

Lemma key_le_antisym (k1 k2 : Z * Z) : key_le k1 k2 -> key_le k2 k1 -> k1 = k2.
Proof.
  rewrite !key_le_iff. destruct k1 as [a1 b1], k2 as [a2 b2]. cbn.
  intros H1 H2. f_equal; lia.
Qed.

Lemma insert_sorted_keys (x : Block) (l : list Block) :
  StronglySorted key_le (map sort_key l) ->
  StronglySorted key_le (map sort_key (insert_sorted x l)).
Proof.
  induction l as [|y l IH]; intros Hs; cbn.
  - constructor; constructor.
  - destruct (key_leb (sort_key x) (sort_key y)) eqn:E; cbn.
    + constructor; [exact Hs|]. cbn in Hs.
      apply StronglySorted_inv in Hs as [_ Hy].
      constructor; [exact E|].
      eapply Forall_impl; [exact Hy|]. intros k Hk. eapply key_le_trans; eauto.
    + cbn in Hs. apply StronglySorted_inv in Hs as [Hs Hy].
      constructor; [apply IH; exact Hs|].
      assert (Hyx : key_le (sort_key y) (sort_key x)).
      { destruct (key_le_total (sort_key x) (sort_key y)) as [H|H];
          [unfold key_le in H; congruence|exact H]. }
      eapply Permutation_Forall.
      { symmetry. apply Permutation_map. apply insert_sorted_perm. }
      cbn. constructor; assumption.
Qed.

Lemma sort_blocks_keys (l : list Block) :
  StronglySorted key_le (map sort_key (sort_blocks l)).
Proof.
  induction l as [|x l IH]; cbn; [constructor|].
  apply insert_sorted_keys. exact IH.
Qed.

Lemma sorted_keys_unique (ks1 ks2 : list (Z * Z)) :
  StronglySorted key_le ks1 -> StronglySorted key_le ks2 ->
  Permutation ks1 ks2 -> ks1 = ks2.
Proof.
  revert ks2. induction ks1 as [|x xs IH]; intros ks2 H1 H2 Hp.
  - apply Permutation_nil in Hp. congruence.
  - destruct ks2 as [|y ys].
    { symmetry in Hp. apply Permutation_nil in Hp. discriminate. }
    apply StronglySorted_inv in H1 as [H1 Hx].
    apply StronglySorted_inv in H2 as [H2 Hy].
    rewrite Forall_forall in Hx, Hy.
    assert (Hxy : x = y).
    { assert (Hxin : x ∈ y :: ys) by (rewrite <- Hp; left).
      assert (Hyin : y ∈ x :: xs) by (rewrite Hp; left).
      apply elem_of_cons in Hxin as [Hxin|Hxin]; [exact Hxin|].
      apply elem_of_cons in Hyin as [Hyin|Hyin]; [congruence|].
      apply key_le_antisym; auto. }
    subst y. f_equal. apply IH; [assumption|assumption|].
    eapply Permutation_cons_inv. exact Hp.
Qed.

Lemma cons_eq_inv {A : Type} (x y : A) (l k : list A) :
  x :: l = y :: k -> x = y /\ l = k.
Proof. intros H. split; congruence. Qed.

Lemma bounds_of_key (a b : Block) : sort_key a = sort_key b -> bounds a = bounds b.
Proof.
  unfold sort_key, bounds. intros [= H1 H2]. f_equal; lia.
Qed.

Lemma bounds_of_keys (l1 l2 : list Block) :
  map sort_key l1 = map sort_key l2 -> map bounds l1 = map bounds l2.
Proof.
  revert l2. induction l1 as [|a l1 IH]; intros [|b l2] H; try discriminate; [reflexivity|].
  cbn [map] in *.
  assert (Hk : sort_key a = sort_key b) by congruence.
  assert (Ht : map sort_key l1 = map sort_key l2) by congruence.
  f_equal; [apply bounds_of_key; exact Hk|auto].
Qed.

Lemma last_bounds (l1 l2 : list Block) :
  map bounds l1 = map bounds l2 ->
  match last l1, last l2 with
  | Some x, Some y => bounds x = bounds y
  | None, None => True
  | _, _ => False
  end.
Proof.
  revert l2. induction l1 as [|a l1 IH]; intros [|b l2] H; try discriminate; [exact I|].
  cbn [map] in H. apply cons_eq_inv in H as [Hab Ht]. specialize (IH l2 Ht).
  destruct l1 as [|a' l1], l2 as [|b' l2]; try discriminate; [exact Hab|exact IH].
Qed.

Lemma place_bounds (b1 b2 : Block) (L1 L2 : list (list Block)) :
  bounds b1 = bounds b2 ->
  map (map bounds) L1 = map (map bounds) L2 ->
  map (map bounds) (place b1 L1) = map (map bounds) (place b2 L2).
Proof.
  intros Hb. revert L2. induction L1 as [|lane1 L1 IH]; intros [|lane2 L2] HL;
    try discriminate; cbn.
  - rewrite Hb. reflexivity.
  - cbn [map] in HL. apply cons_eq_inv in HL as [Hlane HL].
    pose proof (last_bounds lane1 lane2 Hlane) as Hlast.
    assert (Hskip : map bounds lane1 :: map (map bounds) (place b1 L1) =
                    map bounds lane2 :: map (map bounds) (place b2 L2)).
    { f_equal; [exact Hlane|apply IH; exact HL]. }
    destruct (last lane1) as [x|], (last lane2) as [y|]; try contradiction;
      [|exact Hskip].
    assert (Hs : start_ms b1 = start_ms b2) by (apply (f_equal fst) in Hb; exact Hb).
    assert (He : end_ms x = end_ms y) by (apply (f_equal snd) in Hlast; exact Hlast).
    rewrite He, Hs. destruct (_ <=? _); [|exact Hskip].
    cbn [map]. rewrite !map_app. cbn [map]. rewrite Hlane, Hb, HL. reflexivity.
Qed.

Lemma fold_place_bounds (l1 l2 : list Block) (L1 L2 : list (list Block)) :
  map bounds l1 = map bounds l2 ->
  map (map bounds) L1 = map (map bounds) L2 ->
  map (map bounds) (fold_left (fun lanes b => place b lanes) l1 L1) =
  map (map bounds) (fold_left (fun lanes b => place b lanes) l2 L2).
Proof.
  revert l2 L1 L2. induction l1 as [|a l1 IH]; intros [|b l2] L1 L2 H HL;
    try discriminate; cbn; [exact HL|].
  cbn [map] in H. apply cons_eq_inv in H as [Hab Ht].
  apply IH; [exact Ht|]. apply place_bounds; assumption.
Qed.

Lemma place_all_bounds (l1 l2 : list Block) :
  map bounds l1 = map bounds l2 ->
  map (map bounds) (place_all l1) = map (map bounds) (place_all l2).
Proof. intros H. apply fold_place_bounds; [exact H|reflexivity]. Qed.

Lemma sort_blocks_keys_perm (l1 l2 : list Block) :
  Permutation l1 l2 ->
  map sort_key (sort_blocks l1) = map sort_key (sort_blocks l2).
Proof.
  intros Hp. apply sorted_keys_unique; try apply sort_blocks_keys.
  apply Permutation_map. rewrite !sort_blocks_perm. exact Hp.
Qed.

Lemma same_keys_same_blocks (xs ys : list Block) :
  map sort_key xs = map sort_key ys -> Permutation xs ys ->
  NoDup (map sort_key xs) -> xs = ys.
Proof.
  revert ys. induction xs as [|x xs IH]; intros [|y ys] Hk Hp Hnd;
    try discriminate; [reflexivity|].
  cbn [map] in Hk, Hnd. apply cons_eq_inv in Hk as [Hxy Hk].
  apply NoDup_cons in Hnd as [Hnotin Hnd].
  assert (Heq : x = y).
  { assert (Hyin : y ∈ x :: xs) by (rewrite Hp; left).
    apply elem_of_cons in Hyin as [Hyin|Hyin]; [congruence|].
    exfalso. apply Hnotin. rewrite Hxy.
    apply list_elem_of_fmap. exists y. split; [reflexivity|exact Hyin]. }
  subst y. f_equal. apply IH; [exact Hk| |exact Hnd].
  eapply Permutation_cons_inv. exact Hp.
Qed.

Lemma key_eqb_eq (k1 k2 : Z * Z) : key_eqb k1 k2 = true <-> k1 = k2.
Proof.
  unfold key_eqb. rewrite andb_true_iff, !Z.eqb_eq.
  destruct k1, k2; cbn. split; [intros [-> ->]; reflexivity|intros [= -> ->]; auto].
Qed.

Lemma key_leb_refl (k : Z * Z) : key_leb k k = true.
Proof. apply key_le_iff. lia. Qed.

Lemma with_key_cons (k : Z * Z) (x : Block) (l : list Block) :
  with_key k (x :: l) =
  if key_eqb (sort_key x) k then x :: with_key k l else with_key k l.
Proof. reflexivity. Qed.

(** The insertion keeps the order of the blocks of every key. *)
Lemma insert_sorted_with_key (k : Z * Z) (x : Block) (l : list Block) :
  with_key k (insert_sorted x l) = with_key k (x :: l).
Proof.
  induction l as [|y l IH]; [reflexivity|]. cbn [insert_sorted].
  destruct (key_leb (sort_key x) (sort_key y)) eqn:E; [reflexivity|].
  rewrite (with_key_cons k y), IH, !with_key_cons.
  destruct (key_eqb (sort_key x) k) eqn:Ex, (key_eqb (sort_key y) k) eqn:Ey;
    try reflexivity.
  apply key_eqb_eq in Ex, Ey. rewrite Ex, Ey, key_leb_refl in E. discriminate.
Qed.

(** The sort is stable: the blocks of every key keep their order. *)
Lemma sort_blocks_with_key (k : Z * Z) (l : list Block) :
  with_key k (sort_blocks l) = with_key k l.
Proof.
  induction l as [|x l IH]; [reflexivity|]. cbn [sort_blocks].
  rewrite insert_sorted_with_key, !with_key_cons, IH. reflexivity.
Qed.

Lemma with_key_In (k : Z * Z) (x : Block) (l : list Block) :
  In x (with_key k l) <-> In x l /\ sort_key x = k.
Proof. unfold with_key. rewrite filter_In, key_eqb_eq. reflexivity. Qed.

(** A list sorted by key is determined by the lists of its blocks of each
    key. *)
Lemma sorted_by_key_determined (s1 s2 : list Block) :
  StronglySorted key_le (map sort_key s1) ->
  StronglySorted key_le (map sort_key s2) ->
  (forall k, with_key k s1 = with_key k s2) -> s1 = s2.
Proof.
  revert s2. induction s1 as [|x s1 IH]; intros s2 H1 H2 Hk.
  - destruct s2 as [|y s2]; [reflexivity|].
    specialize (Hk (sort_key y)). rewrite with_key_cons in Hk.
    assert (E : key_eqb (sort_key y) (sort_key y) = true) by (apply key_eqb_eq; reflexivity).
    rewrite E in Hk. discriminate.
  - destruct s2 as [|y s2].
    { specialize (Hk (sort_key x)). rewrite with_key_cons in Hk.
      assert (E : key_eqb (sort_key x) (sort_key x) = true)
        by (apply key_eqb_eq; reflexivity).
      rewrite E in Hk. discriminate. }
    cbn [map] in H1, H2.
    apply StronglySorted_inv in H1 as [H1 Hx].
    apply StronglySorted_inv in H2 as [H2 Hy].
    rewrite Forall_forall in Hx, Hy.
    assert (Exx : key_eqb (sort_key x) (sort_key x) = true)
      by (apply key_eqb_eq; reflexivity).
    assert (Eyy : key_eqb (sort_key y) (sort_key y) = true)
      by (apply key_eqb_eq; reflexivity).
    assert (Hxin : In x (y :: s2)).
    { apply (proj1 (with_key_In (sort_key x) x (y :: s2))).
      rewrite <- Hk, with_key_cons, Exx. left. reflexivity. }
    assert (Hyin : In y (x :: s1)).
    { apply (proj1 (with_key_In (sort_key y) y (x :: s1))).
      rewrite Hk, with_key_cons, Eyy. left. reflexivity. }
    assert (Hkey : sort_key x = sort_key y).
    { destruct Hxin as [->|Hxin]; [reflexivity|].
      destruct Hyin as [->|Hyin]; [reflexivity|].
      apply key_le_antisym.
      - apply Hx, list_elem_of_In, in_map, Hyin.
      - apply Hy, list_elem_of_In, in_map, Hxin. }
    assert (Hxy : x = y).
    { pose proof (Hk (sort_key x)) as Hh. rewrite !with_key_cons in Hh.
      rewrite Exx in Hh. rewrite <- Hkey, Exx in Hh. congruence. }
    subst y. f_equal. apply IH; [exact H1|exact H2|].
    intros k. specialize (Hk k). rewrite !with_key_cons in Hk.
    destruct (key_eqb (sort_key x) k); congruence.
Qed.

Lemma same_order_same_sort (l1 l2 : list Block) :
  same_order_of_equal_keys l1 l2 ->
  sort_blocks (map normalize l1) = sort_blocks (map normalize l2).
Proof.
  intros H. apply sorted_by_key_determined; try apply sort_blocks_keys.
  intros k. rewrite !sort_blocks_with_key. apply H.
Qed.

(** C3 (as amended).  On a permutation of the input the lanes have the same
    shape and hold the same bounds at the same places.  The lanes
    themselves, and with them the lane of every index, are identical for
    two inputs that list the blocks of every normalised sort key
    [(start_ms, end_ms - start_ms)] in the same order, in particular for a
    permutation of an input in which no two blocks share their key.  The
    sort is stable: it keeps the order of the blocks of each key. *)
Theorem stack_order_of_input (l1 l2 : list Block) :
  Permutation l1 l2 ->
  map (map bounds) (stack_blocks_into_lanes l1) =
  map (map bounds) (stack_blocks_into_lanes l2) /\
  (same_order_of_equal_keys l1 l2 ->
   stack_blocks_into_lanes l1 = stack_blocks_into_lanes l2 /\
   forall i, lane_of (stack_blocks_into_lanes l1) i =
             lane_of (stack_blocks_into_lanes l2) i) /\
  (NoDup (map (fun b => sort_key (normalize b)) l1) ->
   stack_blocks_into_lanes l1 = stack_blocks_into_lanes l2 /\
   forall i, lane_of (stack_blocks_into_lanes l1) i =
             lane_of (stack_blocks_into_lanes l2) i) /\
  (forall k, with_key k (sort_blocks (map normalize l1)) = with_key k (map normalize l1)).
Proof.
  intros Hp.
  assert (Hn : Permutation (map normalize l1) (map normalize l2))
    by (apply Permutation_map; exact Hp).
  pose proof (sort_blocks_keys_perm _ _ Hn) as Hkeys.
  assert (Hstack : sort_blocks (map normalize l1) = sort_blocks (map normalize l2) ->
                   stack_blocks_into_lanes l1 = stack_blocks_into_lanes l2).
  { intros Hs. unfold stack_blocks_into_lanes.
    destruct l1 as [|a l1], l2 as [|b l2]; [reflexivity| | |].
    - apply Permutation_nil in Hp. discriminate.
    - symmetry in Hp. apply Permutation_nil in Hp. discriminate.
    - rewrite Hs. reflexivity. }
  split; [|split; [|split]].
  - unfold stack_blocks_into_lanes.
    destruct l1 as [|a l1], l2 as [|b l2]; [reflexivity| | |].
    + apply Permutation_nil in Hp. discriminate.
    + symmetry in Hp. apply Permutation_nil in Hp. discriminate.
    + apply place_all_bounds, bounds_of_keys. exact Hkeys.
  - intros Hsame.
    pose proof (Hstack (same_order_same_sort l1 l2 Hsame)) as He.
    split; [exact He|]. intros i. rewrite He. reflexivity.
  - intros Hnd.
    assert (Hs : sort_blocks (map normalize l1) = sort_blocks (map normalize l2)).
    { apply same_keys_same_blocks; [exact Hkeys| |].
      - rewrite !sort_blocks_perm. exact Hn.
      - assert (Hk : Permutation (map sort_key (sort_blocks (map normalize l1)))
                                 (map (fun b => sort_key (normalize b)) l1)).
        { rewrite <- (List.map_map normalize sort_key l1).
          apply Permutation_map, sort_blocks_perm. }
        rewrite Hk. exact Hnd. }
    pose proof (Hstack Hs) as He.
    split; [exact He|]. intros i. rewrite He. reflexivity.
  - intros k. apply sort_blocks_with_key.
Qed.

Lemma stack_order_of_input_witness :
  stack_blocks_into_lanes [mkBlock 0 0 10; mkBlock 1 0 10; mkBlock 2 5 20] =
  stack_blocks_into_lanes [mkBlock 2 5 20; mkBlock 0 0 10; mkBlock 1 0 10].
Proof.
  pose proof (stack_order_of_input
                [mkBlock 0 0 10; mkBlock 1 0 10; mkBlock 2 5 20]
                [mkBlock 2 5 20; mkBlock 0 0 10; mkBlock 1 0 10]) as H.
  destruct H as (_ & H & _).
  - change (Permutation ([mkBlock 0 0 10; mkBlock 1 0 10] ++ [mkBlock 2 5 20])
                        (mkBlock 2 5 20 :: [mkBlock 0 0 10; mkBlock 1 0 10] ++ [])).
    apply Permutation_sym, Permutation_middle.
  - destruct H as [He _]; [|exact He].
    intros k. unfold with_key, sort_key. cbn.
    change (10 - 0) with 10. change (20 - 5) with 15.
    destruct (key_eqb (0, 10) k) eqn:E1, (key_eqb (5, 15) k) eqn:E2; try reflexivity.
    apply key_eqb_eq in E1, E2. congruence.
Defined.

(** C3, counterexample to the claim as stated: two blocks with the same
    bounds and different indices; exchanging them in the input exchanges
    their lanes. *)
Lemma stack_depends_on_input_order :
  let a := mkBlock 0 0 10 in
  let b := mkBlock 1 0 10 in
  Permutation [a; b] [b; a] /\
  lane_of (stack_blocks_into_lanes [a; b]) 0 = Some 0 /\
  lane_of (stack_blocks_into_lanes [b; a]) 0 = Some 1 /\
  stack_blocks_into_lanes [a; b] <> stack_blocks_into_lanes [b; a].
Proof.
  cbv zeta. split; [apply perm_swap|].
  split; [reflexivity|]. split; [reflexivity|]. discriminate.
Qed.

End Lanes.

(** ** domain.py: colour assignment *)

Section ColorFacts.

Import Colors.

Variable gen : Z -> string.

Lemma palette_n_50 : palette_n = 50.
Proof. reflexivity. Qed.












(** C10.  Without a configuration the colour is
    [SKILL_COLOR_PALETTE_50[step_no % 50]] and nothing is recorded; two
    steps congruent modulo 50 get the same colour (such as [1] and [51]);
    and the colour of a step can differ from the one it gets with a
    configuration (step [1] with an empty map gets the first palette
    colour). *)
Theorem color_without_config (step : Z) :
  get_skill_color_hex gen (Some step) None = (palette_at (step mod 50), None) /\
  (forall step', step mod 50 = step' mod 50 ->
     (get_skill_color_hex gen (Some step') None).1 =
     (get_skill_color_hex gen (Some step) None).1) /\
  (get_skill_color_hex gen (Some 1) None).1 =
  (get_skill_color_hex gen (Some 51) None).1 /\
  (get_skill_color_hex gen (Some 1) None).1 <>
  (get_skill_color_hex gen (Some 1) (Some (mkRootConfig "root" [] ∅))).1.
Proof.
  split; [reflexivity|]. split; [|split].
  - intros step' H. cbn [get_skill_color_hex fst]. rewrite palette_n_50, H. reflexivity.
  - reflexivity.
  - vm_compute. discriminate.
Qed.

End ColorFacts.


(** C7, counterexample to the claim as stated: with the fifty palette
    indices and the index 70 in use, a new step is given the index 71,
    although no step has the index 50: the index given is not the lowest
    index that the map does not use. *)
Lemma exhausted_palette_skips_free_index :
  let gen := fun _ : Z => "#00B400"%string in
  let cfg := mkRootConfig "root" [] full_palette_map in
  full_palette_map !! 4 = None /\
  (forall k, full_palette_map !! k <> Some 50) /\
  exists cfg',
    (Colors.get_skill_color_hex gen (Some 4) (Some cfg)).2 = Some cfg' /\
    skill_color_map cfg' !! 4 = Some 71.
Proof.
  intros gen cfg. split; [vm_compute; reflexivity|]. split.
  - intros k Hk.
    assert (Hall : map_Forall (fun _ v => v <> 50) full_palette_map).
    { apply (bool_decide_unpack _). vm_compute. exact I. }
    exact (Hall k 50 Hk eq_refl).
  - eexists. split; [vm_compute; reflexivity|]. vm_compute. reflexivity.
Qed.

Lemma color_without_config_witness :
  let gen := fun _ : Z => "#00B400"%string in
  (Colors.get_skill_color_hex gen (Some 57) None).1 =
  (Colors.get_skill_color_hex gen (Some 7) None).1.
Proof.
  intros gen.
  pose proof (color_without_config gen 7) as (_ & H & _).
  apply H. reflexivity.
Defined.


(** ** widgets/video_grid.py: the black-placeholder rule *)

Section Grid.

Import VideoGrid.

Lemma refreshed_idem (g : t) (pos : Z) (vid : string) (c : option bool) :
  refreshed g pos vid (refreshed g pos vid c) = refreshed g pos vid c.
Proof.
  unfold refreshed. destruct c as [c|]; [|reflexivity].
  destruct (_players g !! vid); reflexivity.
Qed.

Lemma update_black_cell_lookup (g : t) (pos : Z) (cells : gmap string bool)
    (x vid : string) :
  update_black_cell g pos cells x !! vid =
  if decide (x = vid) then refreshed g pos vid (cells !! vid) else cells !! vid.
Proof.
  unfold update_black_cell, refreshed.
  destruct (decide (x = vid)) as [->|Hne].
  - destruct (cells !! vid) as [c|] eqn:Hc; [|exact Hc].
    destruct (_players g !! vid) as [p|]; [apply lookup_insert_eq|exact Hc].
  - destruct (cells !! x) as [c|]; [|reflexivity].
    destruct (_players g !! x) as [p|]; [|reflexivity].
    apply lookup_insert_ne. exact Hne.
Qed.

Lemma fold_update_lookup (g : t) (pos : Z) (ids : list string)
    (cells : gmap string bool) (vid : string) :
  fold_left (update_black_cell g pos) ids cells !! vid =
  if decide (vid ∈ ids) then refreshed g pos vid (cells !! vid) else cells !! vid.
Proof.
  revert cells. induction ids as [|x ids IH]; intros cells; cbn [fold_left].
  - destruct (decide (vid ∈ [])) as [Hin|_]; [inversion Hin|reflexivity].
  - rewrite IH, update_black_cell_lookup.
    destruct (decide (vid ∈ ids)) as [Hin|Hnin];
      destruct (decide (x = vid)) as [->|Hne];
      destruct (decide (vid ∈ _ :: ids)) as [Hc|Hc];
      rewrite ?refreshed_idem; try reflexivity.
    + exfalso. apply Hc. right. exact Hin.
    + exfalso. apply Hc. right. exact Hin.
    + exfalso. apply Hc. left.
    + apply elem_of_cons in Hc as [Hc|Hc]; [congruence|contradiction].
Qed.

(** The rule of [_update_black_cells]: an active view with a player and a
    cell is black exactly when its own duration is positive and below the
    master position; the cells of the other videos are left as they were. *)
Lemma update_black_cells_rule (pos : Z) (g : t) (vid : string) :
  (forall p, vid ∈ _active_view_ids g -> _players g !! vid = Some p ->
             is_Some (_cells g !! vid) ->
             _cells (_update_black_cells pos g) !! vid =
               Some (bool_decide (0 < duration p /\ duration p < pos))) /\
  (vid ∉ _active_view_ids g ->
   _cells (_update_black_cells pos g) !! vid = _cells g !! vid) /\
  _players (_update_black_cells pos g) = _players g /\
  _active_view_ids (_update_black_cells pos g) = _active_view_ids g.
Proof.
  unfold _update_black_cells. cbn [_cells _players _active_view_ids with_cells].
  rewrite fold_update_lookup. split; [|split; [|split; reflexivity]].
  - intros p Hin Hp [c Hc]. destruct (decide _) as [_|Hn]; [|contradiction].
    unfold refreshed. rewrite Hc, Hp. f_equal. unfold exhausted.
    destruct (Z.ltb_spec 0 (duration p)), (Z.ltb_spec (duration p) pos); cbn;
      symmetry; (apply bool_decide_eq_true; lia) || (apply bool_decide_eq_false; lia).
  - intros Hn. destruct (decide _) as [Hin|_]; [contradiction|reflexivity].
Qed.

Lemma update_black_cells_agree (g : t) :
  masks_agree (_update_black_cells (_current_master_position g) g).
Proof.
  intros vid p Hin Hp Hc.
  unfold _update_black_cells in *.
  cbn [_cells _players _active_view_ids with_cells] in *.
  change (_current_master_position (with_cells _ g)) with (_current_master_position g).
  rewrite fold_update_lookup in *.
  destruct (decide (vid ∈ _active_view_ids g)) as [_|Hn]; [|contradiction].
  unfold refreshed in *. destruct (_cells g !! vid) as [c|].
  - rewrite Hp. reflexivity.
  - destruct Hc as [c Hc]. discriminate.
Qed.

Lemma master_setState (s : State) (g : t) :
  _current_master_position (with_players (setState s <$> _players g) g) =
  _current_master_position g.
Proof.
  unfold _current_master_position, _time_source_player. cbn.
  destruct (_time_source_id g) as [id|]; [|reflexivity].
  destruct (String.eqb id EmptyString); [reflexivity|].
  rewrite lookup_fmap. destruct (_players g !! id); reflexivity.
Qed.

Lemma masks_agree_setState (s : State) (g : t) :
  masks_agree g -> masks_agree (with_players (setState s <$> _players g) g).
Proof.
  intros H vid p Hin Hp Hc. rewrite master_setState.
  cbn in Hin, Hp, Hc |- *. rewrite lookup_fmap in Hp.
  destruct (_players g !! vid) as [p0|] eqn:E; [|discriminate].
  cbn in Hp. injection Hp as <-.
  rewrite (H vid p0 Hin E Hc). reflexivity.
Qed.

Lemma masks_agree_play_gate (g : t) :
  masks_agree g -> masks_agree (_request_play_with_buffer_gate g).
Proof.
  intros H. unfold _request_play_with_buffer_gate.
  destruct (bool_decide _); [exact H|].
  destruct (negb _).
  - unfold play_players.
    apply (masks_agree_setState PlayingState (with_pending_play false g)). exact H.
  - exact H.
Qed.

(** After [set_position_all], every active view satisfies the rule at the
    position of the time source, which is the position asked for. *)
Lemma set_position_all_masks (position_ms : Z) (g : t) :
  _players g <> ∅ ->
  masks_agree (set_position_all position_ms g) /\
  (is_Some (_time_source_player g) ->
   _current_master_position (set_position_all position_ms g) = Z.max 0 position_ms).
Proof.
  intros Hne. unfold set_position_all.
  destruct (bool_decide_reflect (_players g = ∅)) as [He|_]; [contradiction|].
  cbv zeta. split.
  - destruct (is_playing g).
    + apply masks_agree_play_gate, update_black_cells_agree.
    + apply update_black_cells_agree.
  - intros [m Hm].
    assert (Hpos : forall g0 : t,
      is_Some (_time_source_player g0) ->
      _current_master_position
        (_update_black_cells
           (_current_master_position
              (with_ignore false
                 (with_players (setPosition (Z.max 0 position_ms) <$>
                                _players (with_ignore true g0)) (with_ignore true g0))))
           (with_ignore false
              (with_players (setPosition (Z.max 0 position_ms) <$>
                             _players (with_ignore true g0)) (with_ignore true g0))))
      = Z.max 0 position_ms).
    { intros g0 [m0 Hm0]. unfold _current_master_position at 1.
      unfold _time_source_player in *. cbn.
      destruct (_time_source_id g0) as [id|]; [|discriminate].
      destruct (String.eqb id EmptyString); [discriminate|].
      rewrite lookup_fmap, Hm0. reflexivity. }
    destruct (is_playing g) eqn:Hplay.
    + unfold _request_play_with_buffer_gate.
      assert (Hpm : is_Some (_time_source_player (pause_all g))).
      { unfold pause_all, _time_source_player in *. cbn.
        destruct (_time_source_id g) as [id|]; [|discriminate].
        destruct (String.eqb id EmptyString); [discriminate|].
        rewrite lookup_fmap, Hm. eauto. }
      destruct (bool_decide _); [apply Hpos; exact Hpm|].
      destruct (negb _).
      * unfold play_players.
        rewrite (master_setState PlayingState (with_pending_play false _)).
        apply Hpos. exact Hpm.
      * apply Hpos. exact Hpm.
    + apply Hpos. eauto.
Qed.

(** The slot of [positionChanged], when signals are not ignored and the
    time source reports a position that differs from the last one seen,
    refreshes the cells at that position. *)
Lemma position_changed_masks (g : t) (master : Player) :
  _ignore_position_signals g = false ->
  _time_source_player g = Some master ->
  position master <> _last_master_pos g ->
  masks_agree (_on_any_position_changed g).1 /\
  (_on_any_position_changed g).2 = [time_position_changed (position master)].
Proof.
  intros Hig Hm Hne. unfold _on_any_position_changed. rewrite Hig, Hm.
  destruct (Z.eqb_spec (position master) (_last_master_pos g)); [contradiction|].
  cbn [negb fst snd]. split; [|reflexivity].
  pose proof (update_black_cells_agree (with_last_master_pos (position master) g)) as H.
  assert (Hp : _current_master_position (with_last_master_pos (position master) g)
               = position master).
  { unfold _current_master_position.
    change (_time_source_player (with_last_master_pos (position master) g))
      with (_time_source_player g). rewrite Hm. reflexivity. }
  rewrite Hp in H. exact H.
Qed.

(** The scenario of the specification: durations 10000, 8000 and 12000 ms,
    the 12000 ms video as time source; seeking to 9000 ms blacks out the
    8000 ms video only. *)
Lemma seek_masks_short_stream :
  let g := set_position_all 9000 (sample_grid 10000 8000 12000) in
  _current_master_position g = 9000 /\
  _cells g !! "video-1"%string = Some false /\
  _cells g !! "video-2"%string = Some true /\
  _cells g !! "video-3"%string = Some false.
Proof. vm_compute. repeat split. Qed.

(** C8.  The rule holds after a seek and after a position change of the
    time source, but a change of duration does not refresh the cells: with
    the time source at 9000 ms and the duration of [video-2] not yet known
    (0), its cell is live; when the player then reports a duration of
    8000 ms, the slot of [durationChanged] only republishes the duration
    of the time source, and the cell of [video-2] stays live although its
    duration is positive and below the master position. *)
Theorem duration_change_leaves_mask_stale :
  let g0 := set_position_all 9000 (sample_grid 10000 0 12000) in
  let g1 := (player_duration_changed "video-2" 8000 g0).1 in
  masks_agree g0 /\
  (player_duration_changed "video-2" 8000 g0).2 = [time_duration_changed 12000] /\
  _current_master_position g1 = 9000 /\
  duration <$> (_players g1 !! "video-2"%string) = Some 8000 /\
  _cells g1 !! "video-2"%string = Some false /\
  ~ masks_agree g1.
Proof.
  cbv zeta. split; [|split; [|split; [|split; [|split]]]].
  - apply set_position_all_masks. intros H.
    apply (f_equal (fun m => m !! "video-1"%string)) in H. vm_compute in H. discriminate.
  - vm_compute. reflexivity.
  - vm_compute. reflexivity.
  - vm_compute. reflexivity.
  - vm_compute. reflexivity.
  - intros H.
    specialize (H "video-2"%string (setDuration 8000 (setPosition 9000 (sample_player 0)))).
    assert (Hc : Some false = Some true); [|discriminate].
    transitivity (_cells (player_duration_changed "video-2" 8000
         (set_position_all 9000 (sample_grid 10000 0 12000))).1 !! "video-2"%string).
    { vm_compute. reflexivity. }
    rewrite H.
    + vm_compute. reflexivity.
    + vm_compute. right. left.
    + vm_compute. reflexivity.
    + vm_compute. eauto.
Qed.

End Grid.

(** ** main_window.py: the step workflow *)

Section StepWorkflow.

Import MainWindow.

Variable gen : Z -> string.

(** C6.  When [_finish_step] runs while the workflow waits for the
    confirmation of the end and the slider stands before the captured
    start, it only shows the warning "Invalid range": the window is left
    as it was, so no record is appended, nothing is saved, the pending
    capture is kept and the workflow still waits for the confirmation of
    the end. *)
Theorem finish_step_invalid_range (conf_notes : option (Z * string)) (w : t)
    (start_ms : Z) :
  AwaitingConfirmEnd w ->
  Domain.pending_start_ms (state w) = Some start_ms ->
  slider_value w < start_ms ->
  _finish_step gen conf_notes w =
    (w, [warning "Invalid range" "End time must be after start time."]) /\
  Domain.annotations (state (_finish_step gen conf_notes w).1) =
    Domain.annotations (state w) /\
  Domain.pending_start_ms (state (_finish_step gen conf_notes w).1) = Some start_ms /\
  AwaitingConfirmEnd (_finish_step gen conf_notes w).1.
Proof.
  intros Hawait Hstart Hlt.
  assert (Hres : _finish_step gen conf_notes w =
            (w, [warning "Invalid range" "End time must be after start time."])).
  { destruct Hawait as ([step Hstep] & _ & Hcam & Hts & Has & _).
    unfold _finish_step. rewrite Hstart, Hstep, Hcam, Hts, Has. cbn [negb orb].
    destruct (Z.ltb_spec (slider_value w) start_ms); [reflexivity|lia]. }
  rewrite Hres. cbn [fst]. auto.
Qed.

End StepWorkflow.

Lemma finish_step_invalid_range_witness :
  let gen := sample_generated in
  let w1 := (MainWindow._start_step gen (sample_window [])).1 in
  let w2 := (MainWindow._confirm_start gen (MainWindow._on_master_position gen 4000 w1)).1 in
  let w3 := (MainWindow._end_step gen (MainWindow._on_master_position gen 3000 w2)).1 in
  MainWindow._finish_step gen (Some (7, "done"%string)) w3 =
    (w3, [MainWindow.warning "Invalid range" "End time must be after start time."]).
Proof.
  intros gen w1 w2 w3.
  apply (finish_step_invalid_range gen (Some (7, "done"%string)) w3 4000).
  - unfold MainWindow.AwaitingConfirmEnd.
    repeat split; try (vm_compute; reflexivity); vm_compute; eauto.
  - vm_compute. reflexivity.
  - vm_compute. reflexivity.
Defined.

(** ** widgets/skill_timeline.py and main_window.py: drag editing *)

Section DragEdit.

Import Py TimeUtils SkillTimeline.

Lemma x_to_ms_range (x : Z) (c : Canvas) :
  0 <= _duration_ms c -> 0 <= _x_to_ms x c <= _duration_ms c.
Proof.
  intros Hd. unfold _x_to_ms.
  destruct (Z.leb_spec (_duration_ms c) 0); lia.
Qed.

(** A drag step on the left handle. *)
Lemma drag_left_step (x idx : Z) (c : Canvas) :
  _editing_idx c = Some idx -> is_Some (editing_hit_block c) ->
  _drag_mode c = Some left_edge ->
  mouseMoveEvent x c =
    (with_playhead_ms (Z.min (_x_to_ms x c) (_edit_end_ms c))
       (with_edit_start_ms (Z.min (_x_to_ms x c) (_edit_end_ms c)) c),
     [edit_preview idx (Z.min (_x_to_ms x c) (_edit_end_ms c)) (_edit_end_ms c);
      edit_preview_drag idx (Z.min (_x_to_ms x c) (_edit_end_ms c)) (_edit_end_ms c)
        left_edge]).
Proof.
  intros He [h Hh] Hm. unfold mouseMoveEvent. rewrite He, Hm, Hh. reflexivity.
Qed.

(** A drag step on the right handle. *)
Lemma drag_right_step (x idx : Z) (c : Canvas) :
  _editing_idx c = Some idx -> is_Some (editing_hit_block c) ->
  _drag_mode c = Some right_edge ->
  mouseMoveEvent x c =
    (with_playhead_ms (Z.max (_x_to_ms x c) (_edit_start_ms c))
       (with_edit_end_ms (Z.max (_x_to_ms x c) (_edit_start_ms c)) c),
     [edit_preview idx (_edit_start_ms c) (Z.max (_x_to_ms x c) (_edit_start_ms c));
      edit_preview_drag idx (_edit_start_ms c) (Z.max (_x_to_ms x c) (_edit_start_ms c))
        right_edge]).
Proof.
  intros He [h Hh] Hm. unfold mouseMoveEvent. rewrite He, Hm, Hh. reflexivity.
Qed.

Lemma clamp0_mono (a b : Q) : (a <= b)%Q -> (clamp0 a <= clamp0 b)%Q.
Proof.
  intros H. unfold clamp0.
  destruct (Qltb a 0) eqn:Ea, (Qltb b 0) eqn:Eb;
    rewrite ?Qltb_lt, ?Qltb_ge in *; lra.
Qed.

Lemma ms_to_seconds_mono (s e : Z) :
  s <= e -> (float s / 1000 <= float e / 1000)%Q.
Proof.
  intros H. unfold float.
  assert (Hq : (inject_Z s <= inject_Z e)%Q) by (rewrite <- Zle_Qle; exact H).
  unfold Qdiv. apply Qmult_le_compat_r; [exact Hq|]. discriminate.
Qed.

(** The strict path accepts ordered times. *)
Lemma recompute_from_times_ordered (rec : AnnotationRecord) (fps : option Q) :
  (start_time rec <= end_time rec)%Q ->
  exists r, recompute_from_times rec fps = Return r /\
            start_time r = clamp0 (start_time rec) /\
            end_time r = clamp0 (end_time rec).
Proof.
  intros H. unfold recompute_from_times.
  destruct (Qltb (clamp0 (end_time rec)) (clamp0 (start_time rec))) eqn:E.
  - apply Qltb_lt in E. pose proof (clamp0_mono _ _ H). lra.
  - eexists. split; [reflexivity|]. split; reflexivity.
Qed.

(** A table edit of [end_time] that inverts the clamped times raises the
    range error; the record keeps the new end time. *)
Lemma table_edit_inverted (row : Z) (v : AnnotationsTable.Text) (et : Q)
    (rec : AnnotationRecord) (tb : AnnotationsTable.t) :
  0 <= row -> AnnotationsTable._records tb !! Z.to_nat row = Some rec ->
  AnnotationsTable.float_of_text v = Some et ->
  (clamp0 et < clamp0 (start_time rec))%Q ->
  AnnotationsTable._apply_edit_to_record row 8 v tb =
    (AnnotationsTable.with_records
       (<[Z.to_nat row := AnnotationsTable.with_end_time et rec]>
          (AnnotationsTable._records tb)) tb,
     Raise InvalidRange).
Proof.
  intros Hrow Hrec Hv Hlt. unfold AnnotationsTable._apply_edit_to_record.
  pose proof (lookup_lt_Some _ _ _ Hrec) as Hlen.
  destruct (Z.ltb_spec row 0); [lia|].
  destruct (Z.leb_spec (Z.of_nat (length (AnnotationsTable._records tb))) row); [lia|].
  cbn [orb]. rewrite Hrec. cbn [Z.eqb Pos.eqb].
  unfold AnnotationsTable.as_float. rewrite Hv.
  unfold AnnotationsTable.edit_time, recompute_from_times.
  cbn [start_time end_time AnnotationsTable.with_end_time replace_times_frames].
  apply Qltb_lt in Hlt. rewrite Hlt. reflexivity.
Qed.

Section Commit.

Import MainWindow.

Variable gen : Z -> string.

Lemma state_drag_end (w : t) : state (_on_timeline_drag_end w) = state w.
Proof.
  unfold _on_timeline_drag_end.
  destruct (_timeline_drag_active w); [|reflexivity]. cbn.
  destruct (_timeline_drag_was_playing w); reflexivity.
Qed.

Lemma state_color_for (n : Z) (w : t) : state (color_for gen n w).2 = state w.
Proof.
  unfold color_for.
  destruct (Colors.get_skill_color_hex gen (Some n) (cfg w)) as [col cfg'].
  reflexivity.
Qed.

Lemma state_refresh (w : t) : state (_refresh_overlays_and_timeline gen w) = state w.
Proof.
  unfold _refresh_overlays_and_timeline.
  set (w0 := with_skill_timeline _ w).
  assert (H0 : state w0 = state w) by reflexivity.
  destruct (Domain.pending_start_ms (state w0)) as [s|];
    destruct (Domain.pending_step (state w0)) as [st|];
    try (cbn [state with_skill_timeline with_slider_overlays]; exact H0).
  destruct (Domain.truthy (Domain.pending_color (state w0))).
  - cbn [state with_skill_timeline with_slider_overlays]. exact H0.
  - pose proof (state_color_for (number st) w0) as Hc.
    destruct (color_for gen (number st) w0) as [col w'].
    cbn [state with_skill_timeline with_slider_overlays snd] in *.
    rewrite Hc. exact H0.
Qed.

(** The slot of [edit_committed] puts the bounds it receives in order,
    stores them in seconds and recomputes the record; it never warns. *)
Lemma commit_swaps (idx start_ms end_ms : Z) (w : t) (rec : AnnotationRecord) :
  0 <= idx -> Domain.annotations (state w) !! Z.to_nat idx = Some rec ->
  let r := _on_skill_timeline_edit_commit gen idx start_ms end_ms w in
  exists rec',
    Domain.annotations (state r.1) !! Z.to_nat idx = Some rec' /\
    start_time rec' = clamp0 (float (Z.min start_ms end_ms) / 1000) /\
    end_time rec' = clamp0 (float (Z.max start_ms end_ms) / 1000) /\
    r.2 = [persist_session_state (state r.1)].
Proof.
  intros Hidx Hrec r. subst r. unfold _on_skill_timeline_edit_commit. cbv zeta.
  set (w1 := with_slider_edit_overlay None (_on_timeline_drag_end w)).
  assert (Hst : state w1 = state w) by (unfold w1; cbn; apply state_drag_end).
  clearbody w1. rewrite Hst.
  pose proof (lookup_lt_Some _ _ _ Hrec) as Hlen.
  destruct (Z.ltb_spec idx 0); [lia|].
  destruct (Z.leb_spec (Z.of_nat (length (Domain.annotations (state w)))) idx); [lia|].
  cbn [orb]. rewrite Hrec.
  set (lo := Z.min start_ms end_ms). set (hi := Z.max start_ms end_ms).
  assert (Hpair : (if end_ms <? start_ms then (end_ms, start_ms) else (start_ms, end_ms))
                  = (lo, hi)).
  { unfold lo, hi. destruct (Z.ltb_spec end_ms start_ms); f_equal; lia. }
  rewrite Hpair.
  set (rec2 := AnnotationsTable.with_end_time (float hi / 1000)
                 (AnnotationsTable.with_start_time (float lo / 1000) rec)).
  assert (Hord : (start_time rec2 <= end_time rec2)%Q).
  { cbn. apply ms_to_seconds_mono. unfold lo, hi. lia. }
  set (fps := Some (VideoGrid.fps_for (time_source rec2) _)).
  destruct (recompute_from_times_ordered rec2 fps Hord) as (nr & Hnr & Hs & He).
  rewrite Hnr. cbn [fst snd]. rewrite state_refresh. cbn [state with_state with_table].
  eexists. split; [|split; [|split]].
  - cbn. rewrite list_insert_insert_eq.
    apply list_lookup_insert_eq. exact Hlen.
  - cbn. exact Hs.
  - cbn. exact He.
  - unfold _autosave_session. cbn. reflexivity.
Qed.

(** C5 (as amended).  During a drag the time under the pointer is kept
    within [0 .. duration]; the left handle is kept at or before the end of
    the edit and the right handle at or after its start, so a handle never
    crosses the other one and, when the snapshot lies within the timeline,
    both bounds stay within it.  For the snapshot 4000 ms .. 5000 ms, the
    right handle dragged to 3000 ms stops at 4000 ms and the commit stores
    start = end = 4000 ms without a warning.  The slot of the commit puts
    bounds that it receives inverted in order (4000, 3000 gives 3000 ms ..
    4000 ms) and never warns, whereas the edit of a table cell that inverts
    the times raises the range error. *)
Theorem drag_is_clamped_commit_swaps (x idx : Z) (c : Canvas) :
  (0 <= _duration_ms c -> 0 <= _x_to_ms x c <= _duration_ms c) /\
  (_editing_idx c = Some idx -> is_Some (editing_hit_block c) ->
   _drag_mode c = Some left_edge ->
   let c' := (mouseMoveEvent x c).1 in
   _edit_start_ms c' = Z.min (_x_to_ms x c) (_edit_end_ms c) /\
   _edit_end_ms c' = _edit_end_ms c /\
   _edit_start_ms c' <= _edit_end_ms c' /\
   (0 <= _edit_end_ms c <= _duration_ms c -> 0 <= _edit_start_ms c' <= _duration_ms c)) /\
  (_editing_idx c = Some idx -> is_Some (editing_hit_block c) ->
   _drag_mode c = Some right_edge ->
   let c' := (mouseMoveEvent x c).1 in
   _edit_end_ms c' = Z.max (_x_to_ms x c) (_edit_start_ms c) /\
   _edit_start_ms c' = _edit_start_ms c /\
   _edit_start_ms c' <= _edit_end_ms c' /\
   (0 <= _edit_start_ms c <= _duration_ms c -> 0 <= _edit_end_ms c' <= _duration_ms c)) /\
  (let r := drag_right_handle_to gen 310 in
   _x_to_ms 310 (sample_canvas [sample_record 4 5]) = 3000 /\
   map record_ms (Domain.annotations (state r.1)) = [(4000, 4000)] /\
   r.2 = [persist_session_state (state r.1)]) /\
  (let r := _on_skill_timeline_edit_commit gen 0 4000 3000
              (sample_window [sample_record 4 5]) in
   map record_ms (Domain.annotations (state r.1)) = [(3000, 4000)] /\
   r.2 = [persist_session_state (state r.1)]) /\
  (forall (w : t) (i start_ms end_ms : Z) (rec : AnnotationRecord),
     0 <= i -> Domain.annotations (state w) !! Z.to_nat i = Some rec ->
     let r := _on_skill_timeline_edit_commit gen i start_ms end_ms w in
     exists rec',
       Domain.annotations (state r.1) !! Z.to_nat i = Some rec' /\
       start_time rec' = clamp0 (float (Z.min start_ms end_ms) / 1000) /\
       end_time rec' = clamp0 (float (Z.max start_ms end_ms) / 1000) /\
       r.2 = [persist_session_state (state r.1)]) /\
  (table_edit gen 0 8 (AnnotationsTable.mkText "3.0" None (Some 3%Q))
     (sample_window [sample_record 4 5])).2 = Raise InvalidRange /\
  (forall (tb : AnnotationsTable.t) (row : Z) (v : AnnotationsTable.Text) (et : Q)
          (rec : AnnotationRecord),
     0 <= row -> AnnotationsTable._records tb !! Z.to_nat row = Some rec ->
     AnnotationsTable.float_of_text v = Some et ->
     (clamp0 et < clamp0 (start_time rec))%Q ->
     (AnnotationsTable._apply_edit_to_record row 8 v tb).2 = Raise InvalidRange).
Proof.
  split; [apply x_to_ms_range|].
  split; [|split; [|split; [|split; [|split; [|split]]]]].
  - intros He Hh Hm c'. subst c'. rewrite (drag_left_step x idx c He Hh Hm).
    cbn [fst _edit_start_ms _edit_end_ms _duration_ms with_playhead_ms with_edit_start_ms].
    repeat split; try lia; intros; pose proof (x_to_ms_range x c); lia.
  - intros He Hh Hm c'. subst c'. rewrite (drag_right_step x idx c He Hh Hm).
    cbn [fst _edit_start_ms _edit_end_ms _duration_ms with_playhead_ms with_edit_end_ms].
    repeat split; try lia; intros; pose proof (x_to_ms_range x c); lia.
  - vm_compute. repeat split.
  - vm_compute. repeat split.
  - intros w i s e rec Hi Hrec. apply (commit_swaps i s e w rec); assumption.
  - vm_compute. reflexivity.
  - intros tb row v et rec Hrow Hrec Hv Hlt.
    rewrite (table_edit_inverted row v et rec tb Hrow Hrec Hv Hlt). reflexivity.
Qed.

End Commit.

End DragEdit.

Lemma drag_is_clamped_commit_swaps_witness :
  let c := (SkillTimeline.mousePressEvent_handle SkillTimeline.right_edge
              (SkillTimeline._enter_edit_mode 0 (sample_canvas [sample_record 4 5])).1).1 in
  let c' := (SkillTimeline.mouseMoveEvent 310 c).1 in
  SkillTimeline._edit_end_ms c' = 4000 /\ SkillTimeline._edit_start_ms c' = 4000.
Proof.
  intros c c'.
  pose proof (drag_is_clamped_commit_swaps sample_generated 310 0 c) as (_ & _ & H & _).
  destruct H as (He & Hs & _).
  - vm_compute. reflexivity.
  - vm_compute. eauto.
  - vm_compute. reflexivity.
  - fold c' in He, Hs. rewrite He, Hs. vm_compute. split; reflexivity.
Defined.

(** C5, counterexample to the claim as stated: with the snapshot
    4000 ms .. 5000 ms, the right handle dragged to the column of 3000 ms and
    committed leaves the record at 4000 ms .. 4000 ms, not at
    3000 ms .. 4000 ms. *)
Lemma drag_across_left_handle_is_clamped :
  let r := drag_right_handle_to sample_generated 310 in
  SkillTimeline._x_to_ms 310 (sample_canvas [sample_record 4 5]) = 3000 /\
  map record_ms (Domain.annotations (MainWindow.state r.1)) = [(4000, 4000)] /\
  map record_ms (Domain.annotations (MainWindow.state r.1)) <> [(3000, 4000)].
Proof.
  vm_compute. split; [reflexivity|]. split; [reflexivity|]. discriminate.
Qed.


(** ** timeutils.py: further properties of the recomputations *)

Section RecomputeMore.

Import Py TimeUtils.

Lemma round_unique (x : Q) (k : Z) :
  (inject_Z k - (1#2) < x)%Q -> (x < inject_Z k + (1#2))%Q -> round x = k.
Proof.
  intros H1 H2. pose proof (round_bounds x) as [Hb1 Hb2].
  assert (Ha : (inject_Z (round x) < inject_Z (k + 1))%Q).
  { rewrite inject_Z_plus. change (inject_Z 1) with 1%Q. lra. }
  assert (Hb : (inject_Z k < inject_Z (round x + 1))%Q).
  { rewrite inject_Z_plus. change (inject_Z 1) with 1%Q. lra. }
  rewrite <- Zlt_Qlt in Ha, Hb. lia.
Qed.









Lemma fmax0_nonneg (x : Q) : (0 <= fmax0 x)%Q.
Proof.
  unfold fmax0. destruct (Qltb 0 x) eqn:E; [apply Qltb_lt in E|]; lra.
Qed.

Lemma fmax0_id (x : Q) : (0 <= x)%Q -> (fmax0 x == x)%Q.
Proof.
  intros H. unfold fmax0. destruct (Qltb 0 x) eqn:E; [reflexivity|].
  apply Qltb_ge in E. lra.
Qed.

Lemma fmax0_idem (x : Q) : fmax0 (fmax0 x) = fmax0 x.
Proof.
  unfold fmax0. destruct (Qltb 0 x) eqn:E; [rewrite E|]; reflexivity.
Qed.

(** [recompute_totals] repairs instead of raising: times and frames come
    back non-negative and ordered (an end before its start is moved onto the
    start), the totals are the differences and are not negative, the other
    fields are kept, and a second application changes nothing. *)
Theorem recompute_totals_safe (rec : AnnotationRecord) :
  let r := recompute_totals rec in
  (0 <= start_time r)%Q /\ (start_time r <= end_time r)%Q /\
  0 <= start_frame r <= end_frame r /\
  total_time r = (end_time r - start_time r)%Q /\ (0 <= total_time r)%Q /\
  total_frames r = end_frame r - start_frame r /\
  (start_time r == Qmax 0 (start_time rec))%Q /\
  (end_time r == Qmax (start_time r) (end_time rec))%Q /\
  start_frame r = Z.max 0 (start_frame rec) /\
  end_frame r = Z.max (start_frame r) (end_frame rec) /\
  label r = label rec /\ camid r = camid rec /\ step_no r = step_no rec /\
  step_name r = step_name rec /\ time_source r = time_source rec /\
  audio_source r = audio_source rec /\ confidence r = confidence rec /\
  notes r = notes rec /\
  recompute_totals r = r.
Proof.
  intros r. subst r. unfold recompute_totals.
  set (st := fmax0 (start_time rec)). set (et0 := fmax0 (end_time rec)).
  set (sf := Z.max 0 (start_frame rec)). set (ef0 := Z.max 0 (end_frame rec)).
  pose proof (fmax0_nonneg (start_time rec)) as Hst. fold st in Hst.
  pose proof (fmax0_nonneg (end_time rec)) as Het0. fold et0 in Het0.
  assert (Hstm : (st == Qmax 0 (start_time rec))%Q).
  { unfold st, fmax0. destruct (Qltb 0 (start_time rec)) eqn:E.
    - apply Qltb_lt in E. rewrite Q.max_r; lra.
    - apply Qltb_ge in E. rewrite Q.max_l; lra. }
  assert (Hetm : (et0 == Qmax 0 (end_time rec))%Q).
  { unfold et0, fmax0. destruct (Qltb 0 (end_time rec)) eqn:E.
    - apply Qltb_lt in E. rewrite Q.max_r; lra.
    - apply Qltb_ge in E. rewrite Q.max_l; lra. }
  cbn [start_frame end_frame total_frames start_time end_time total_time
       replace_times_frames label camid step_no step_name time_source audio_source
       confidence notes].
  destruct (Qltb et0 st) eqn:Et; destruct (Z.ltb_spec ef0 sf) as [Hf|Hf];
    rewrite ?Qltb_lt, ?Qltb_ge in Et.
  all: repeat match goal with |- _ /\ _ => split end; try reflexivity; try lia; try lra.
  all: try (unfold sf, ef0 in *; lia).
  all: try (rewrite ?fmax0_idem; fold st; fold et0).
  all: try (destruct (Q.max_spec st (end_time rec)) as [[? ->]|[? ->]];
            destruct (Q.max_spec 0 (end_time rec)) as [[? Hm]|[? Hm]];
            rewrite Hm in Hetm; lra).
  all: unfold recompute_totals;
    cbn [start_frame end_frame total_frames start_time end_time total_time
         replace_times_frames label camid step_no step_name time_source audio_source
         confidence notes].
  all: unfold st, et0; rewrite !fmax0_idem; fold st; fold et0.
  all: replace (Z.max 0 sf) with sf by (unfold sf; lia).
  all: replace (Z.max 0 ef0) with ef0 by (unfold ef0; lia).
  all: rewrite ?Z.ltb_irrefl.
  all: try (destruct (Z.ltb_spec ef0 sf); [lia|]).
  all: try (apply Qltb_ge in Et; rewrite Et).
  all: try (destruct (Qltb st st)).
  all: reflexivity.
Qed.

End RecomputeMore.


(** ** timeutils.py: further properties of the lanes *)

Section LanesMore.

Import Py TimeUtils.

Lemma place_nonempty (b : Block) (lanes : list (list Block)) :
  Forall (fun lane => lane <> []) lanes ->
  Forall (fun lane => lane <> []) (place b lanes).
Proof.
  induction lanes as [|lane rest IH]; intros H; cbn.
  - constructor; [discriminate|constructor].
  - inversion H as [|? ? Hl Hr]; subst.
    destruct (last lane) as [x|].
    + destruct (_ <=? _).
      * constructor; [|exact Hr]. destruct lane; discriminate.
      * constructor; auto.
    + constructor; auto.
Qed.

Lemma fold_place_nonempty (norm : list Block) (lanes : list (list Block)) :
  Forall (fun lane => lane <> []) lanes ->
  Forall (fun lane => lane <> []) (fold_left (fun lanes b => place b lanes) norm lanes).
Proof.
  revert lanes. induction norm as [|b norm IH]; intros lanes H; cbn; [exact H|].
  apply IH, place_nonempty, H.
Qed.

Lemma stack_nonempty_lanes (blocks : list Block) :
  Forall (fun lane => lane <> []) (stack_blocks_into_lanes blocks).
Proof.
  unfold stack_blocks_into_lanes. destruct blocks; [constructor|].
  apply fold_place_nonempty. constructor.
Qed.

Lemma length_concat_nonempty {A : Type} (ls : list (list A)) :
  Forall (fun l => l <> []) ls -> (length ls <= length (concat ls))%nat.
Proof.
  induction 1 as [|l ls Hl _ IH]; cbn; [lia|].
  rewrite length_app. destruct l; [contradiction|]. cbn. lia.
Qed.

(** The shape of the lanes: the lanes hold the blocks of the input, each
    with its bounds put in order, neither more nor fewer; no lane is empty,
    so there are at most as many lanes as blocks and none only for the
    empty input; and within a lane the blocks follow each other by
    ascending start, each starting at or after the end of the one before. *)
Theorem lanes_shape (blocks : list Block) :
  let lanes := stack_blocks_into_lanes blocks in
  Permutation (concat lanes) (map normalize blocks) /\
  length (concat lanes) = length blocks /\
  (forall lane, lane ∈ lanes -> lane <> []) /\
  (length lanes <= length blocks)%nat /\
  (lanes = [] <-> blocks = []) /\
  (forall lane i j a b,
     lane ∈ lanes -> (i < j)%nat -> lane !! i = Some a -> lane !! j = Some b ->
     start_ms a <= start_ms b /\ end_ms a <= start_ms b /\ start_ms a <= end_ms a).
Proof.
  intros lanes. subst lanes.
  pose proof (stack_nonempty_lanes blocks) as Hne.
  destruct (stack_lanes_ok blocks) as [Hok Hperm].
  assert (Hlen : length (concat (stack_blocks_into_lanes blocks)) = length blocks).
  { pose proof (Permutation_length Hperm) as Hl. rewrite length_map in Hl. exact Hl. }
  split; [exact Hperm|]. split; [exact Hlen|].
  split; [|split; [|split]].
  - rewrite Forall_forall in Hne. exact Hne.
  - pose proof (length_concat_nonempty _ Hne) as Hl. lia.
  - split.
    + intros He. rewrite He in Hperm. cbn in Hperm.
      apply Permutation_nil in Hperm. destruct blocks; [reflexivity|discriminate].
    + intros ->. reflexivity.
  - intros lane i j a b Hlane Hij Hi Hj.
    rewrite Forall_forall in Hok. specialize (Hok lane Hlane).
    pose proof (lane_ok_lookup lane i j a b Hok Hij Hi Hj) as Hb.
    destruct Hok as [Hwf _]. rewrite Forall_forall in Hwf.
    assert (Ha : wf a) by (apply Hwf; eapply list_elem_of_lookup_2; exact Hi).
    unfold before, wf in *. lia.
Qed.

Lemma lanes_shape_witness :
  start_ms (mkBlock 0 0 10) <= start_ms (mkBlock 1 10 20).
Proof.
  pose proof (lanes_shape [mkBlock 0 0 10; mkBlock 1 10 20]) as (_ & _ & _ & _ & _ & H).
  apply (H [mkBlock 0 0 10; mkBlock 1 10 20] 0%nat 1%nat).
  - vm_compute. left.
  - lia.
  - reflexivity.
  - reflexivity.
Defined.






(** The two outcomes of [place]: the block is appended to the first lane
    that it fits, after every lane before it refused it; or every lane
    refused it and it opens a lane. *)
Lemma place_cases (b : Block) (lanes : list (list Block)) :
  Forall (fun lane => lane <> []) lanes ->
  (exists (j : nat) (lane : list Block),
     lanes !! j = Some lane /\ place b lanes = <[j := lane ++ [b]]> lanes /\
     forall (i : nat) lane_i, (i < j)%nat -> lanes !! i = Some lane_i ->
       exists a, last lane_i = Some a /\ start_ms b < end_ms a) \/
  (place b lanes = lanes ++ [[b]] /\
   forall lane, lane ∈ lanes -> exists a, last lane = Some a /\ start_ms b < end_ms a).
Proof.
  induction lanes as [|lane rest IH]; intros Hne; cbn.
  - right. split; [reflexivity|]. intros lane Hl. inversion Hl.
  - inversion Hne as [|? ? Hl Hr]; subst. specialize (IH Hr).
    destruct (last lane) as [x|] eqn:Hlast.
    + destruct (Z.leb_spec (end_ms x) (start_ms b)) as [Hfit|Hnofit].
      * left. exists 0%nat, lane. split; [reflexivity|]. split; [reflexivity|].
        intros i lane_i Hi. lia.
      * destruct IH as [(j & l & Hj & Hp & Hbefore)|[Hp Hall]].
        -- left. exists (S j), l. split; [exact Hj|]. split; [rewrite Hp; reflexivity|].
           intros i lane_i Hi Hli. destruct i as [|i].
           ++ cbn in Hli. injection Hli as <-. exists x. split; [exact Hlast|lia].
           ++ cbn in Hli. apply (Hbefore i lane_i); [lia|exact Hli].
        -- right. split; [rewrite Hp; reflexivity|].
           intros l Hin. apply elem_of_cons in Hin as [->|Hin]; [|auto].
           exists x. split; [exact Hlast|lia].
    + destruct lane; [contradiction|]. apply last_None in Hlast. discriminate.
Qed.

Lemma sorted_keys_starts (l : list Block) :
  StronglySorted key_le (map sort_key l) ->
  StronglySorted (fun a b => start_ms a <= start_ms b) l.
Proof.
  induction l as [|x l IH]; cbn; intros H; [constructor|].
  apply StronglySorted_inv in H as [Hs Hx]. constructor; [auto|].
  rewrite Forall_forall in Hx. apply Forall_forall. intros y Hy.
  assert (Hk : key_le (sort_key x) (sort_key y)).
  { apply Hx. apply list_elem_of_fmap. exists y. split; [reflexivity|exact Hy]. }
  apply key_le_iff in Hk. cbn in Hk. lia.
Qed.

Lemma last_elem_of {A : Type} (l : list A) (a : A) : last l = Some a -> a ∈ l.
Proof. intros H. apply last_Some in H as [l' ->]. apply elem_of_app. right. left. Qed.

Lemma elem_of_lane_concat (lanes : list (list Block)) (j : nat) (lane : list Block)
    (a : Block) :
  lanes !! j = Some lane -> a ∈ lane -> a ∈ concat lanes.
Proof.
  intros Hj Ha. apply list_elem_of_In, in_concat. exists lane.
  split; apply list_elem_of_In; [eapply list_elem_of_lookup_2; exact Hj|exact Ha].
Qed.

Lemma fold_place_first_fit (norm : list Block) (lanes : list (list Block)) :
  Forall (fun lane => lane <> []) lanes -> first_fit lanes ->
  StronglySorted (fun a b => start_ms a <= start_ms b) norm ->
  (forall a t, a ∈ concat lanes -> t ∈ norm -> start_ms a <= start_ms t) ->
  first_fit (fold_left (fun lanes b => place b lanes) norm lanes).
Proof.
  revert lanes. induction norm as [|b norm IH]; intros lanes Hne Hfit Hs Hle; cbn;
    [exact Hfit|].
  apply StronglySorted_inv in Hs as [Hs Hb]. rewrite Forall_forall in Hb.
  assert (Hbin : b ∈ b :: norm) by left.
  apply IH; [apply place_nonempty; exact Hne| |exact Hs|].
  - destruct (place_cases b lanes Hne) as [(j0 & lane0 & Hj0 & Hp & Hbefore)|[Hp Hall]];
      rewrite Hp; intros k j b1 lane_k lane_j Hjk Hk Hb1 Hj.
    + pose proof (lookup_lt_Some _ _ _ Hj0) as Hlt0.
      assert (Hold : forall lane_j0, lanes !! j = Some lane_j0 ->
                (exists a, a ∈ lane_j0 /\ start_ms a <= start_ms b1 /\
                           start_ms b1 < end_ms a) ->
                exists a, a ∈ lane_j /\ start_ms a <= start_ms b1 /\
                          start_ms b1 < end_ms a).
      { intros lane_j0 Hj' (a & Ha & Hab).
        destruct (decide (j = j0)) as [->|Hnj].
        - rewrite list_lookup_insert_eq in Hj by exact Hlt0. injection Hj as <-.
          rewrite Hj0 in Hj'. injection Hj' as <-.
          exists a. split; [apply elem_of_app; left; exact Ha|exact Hab].
        - rewrite list_lookup_insert_ne in Hj by congruence.
          rewrite Hj in Hj'. injection Hj' as <-. eauto. }
      assert (Hjl : exists lane_j0, lanes !! j = Some lane_j0).
      { destruct (decide (j = j0)) as [->|Hnj]; [eauto|].
        rewrite list_lookup_insert_ne in Hj by congruence. eauto. }
      destruct Hjl as [lane_j0 Hj'].
      apply (Hold lane_j0 Hj').
      destruct (decide (k = j0)) as [->|Hnk].
      * rewrite list_lookup_insert_eq in Hk by exact Hlt0. injection Hk as <-.
        apply elem_of_app in Hb1 as [Hb1|Hb1].
        -- apply (Hfit j0 j b1 lane0 lane_j0 Hjk Hj0 Hb1 Hj').
        -- apply list_elem_of_singleton in Hb1 as ->.
           destruct (Hbefore j lane_j0 Hjk Hj') as (a & Hlast & Hend).
           pose proof (last_elem_of _ _ Hlast) as Ha.
           exists a. split; [exact Ha|]. split; [|exact Hend].
           apply Hle; [eapply elem_of_lane_concat; eassumption|exact Hbin].
      * rewrite list_lookup_insert_ne in Hk by congruence.
        apply (Hfit k j b1 lane_k lane_j0 Hjk Hk Hb1 Hj').
    + assert (Hj' : lanes !! j = Some lane_j).
      { rewrite lookup_app_l in Hj; [exact Hj|].
        apply lookup_lt_Some in Hk. rewrite length_app in Hk. cbn in Hk. lia. }
      destruct (decide (k < length lanes)%nat) as [Hlt|Hge].
      * rewrite lookup_app_l in Hk by exact Hlt.
        apply (Hfit k j b1 lane_k lane_j Hjk Hk Hb1 Hj').
      * rewrite lookup_app_r in Hk by lia.
        destruct (k - length lanes)%nat as [|n] eqn:En; [|destruct n; discriminate].
        cbn in Hk. injection Hk as <-.
        apply list_elem_of_singleton in Hb1 as ->.
        assert (Hin : lane_j ∈ lanes) by (eapply list_elem_of_lookup_2; exact Hj').
        destruct (Hall lane_j Hin) as (a & Hlast & Hend).
        pose proof (last_elem_of _ _ Hlast) as Ha.
        exists a. split; [exact Ha|]. split; [|exact Hend].
        apply Hle; [eapply elem_of_lane_concat; eassumption|exact Hbin].
  - intros a t Ha Ht. rewrite place_perm in Ha.
    apply elem_of_cons in Ha as [->|Ha]; [apply Hb; exact Ht|].
    apply Hle; [exact Ha|right; exact Ht].
Qed.

(** The stacking is a first fit: every block of every lane starts inside a
    block of each lane before its own (a block that has started and has not
    ended), so that no block could have been put in a lane before its own
    and no lane could have been saved. *)
Theorem lanes_opened_when_needed (blocks : list Block) :
  forall (k j : nat) (b : Block) (lane_k lane_j : list Block),
    (j < k)%nat ->
    stack_blocks_into_lanes blocks !! k = Some lane_k -> b ∈ lane_k ->
    stack_blocks_into_lanes blocks !! j = Some lane_j ->
    exists a, a ∈ lane_j /\ start_ms a <= start_ms b /\ start_ms b < end_ms a.
Proof.
  change (first_fit (stack_blocks_into_lanes blocks)).
  unfold stack_blocks_into_lanes. destruct blocks as [|b0 blocks].
  - intros k j b lane_k lane_j _ Hk. rewrite lookup_nil in Hk. discriminate.
  - apply fold_place_first_fit.
    + constructor.
    + intros k j b lane_k lane_j _ Hk. rewrite lookup_nil in Hk. discriminate.
    + apply sorted_keys_starts, sort_blocks_keys.
    + intros a t Ha. inversion Ha.
Qed.

Lemma lanes_opened_when_needed_witness :
  exists a, a ∈ [mkBlock 0 0 10; mkBlock 2 10 30] /\
            start_ms a <= start_ms (mkBlock 3 12 25) /\
            start_ms (mkBlock 3 12 25) < end_ms a.
Proof.
  apply (lanes_opened_when_needed
           [mkBlock 0 0 10; mkBlock 1 5 20; mkBlock 2 10 30; mkBlock 3 12 25]
           2%nat 0%nat (mkBlock 3 12 25) [mkBlock 3 12 25]
           [mkBlock 0 0 10; mkBlock 2 10 30]);
    [lia|reflexivity|left|reflexivity].
Defined.

End LanesMore.



(** ** widgets/video_grid.py: sources, play gate and synchronisation *)

Section GridMore.

Import Py VideoGrid.

Lemma loaded_true (vid : string) (g : t) :
  loaded vid g = true <-> is_Some (_players g !! vid).
Proof.
  unfold loaded. destruct (_players g !! vid); split; intros H;
    try reflexivity; try discriminate; eauto. destruct H; discriminate.
Qed.

(** Exactly one loaded player is audible after [set_audio_source]: the new
    audio source has volume 100 and every other player volume 0; nothing
    else of a player changes, and an id that is not loaded is ignored. *)
Theorem audio_source_exclusive (video_id : string) (g : t) :
  (loaded video_id g = false -> set_audio_source video_id g = g) /\
  (loaded video_id g = true ->
   let g' := set_audio_source video_id g in
   _audio_source_id g' = Some video_id /\
   (forall vid, _players g' !! vid =
      setVolume (if decide (vid = video_id) then 100 else 0) <$> _players g !! vid) /\
   (forall vid p, _players g' !! vid = Some p -> (volume p <> 0 <-> vid = video_id)) /\
   (exists p, _players g' !! video_id = Some p /\ volume p = 100) /\
   _cells g' = _cells g /\ _active_view_ids g' = _active_view_ids g /\
   _time_source_id g' = _time_source_id g).
Proof.
  unfold set_audio_source. split.
  - intros ->. reflexivity.
  - intros Hl. rewrite Hl. cbn [negb]. cbv zeta.
    assert (Hlook : forall vid,
      map_imap (fun vid p => Some (setVolume (if String.eqb vid video_id then 100 else 0) p))
        (_players g) !! vid =
      setVolume (if decide (vid = video_id) then 100 else 0) <$> _players g !! vid).
    { intros vid. rewrite map_lookup_imap.
      destruct (_players g !! vid) as [p|]; [|reflexivity]. cbn.
      destruct (String.eqb_spec vid video_id), (decide (vid = video_id));
        try contradiction; reflexivity. }
    cbn [_audio_source_id _players _cells _active_view_ids _time_source_id
         with_players with_audio_source_id].
    split; [reflexivity|]. split; [exact Hlook|]. split; [|split].
    + intros vid p. rewrite Hlook.
      destruct (_players g !! vid) as [p0|]; [|discriminate]. cbn. intros [= <-]. cbn.
      destruct (decide (vid = video_id)); split; intros; try lia; try contradiction; auto.
    + apply loaded_true in Hl as [p0 Hp0]. exists (setVolume 100 p0).
      rewrite Hlook, Hp0. cbn. destruct (decide (video_id = video_id)); [|contradiction].
      split; reflexivity.
    + repeat split.
Qed.

Lemma audio_source_exclusive_witness :
  exists p, _players (set_audio_source "video-2" (sample_grid 10000 8000 12000))
              !! "video-2"%string = Some p /\ volume p = 100.
Proof.
  pose proof (audio_source_exclusive "video-2" (sample_grid 10000 8000 12000)) as [_ H].
  destruct H as (_ & _ & _ & Hp & _); [vm_compute; reflexivity|]. exact Hp.
Defined.

(** The gate and [_status_ready] agree on every status. *)
Lemma status_gates_ready (st : MediaStatus) : status_gates st = negb (_status_ready st).
Proof. destruct st; reflexivity. Qed.

(** [_needs_buffer_gate] answers no exactly when every relevant player,
    a player of an active view or, without active views, any player, has a
    status that [_status_ready] lets pass. *)
Lemma needs_gate_false (g : t) :
  _needs_buffer_gate g = false <-> gate_open g.
Proof.
  unfold _needs_buffer_gate, gate_open.
  set (f := fun vid => match _players g !! vid with
                       | Some p => status_gates (mediaStatus p)
                       | None => false end).
  assert (Hgen : forall ids, existsb f ids = false <->
            forall vid p, vid ∈ ids -> _players g !! vid = Some p ->
                          _status_ready (mediaStatus p) = true).
  { intros ids. split.
    - intros H vid p Hin Hp.
      destruct (_status_ready (mediaStatus p)) eqn:Er; [reflexivity|].
      assert (Ht : existsb f ids = true).
      { apply existsb_exists. exists vid. split; [apply list_elem_of_In; exact Hin|].
        unfold f. rewrite Hp, status_gates_ready, Er. reflexivity. }
      congruence.
    - intros H. apply not_true_is_false. intros Ht.
      apply existsb_exists in Ht as (vid & Hin & Hs). unfold f in Hs.
      destruct (_players g !! vid) as [p|] eqn:Hp; [|discriminate].
      rewrite status_gates_ready, (H vid p) in Hs; [discriminate| |exact Hp].
      apply list_elem_of_In. exact Hin. }
  destruct (_active_view_ids g) as [|v vs] eqn:Ea.
  - rewrite Hgen. split.
    + intros H vid p _ Hp. apply (H vid p); [|exact Hp].
      apply list_elem_of_fmap. exists (vid, p). split; [reflexivity|].
      apply elem_of_map_to_list. exact Hp.
    + intros H vid p _ Hp. apply (H vid p); [left; reflexivity|exact Hp].
  - rewrite Hgen. split.
    + intros H vid p [Hnil|Hin] Hp; [discriminate|]. apply (H vid p Hin Hp).
    + intros H vid p Hin Hp. apply (H vid p); [right; exact Hin|exact Hp].
Qed.

(** The buffer gate of [play_all].  Without a player nothing happens.
    With the gate open, that is when every player of an active view (every
    player, when no view is active) has a status that [_status_ready] lets
    pass, every player is started at once, those of hidden views too, and
    no play stays pending.  With the gate closed no player is started and
    the play is pending.  The tick of the gate does nothing while no play
    is pending; it carries out a pending play, starting every player, as
    soon as the gate is open or the deadline has passed, and leaves the
    play pending otherwise. *)
Theorem play_gate (g : t) (expired : bool) :
  (_players g = ∅ -> play_all g = g) /\
  (_players g <> ∅ -> gate_open g ->
   play_all g = play_players (with_pending_play false g)) /\
  (_players g <> ∅ -> ~ gate_open g -> play_all g = with_pending_play true g) /\
  (_pending_play g = false -> _play_gate_tick expired g = g) /\
  (_pending_play g = true -> gate_open g \/ expired = true ->
   _play_gate_tick expired g = play_players (with_pending_play false g)) /\
  (_pending_play g = true -> ~ gate_open g -> expired = false ->
   _play_gate_tick expired g = g) /\
  _pending_play (play_players (with_pending_play false g)) = false /\
  (forall vid, _players (play_players (with_pending_play false g)) !! vid =
               setState PlayingState <$> _players g !! vid) /\
  _players (with_pending_play true g) = _players g.
Proof.
  pose proof (needs_gate_false g) as Hgate.
  unfold play_all, _request_play_with_buffer_gate, _play_gate_tick.
  split; [|split; [|split; [|split; [|split; [|split; [|split; [|split]]]]]]].
  - intros He. rewrite bool_decide_eq_true_2 by exact He. reflexivity.
  - intros Hne Hopen. rewrite bool_decide_eq_false_2 by exact Hne.
    rewrite (proj2 Hgate Hopen). reflexivity.
  - intros Hne Hclosed. rewrite bool_decide_eq_false_2 by exact Hne.
    destruct (_needs_buffer_gate g) eqn:E; [reflexivity|].
    exfalso. apply Hclosed, Hgate. reflexivity.
  - intros Hp. rewrite Hp. reflexivity.
  - intros Hp [Hopen| ->]; rewrite Hp; cbn [negb].
    + rewrite (proj2 Hgate Hopen). reflexivity.
    + rewrite orb_true_r. reflexivity.
  - intros Hp Hclosed ->. rewrite Hp. cbn [negb].
    destruct (_needs_buffer_gate g) eqn:E; [reflexivity|].
    exfalso. apply Hclosed, Hgate. reflexivity.
  - reflexivity.
  - intros vid. cbn. apply lookup_fmap.
  - reflexivity.
Qed.

Lemma sync_players_lookup (master_id : string) (target : Z)
    (ps : gmap string Player) (vid : string) :
  map_imap (fun vid p => Some (sync_player master_id target vid p)) ps !! vid =
  sync_player master_id target vid <$> ps !! vid.
Proof. rewrite map_lookup_imap. destruct (ps !! vid); reflexivity. Qed.

Lemma sync_player_near (master_id : string) (target : Z) (vid : string) (p : Player) :
  Z.abs (position p - target) <= 200 -> sync_player master_id target vid p = p.
Proof.
  intros H. unfold sync_player. destruct (String.eqb vid master_id); [reflexivity|].
  destruct (Z.ltb_spec 200 (Z.abs (position p - target))); [lia|reflexivity].
Qed.

Lemma time_source_player_Some (g : t) (master : Player) :
  _time_source_player g = Some master ->
  exists id, _time_source_id g = Some id /\ _players g !! id = Some master.
Proof.
  unfold _time_source_player. destruct (_time_source_id g) as [id|]; [|discriminate].
  destruct (String.eqb id EmptyString); [discriminate|]. eauto.
Qed.

Lemma with_cells_same (g : t) : with_cells (_cells g) g = g.
Proof. destruct g; reflexivity. Qed.

Lemma update_black_cells_fixed (pos : Z) (g : t) :
  _update_black_cells pos (_update_black_cells pos g) = _update_black_cells pos g.
Proof.
  set (g1 := _update_black_cells pos g).
  unfold _update_black_cells.
  assert (Hc : fold_left (update_black_cell g1 pos) (_active_view_ids g1) (_cells g1)
               = _cells g1).
  { apply map_eq. intros vid. rewrite fold_update_lookup.
    destruct (decide (vid ∈ _active_view_ids g1)) as [Hin|_]; [|reflexivity].
    change (_active_view_ids g1) with (_active_view_ids g) in Hin.
    change (_cells g1)
      with (fold_left (update_black_cell g pos) (_active_view_ids g) (_cells g)).
    rewrite fold_update_lookup.
    destruct (decide (vid ∈ _active_view_ids g)) as [_|Hn]; [|contradiction].
    unfold refreshed. change (_players g1) with (_players g).
    destruct (_cells g !! vid) as [c|]; [|reflexivity].
    destruct (_players g !! vid) as [p|] eqn:Hp; [rewrite ?Hp|rewrite ?Hp]; reflexivity. }
  rewrite Hc. apply with_cells_same.
Qed.

(** The synchronisation tick.  It does nothing unless the time source is
    loaded and playing.  When the time source has reached its own duration,
    every player is stopped and the end is announced.  Otherwise the time
    source is left alone, every other player that drifted by more than
    200 ms is sent to the position of the time source and made to play, the
    others are untouched, so that every player ends within 200 ms of the
    time source; the cells follow the rule, and a second tick changes
    nothing. *)
Theorem sync_tick_corrects_drift (g : t) (master : Player) :
  _time_source_player g = Some master ->
  (state master <> PlayingState -> _sync_tick g = (g, false)) /\
  (state master = PlayingState -> 0 < duration master <= position master ->
   _sync_tick g = (stop_all g, true) /\
   forall vid p, _players (stop_all g) !! vid = Some p -> state p = StoppedState) /\
  (state master = PlayingState -> ~ 0 < duration master <= position master ->
   let g' := (_sync_tick g).1 in
   let target := position master in
   (_sync_tick g).2 = false /\
   _time_source_player g' = Some master /\
   (forall vid p', _players g' !! vid = Some p' -> Z.abs (position p' - target) <= 200) /\
   (forall vid p, _players g !! vid = Some p -> Z.abs (position p - target) <= 200 ->
                  _players g' !! vid = Some p) /\
   (forall vid p, _time_source_id g <> Some vid -> _players g !! vid = Some p ->
                  200 < Z.abs (position p - target) ->
                  _players g' !! vid = Some (setState PlayingState (setPosition target p))) /\
   masks_agree g' /\
   (_sync_tick g').1 = g').
Proof.
  intros Hm. destruct (time_source_player_Some g master Hm) as (mid & Hid & Hpm).
  unfold _sync_tick. rewrite Hid, Hm. split; [|split].
  - intros Hs. destruct (state master); [reflexivity|contradiction|reflexivity].
  - intros Hs Hend. rewrite Hs.
    destruct (Z.ltb_spec 0 (duration master)); [|lia].
    destruct (Z.leb_spec (duration master) (position master)); [|lia].
    split; [reflexivity|]. intros vid p. unfold stop_all. cbn.
    rewrite lookup_fmap. destruct (_players g !! vid); [|discriminate].
    cbn. intros [= <-]. reflexivity.
  - intros Hs Hend. rewrite Hs.
    assert (Hcond : (0 <? duration master) && (duration master <=? position master) = false).
    { destruct (Z.ltb_spec 0 (duration master)),
               (Z.leb_spec (duration master) (position master)); try reflexivity. lia. }
    rewrite Hcond. cbv zeta. cbn [fst snd].
    set (ps' := map_imap (fun vid p => Some (sync_player mid (position master) vid p))
                         (_players g)).
    set (g1 := with_players ps' g).
    assert (Hmaster' : ps' !! mid = Some master).
    { unfold ps'. rewrite sync_players_lookup, Hpm. cbn. unfold sync_player.
      rewrite String.eqb_refl. reflexivity. }
    assert (Htsp : forall h, _players h = ps' -> _time_source_id h = Some mid ->
                             _time_source_player h = Some master).
    { intros h Hp Ht. unfold _time_source_player in *. rewrite Ht, Hp.
      rewrite Hid in Hm. destruct (String.eqb mid EmptyString); [discriminate|].
      exact Hmaster'. }
    assert (Hg1 : _time_source_player g1 = Some master) by (apply Htsp; [reflexivity|exact Hid]).
    assert (Hnear : forall vid p', ps' !! vid = Some p' ->
                                   Z.abs (position p' - position master) <= 200).
    { intros vid p'. unfold ps'. rewrite sync_players_lookup.
      destruct (_players g !! vid) as [p|] eqn:Hp; [|discriminate]. cbn. intros [= <-].
      unfold sync_player. destruct (String.eqb_spec vid mid) as [->|Hne].
      - rewrite Hpm in Hp. injection Hp as <-. lia.
      - destruct (Z.ltb_spec 200 (Z.abs (position p - position master))); cbn; lia. }
    split; [reflexivity|]. split; [apply Htsp; [reflexivity|exact Hid]|].
    split; [exact Hnear|]. split; [|split; [|split]].
    + intros vid p Hp Hn. cbn. fold ps'. unfold ps'.
      rewrite sync_players_lookup, Hp. cbn. rewrite sync_player_near by exact Hn.
      reflexivity.
    + intros vid p Hne Hp Hfar. cbn. fold ps'. unfold ps'.
      rewrite sync_players_lookup, Hp. cbn. unfold sync_player.
      destruct (String.eqb_spec vid mid) as [->|_]; [congruence|].
      destruct (Z.ltb_spec 200 (Z.abs (position p - position master))); [reflexivity|lia].
    + pose proof (update_black_cells_agree g1) as Hag.
      unfold _current_master_position in Hag at 1. rewrite Hg1 in Hag. exact Hag.
    + assert (Hts' : _time_source_player (_update_black_cells (position master) g1)
                     = Some master) by (apply Htsp; [reflexivity|exact Hid]).
      change (_time_source_id (_update_black_cells (position master) g1))
        with (_time_source_id g).
      rewrite Hid, Hts', Hs, Hcond. cbn [fst].
      assert (Hps : map_imap (fun vid p => Some (sync_player mid (position master) vid p))
                      (_players (_update_black_cells (position master) g1)) = ps').
      { change (_players (_update_black_cells (position master) g1)) with ps'.
        apply map_eq. intros vid. rewrite sync_players_lookup.
        destruct (ps' !! vid) as [p'|] eqn:Hp'; [|reflexivity]. cbn.
        rewrite sync_player_near by (eapply Hnear; exact Hp'). reflexivity. }
      rewrite Hps.
      assert (Hsame : with_players ps' (_update_black_cells (position master) g1)
                      = _update_black_cells (position master) g1) by reflexivity.
      rewrite Hsame. apply update_black_cells_fixed.
Qed.

Lemma sync_tick_corrects_drift_witness :
  let g := with_players
             (<["video-3" := mkPlayer 5000 12000 PlayingState BufferedMedia 100 None]>
                (_players (sample_grid 10000 8000 12000)))
             (sample_grid 10000 8000 12000) in
  (_sync_tick g).2 = false /\
  _players (_sync_tick g).1 !! "video-1" =
    Some (setState PlayingState (setPosition 5000 (sample_player 10000))).
Proof.
  intros g.
  pose proof (sync_tick_corrects_drift g
                (mkPlayer 5000 12000 PlayingState BufferedMedia 100 None)) as H.
  destruct H as (_ & _ & H); [vm_compute; reflexivity|].
  destruct H as (He & _ & _ & _ & Hfar & _); [reflexivity|cbn; lia|].
  split; [exact He|].
  apply (Hfar "video-1" (sample_player 10000));
    [vm_compute; discriminate|vm_compute; reflexivity|vm_compute; reflexivity].
Defined.

(** [set_active_views] shows only loaded videos: the requested ids that are
    loaded, in the order and with the repetitions of the request; when none
    of them is loaded, the first loaded video alone, so that the grid is
    empty only if nothing is loaded.  The players and the sources are left
    alone and the cells follow the rule at the position of the time
    source. *)
Theorem set_active_views_loaded (first_id : option string)
    (video_ids : list string) (g : t) :
  match first_id with
  | Some id0 => is_Some (_players g !! id0)
  | None => _players g = ∅
  end ->
  let g' := set_active_views first_id video_ids g in
  let wanted := filter (fun vid => loaded vid g) video_ids in
  (forall vid, vid ∈ _active_view_ids g' -> is_Some (_players g !! vid)) /\
  (wanted <> [] -> _active_view_ids g' = wanted) /\
  (wanted = [] -> _active_view_ids g' = option_list first_id) /\
  (_active_view_ids g' = [] <-> _players g = ∅) /\
  _players g' = _players g /\
  _time_source_id g' = _time_source_id g /\
  _audio_source_id g' = _audio_source_id g /\
  masks_agree g'.
Proof.
  intros Hfirst g' wanted.
  assert (Hw : forall vid, vid ∈ wanted -> is_Some (_players g !! vid)).
  { intros vid Hin. apply list_elem_of_filter in Hin as [Hin _].
    apply loaded_true, Is_true_true. exact Hin. }
  set (ids := match wanted, first_id with
              | [], Some id0 => if bool_decide (_players g = ∅) then [] else [id0]
              | _, _ => wanted
              end).
  assert (Hact : _active_view_ids g' = ids) by reflexivity.
  assert (Hne : wanted <> [] -> ids = wanted).
  { unfold ids. destruct wanted; [congruence|reflexivity]. }
  assert (He : wanted = [] -> ids = option_list first_id).
  { intros ->. unfold ids. destruct first_id as [id0|]; [|reflexivity].
    destruct Hfirst as [p Hp]. rewrite bool_decide_eq_false_2; [reflexivity|].
    intros Hemp. rewrite Hemp, lookup_empty in Hp. discriminate. }
  rewrite Hact. repeat split; try reflexivity.
  - intros vid Hin. destruct wanted as [|w ws] eqn:Hwd.
    + rewrite (He eq_refl) in Hin. destruct first_id as [id0|]; cbn in Hin.
      * apply list_elem_of_singleton in Hin as ->. exact Hfirst.
      * inversion Hin.
    + rewrite Hne in Hin by discriminate. apply Hw. exact Hin.
  - exact Hne.
  - exact He.
  - intros Hids. destruct wanted as [|w ws] eqn:Hwd.
    + rewrite (He eq_refl) in Hids. destruct first_id; [discriminate|exact Hfirst].
    + rewrite Hne in Hids by discriminate. discriminate.
  - intros Hemp. destruct wanted as [|w ws] eqn:Hwd.
    + rewrite (He eq_refl). destruct first_id as [id0|]; [|reflexivity].
      destruct Hfirst as [p Hp]. rewrite Hemp, lookup_empty in Hp. discriminate.
    + destruct (Hw w) as [p Hp]; [left|].
      rewrite Hemp, lookup_empty in Hp. discriminate.
  - apply (update_black_cells_agree (with_active_view_ids ids g)).
Qed.

Lemma set_active_views_loaded_witness :
  _active_view_ids
    (set_active_views (Some "video-1") ["video-9"; "video-3"; "video-2"; "video-3"]
       (sample_grid 10000 8000 12000))
  = ["video-3"; "video-2"; "video-3"].
Proof.
  pose proof (set_active_views_loaded (Some "video-1")
                ["video-9"; "video-3"; "video-2"; "video-3"]
                (sample_grid 10000 8000 12000)) as H.
  destruct H as (_ & H & _); [vm_compute; eauto|]. apply H. vm_compute. discriminate.
Defined.

(** [set_time_source] ignores a video that is not loaded.  For a loaded one
    it becomes the time source, its duration is announced once, the players
    and the views are left alone, and the cells follow the rule at the
    position of the new time source. *)
Theorem set_time_source_known (video_id : string) (g : t) :
  (_players g !! video_id = None -> set_time_source video_id g = (g, [])) /\
  (forall p, _players g !! video_id = Some p ->
     let g' := (set_time_source video_id g).1 in
     (set_time_source video_id g).2 = [time_duration_changed (duration p)] /\
     _time_source_id g' = Some video_id /\
     _players g' = _players g /\
     _active_view_ids g' = _active_view_ids g /\
     (video_id <> EmptyString -> _current_master_position g' = position p) /\
     masks_agree g').
Proof.
  unfold set_time_source. split.
  - intros ->. reflexivity.
  - intros p Hp. rewrite Hp. cbv zeta. cbn [fst snd].
    repeat split.
    + intros Hne. unfold _current_master_position, _time_source_player.
      cbn [_time_source_id _update_black_cells with_cells with_time_source_id _players].
      destruct (String.eqb_spec video_id EmptyString) as [->|_]; [contradiction|].
      rewrite Hp. reflexivity.
    + apply (update_black_cells_agree (with_time_source_id (Some video_id) g)).
Qed.

Lemma set_time_source_known_witness :
  (set_time_source "video-2" (sample_grid 10000 8000 12000)).2
  = [time_duration_changed 8000].
Proof.
  pose proof (set_time_source_known "video-2" (sample_grid 10000 8000 12000)) as [_ H].
  destruct (H (sample_player 8000)) as [Hs _];
    [vm_compute; reflexivity|]. exact Hs.
Defined.

End GridMore.



(** ** The timeline canvas: pixels and times, and the indices it keeps *)

Section TimelineMore.

Import Py TimeUtils SkillTimeline.

Lemma float_nonzero (d : Z) : 0 < d -> ~ (float d == 0)%Q.
Proof.
  intros Hd H. unfold float, Qeq in H. cbn in H. lia.
Qed.

Lemma float_pos (d : Z) : 0 < d -> (0 < float d)%Q.
Proof. intros Hd. unfold float. change 0%Q with (inject_Z 0). rewrite <- Zlt_Qlt. exact Hd. Qed.

Lemma scale_mono (a b n d : Z) :
  0 < d -> 0 <= n -> a <= b ->
  (float a / float d * float n <= float b / float d * float n)%Q.
Proof.
  intros Hd Hn Hab. apply Qmult_le_compat_r.
  - unfold Qdiv. apply Qmult_le_compat_r.
    + unfold float. rewrite <- Zle_Qle. exact Hab.
    + apply Qlt_le_weak, Qinv_lt_0_compat, float_pos. exact Hd.
  - unfold float. change 0%Q with (inject_Z 0). rewrite <- Zle_Qle. exact Hn.
Qed.

Lemma scale_zero (n d : Z) : round (float 0 / float d * float n)%Q = 0.
Proof.
  rewrite (round_proper _ (inject_Z 0)); [apply round_inject_Z|].
  unfold float, Qdiv. change (inject_Z 0) with 0%Q. ring.
Qed.

Lemma scale_full (n d : Z) : 0 < d -> round (float d / float d * float n)%Q = n.
Proof.
  intros Hd. rewrite (round_proper _ (inject_Z n)); [apply round_inject_Z|].
  unfold float. field. apply (float_nonzero d Hd).
Qed.

(** The two maps between times and pixel columns are monotone and stay in
    their ranges: a time lands between the left padding and the right end
    of the drawing width, a pixel column lands between 0 and the duration.
    With a positive duration the ends correspond: time 0 and every earlier
    time map to the left padding, the duration and every later time to the
    right end, and back. *)
Theorem pixel_time_maps_monotone (c : Canvas) :
  let w := Z.max 1 (width c - 2 * _pad_x) in
  let d := _duration_ms c in
  (forall ms, _pad_x <= _ms_to_x ms c <= _pad_x + w) /\
  (forall a b, a <= b -> _ms_to_x a c <= _ms_to_x b c) /\
  (forall x y, x <= y -> _x_to_ms x c <= _x_to_ms y c) /\
  (0 < d ->
   (forall ms, ms <= 0 -> _ms_to_x ms c = _pad_x) /\
   (forall ms, d <= ms -> _ms_to_x ms c = _pad_x + w) /\
   (forall x, x <= _pad_x -> _x_to_ms x c = 0) /\
   (forall x, _pad_x + w <= x -> _x_to_ms x c = d)).
Proof.
  intros w d.
  assert (Hw : 0 < w) by (unfold w; lia).
  assert (Hms : forall a b, 0 < d -> a <= b ->
            round (float (Z.max 0 (Z.min a d)) / float d * float w)%Q <=
            round (float (Z.max 0 (Z.min b d)) / float d * float w)%Q).
  { intros a b Hd Hab. apply round_mono, scale_mono; lia. }
  assert (Hx : forall x y, 0 < d -> x <= y ->
            round (float (x - _pad_x) / float w * float d)%Q <=
            round (float (y - _pad_x) / float w * float d)%Q).
  { intros x y Hd Hxy. apply round_mono, scale_mono; lia. }
  assert (Hlo : forall ms, 0 < d -> ms <= 0 ->
            round (float (Z.max 0 (Z.min ms d)) / float d * float w)%Q = 0).
  { intros ms Hd H. replace (Z.max 0 (Z.min ms d)) with 0 by lia. apply scale_zero. }
  assert (Hhi : forall ms, 0 < d -> d <= ms ->
            round (float (Z.max 0 (Z.min ms d)) / float d * float w)%Q = w).
  { intros ms Hd H. replace (Z.max 0 (Z.min ms d)) with d by lia.
    apply scale_full. exact Hd. }
  assert (Hxlo : 0 < d -> round (float (_pad_x - _pad_x) / float w * float d)%Q = 0).
  { intros _. replace (_pad_x - _pad_x) with 0 by lia. apply scale_zero. }
  assert (Hxhi : 0 < d -> round (float (_pad_x + w - _pad_x) / float w * float d)%Q = d).
  { intros _. replace (_pad_x + w - _pad_x) with w by lia. apply scale_full. exact Hw. }
  unfold _ms_to_x, _x_to_ms. fold d. fold w. cbv zeta.
  destruct (Z.leb_spec d 0) as [Hd|Hd].
  - repeat split; intros; lia.
  - split; [|split; [|split]].
    + intros ms.
      destruct (Z.le_ge_cases ms 0) as [H|H].
      * rewrite (Hlo ms Hd H). lia.
      * pose proof (Hms 0 ms Hd H) as H1. rewrite (Hlo 0 Hd) in H1 by lia.
        destruct (Z.le_ge_cases ms d) as [H'|H'].
        -- pose proof (Hms ms d Hd H') as H2. rewrite (Hhi d Hd) in H2 by lia. lia.
        -- rewrite (Hhi ms Hd H'). lia.
    + intros a b Hab. pose proof (Hms a b Hd Hab). lia.
    + intros x y Hxy. pose proof (Hx x y Hd Hxy). lia.
    + intros _. split; [|split; [|split]].
      * intros ms H. rewrite (Hlo ms Hd H). lia.
      * intros ms H. rewrite (Hhi ms Hd H). lia.
      * intros x H. pose proof (Hx x _pad_x Hd H) as H1. rewrite (Hxlo Hd) in H1. lia.
      * intros x H. pose proof (Hx (_pad_x + w) x Hd H) as H1.
        rewrite (Hxhi Hd) in H1. lia.
Qed.

(** When the duration is at least the drawing width, so that every pixel
    column covers a millisecond or more, the time under a pixel column of
    the drawing maps back to that column. *)
Theorem pixel_time_pixel (x : Z) (c : Canvas) :
  let w := Z.max 1 (width c - 2 * _pad_x) in
  w <= _duration_ms c ->
  _pad_x <= x <= _pad_x + w ->
  _ms_to_x (_x_to_ms x c) c = x.
Proof.
  intros w Hd Hx.
  assert (Hw : 0 < w) by (unfold w; lia).
  set (d := _duration_ms c) in *.
  assert (Hd0 : 0 < d) by lia.
  set (k := x - _pad_x).
  assert (Hk : 0 <= k <= w) by (unfold k; lia).
  set (ms0 := round (float k / float w * float d)%Q).
  assert (Hlo : 0 <= ms0).
  { unfold ms0. rewrite <- (scale_zero d w). apply round_mono, scale_mono; lia. }
  assert (Hhi : ms0 <= d).
  { unfold ms0. rewrite <- (scale_full d w Hw) at 2. apply round_mono, scale_mono; lia. }
  assert (Hxm : _x_to_ms x c = ms0).
  { unfold _x_to_ms. fold d. fold w. cbv zeta. fold k. fold ms0.
    destruct (Z.leb_spec d 0); lia. }
  rewrite Hxm. unfold _ms_to_x. fold d. fold w. cbv zeta.
  destruct (Z.leb_spec d 0); [lia|].
  replace (Z.max 0 (Z.min ms0 d)) with ms0 by lia.
  enough (Hr : round (float ms0 / float d * float w)%Q = k) by (rewrite Hr; unfold k; lia).
  pose proof (float_pos w Hw) as Hwq. pose proof (float_pos d Hd0) as Hdq.
  assert (Hdw : (float w <= float d)%Q) by (unfold float; rewrite <- Zle_Qle; exact Hd).
  pose proof (round_bounds (float k / float w * float d)%Q) as [Hb1 Hb2].
  fold ms0 in Hb1, Hb2. fold (float ms0) in Hb1, Hb2.
  destruct (Z.eq_dec w d) as [Heq|Hne].
  - assert (Hms : ms0 = k).
    { unfold ms0. rewrite <- Heq. rewrite (round_proper _ (inject_Z k)).
      - apply round_inject_Z.
      - unfold float. field. apply (float_nonzero w Hw). }
    rewrite Hms, <- Heq. rewrite (round_proper _ (inject_Z k)).
    + apply round_inject_Z.
    + unfold float. field. apply (float_nonzero w Hw).
  - assert (Hlt : (float w < float d)%Q) by (unfold float; rewrite <- Zlt_Qlt; lia).
    set (r := (float w / float d)%Q).
    assert (Hr0 : (0 < r)%Q).
    { unfold r, Qdiv. apply Qmult_lt_0_compat; [exact Hwq|].
      apply Qinv_lt_0_compat. exact Hdq. }
    assert (Hr1 : (r < 1)%Q).
    { unfold r. apply Qlt_shift_div_r; [exact Hdq|]. lra. }
    assert (He : (float ms0 / float d * float w == float ms0 * r)%Q).
    { unfold r. field. apply (float_nonzero d Hd0). }
    assert (Hkq : (float k == float k / float w * float d * r)%Q).
    { unfold r. field. split; [apply (float_nonzero d Hd0)|apply (float_nonzero w Hw)]. }
    set (y := (float k / float w * float d)%Q) in *.
    apply round_unique; fold (float k); rewrite He.
    + rewrite Hkq. nra.
    + rewrite Hkq. nra.
Qed.

Lemma pixel_time_pixel_witness :
  _ms_to_x (_x_to_ms 333 (sample_canvas [])) (sample_canvas []) = 333.
Proof.
  apply (pixel_time_pixel 333 (sample_canvas []));
    [vm_compute; discriminate|vm_compute; split; discriminate].
Defined.

Lemma in_range_spec {A : Type} (i : Z) (l : list A) :
  in_range i l = true <-> 0 <= i < Z.of_nat (length l).
Proof. unfold in_range. rewrite andb_true_iff, Z.leb_le, Z.ltb_lt. reflexivity. Qed.

Lemma in_range_decide {A : Type} (i : Z) (l : list A) :
  in_range i l = bool_decide (0 <= i < Z.of_nat (length l)).
Proof.
  destruct (in_range i l) eqn:E; symmetry.
  - apply bool_decide_eq_true, in_range_spec, E.
  - apply bool_decide_eq_false. rewrite <- in_range_spec. congruence.
Qed.

Lemma set_annotations_fields (annotations : list AnnotationRecord) (c : Canvas) :
  let c' := set_annotations annotations c in
  let keep (o : option Z) :=
    match o with
    | Some i => if in_range i annotations then Some i else None
    | None => None
    end in
  _annotations c' = annotations /\
  _lanes c' = compute_lanes_for_annotations annotations /\
  _selected_idx c' = keep (_selected_idx c) /\
  _editing_idx c' = keep (_editing_idx c) /\
  _drag_mode c' =
    match _editing_idx c with
    | Some i => if in_range i annotations then _drag_mode c else None
    | None => _drag_mode c
    end /\
  _edit_start_ms c' = _edit_start_ms c /\ _edit_end_ms c' = _edit_end_ms c /\
  _duration_ms c' = _duration_ms c.
Proof.
  unfold set_annotations. cbv zeta.
  cbn [_selected_idx _editing_idx with_annotations with_lanes].
  destruct (_selected_idx c) as [i|] eqn:Hs.
  - destruct (in_range i annotations) eqn:Hi.
    + cbn [_selected_idx _editing_idx with_annotations with_lanes].
      destruct (_editing_idx c) as [j|] eqn:He.
      * destruct (in_range j annotations) eqn:Hj; cbn; rewrite ?Hs, ?He;
          repeat split; reflexivity.
      * cbn. rewrite ?Hs, ?He. repeat split; reflexivity.
    + cbn [_selected_idx _editing_idx with_annotations with_lanes with_selected_idx].
      destruct (_editing_idx c) as [j|] eqn:He.
      * destruct (in_range j annotations) eqn:Hj; cbn; rewrite ?Hs, ?He;
          repeat split; reflexivity.
      * cbn. rewrite ?Hs, ?He. repeat split; reflexivity.
  - cbn [_selected_idx _editing_idx with_annotations with_lanes].
    destruct (_editing_idx c) as [j|] eqn:He.
    + destruct (in_range j annotations) eqn:Hj; cbn; rewrite ?Hs, ?He;
        repeat split; reflexivity.
    + cbn. rewrite ?Hs, ?He. repeat split; reflexivity.
Qed.

(** After [set_annotations] the canvas shows the new records in their lanes,
    and the selection and the edit point into them: each is kept when its
    index is still in range and dropped otherwise, and a dropped edit ends
    its drag.  The bounds of the edit are never reloaded from the new
    records. *)
Theorem set_annotations_indices (annotations : list AnnotationRecord) (c : Canvas) :
  let c' := set_annotations annotations c in
  let n := Z.of_nat (length annotations) in
  _annotations c' = annotations /\
  _lanes c' = compute_lanes_for_annotations annotations /\
  (forall i, _selected_idx c' = Some i -> 0 <= i < n) /\
  (forall i, _editing_idx c' = Some i -> 0 <= i < n) /\
  (forall i, _selected_idx c = Some i ->
     _selected_idx c' = if bool_decide (0 <= i < n) then Some i else None) /\
  (forall i, _editing_idx c = Some i ->
     if bool_decide (0 <= i < n)
     then _editing_idx c' = Some i /\ _drag_mode c' = _drag_mode c
     else _editing_idx c' = None /\ _drag_mode c' = None) /\
  (_selected_idx c = None -> _selected_idx c' = None) /\
  (_editing_idx c = None -> _editing_idx c' = None /\ _drag_mode c' = _drag_mode c) /\
  _edit_start_ms c' = _edit_start_ms c /\ _edit_end_ms c' = _edit_end_ms c /\
  _duration_ms c' = _duration_ms c.
Proof.
  intros c' n.
  destruct (set_annotations_fields annotations c)
    as (Ha & Hl & Hsel & Hed & Hdm & Hes & Hee & Hd).
  fold c' in Ha, Hl, Hsel, Hed, Hdm, Hes, Hee, Hd. cbv zeta in Hsel, Hed.
  assert (Hkeep : forall o i,
            match o with
            | Some k => if in_range k annotations then Some k else None
            | None => None
            end = Some i -> 0 <= i < n).
  { intros [k|] i; [|discriminate].
    destruct (in_range k annotations) eqn:E; [|discriminate].
    intros [= <-]. apply in_range_spec, E. }
  split; [exact Ha|]. split; [exact Hl|].
  split; [intros i Hi; rewrite Hsel in Hi; eapply Hkeep; exact Hi|].
  split; [intros i Hi; rewrite Hed in Hi; eapply Hkeep; exact Hi|].
  split; [intros i Hi; rewrite Hsel, Hi, in_range_decide; reflexivity|].
  split.
  { intros i Hi. rewrite Hed, Hdm, Hi, in_range_decide. fold n.
    destruct (bool_decide (0 <= i < n)); split; reflexivity. }
  split; [intros Hi; rewrite Hsel, Hi; reflexivity|].
  split; [intros Hi; rewrite Hed, Hdm, Hi; split; reflexivity|].
  split; [exact Hes|]. split; [exact Hee|exact Hd].
Qed.

End TimelineMore.



(** ** annotations_table.py: what an edit of a cell changes *)

Section TableMore.

Import Py TimeUtils AnnotationsTable.

Lemma with_records_same (tb : t) : with_records (_records tb) tb = tb.
Proof. destruct tb; reflexivity. Qed.




(** The edit of a cell of a row in range goes to the branch of its
    column. *)
Lemma apply_edit_in_range (row col : Z) (v : Text) (tb : t) (rec : AnnotationRecord) :
  0 <= row -> _records tb !! Z.to_nat row = Some rec ->
  (row <? 0) || (Z.of_nat (length (_records tb)) <=? row) = false.
Proof.
  intros Hrow Hrec. pose proof (lookup_lt_Some _ _ _ Hrec) as Hlen.
  destruct (Z.ltb_spec row 0); [lia|].
  destruct (Z.leb_spec (Z.of_nat (length (_records tb))) row); [lia|]. reflexivity.
Qed.

(** The shape of the table after [edit_time]. *)
Lemma edit_time_shape (row : nat) (rec : AnnotationRecord) (tb : t) :
  exists r, (edit_time row rec tb).1 = with_records (<[row := r]> (_records tb)) tb /\
            label r = label rec /\ camid r = camid rec /\
            time_source r = time_source rec /\ audio_source r = audio_source rec /\
            step_no r = step_no rec /\ step_name r = step_name rec /\
            confidence r = confidence rec /\ notes r = notes rec.
Proof.
  unfold edit_time. cbv zeta.
  destruct (recompute_from_times rec _) as [nr|e].
  - exists (take_times_frames rec nr). cbn [fst with_records _records _skills _fps_provider].
    rewrite list_insert_insert_eq. repeat split; reflexivity.
  - exists rec. repeat split; reflexivity.
Qed.

(** The table after the edit of a cell is the table before with at most the
    edited row replaced, by a record with the label, the cameras and the
    sources of the old one. *)
Lemma apply_edit_shape (row col : Z) (v : Text) (tb : t) :
  let tb' := (_apply_edit_to_record row col v tb).1 in
  tb' = tb \/
  exists rec r, 0 <= row /\ _records tb !! Z.to_nat row = Some rec /\
                tb' = with_records (<[Z.to_nat row := r]> (_records tb)) tb /\
                same_identity r rec.
Proof.
  unfold _apply_edit_to_record.
  destruct ((row <? 0) || (Z.of_nat (length (_records tb)) <=? row)) eqn:Hr;
    [left; reflexivity|].
  apply orb_false_iff in Hr as [Hr0 _]. apply Z.ltb_ge in Hr0.
  destruct (_records tb !! Z.to_nat row) as [rec|] eqn:Hrec; [|left; reflexivity].
  destruct (col =? 2).
  { destruct (as_int v "step_no") as [n|e]; [|left; reflexivity].
    destruct (n <=? 0); [left; reflexivity|].
    destruct (find _ (_skills tb)) as [m|]; [|left; reflexivity].
    right. eexists rec, _. repeat split; try eassumption; reflexivity. }
  destruct (col =? 7).
  { destruct (as_float v "start_time") as [x|e]; [|left; reflexivity].
    destruct (edit_time_shape (Z.to_nat row) (with_start_time x rec) tb)
      as (r & Hr & Hl & Hc & Ht & Ha & _).
    right. exists rec, r. repeat split; try eassumption. }
  destruct (col =? 8).
  { destruct (as_float v "end_time") as [x|e]; [|left; reflexivity].
    destruct (edit_time_shape (Z.to_nat row) (with_end_time x rec) tb)
      as (r & Hr & Hl & Hc & Ht & Ha & _).
    right. exists rec, r. repeat split; try eassumption. }
  destruct (col =? 12).
  { destruct (as_int v "confidence") as [n|e]; [|left; reflexivity].
    destruct ((1 <=? n) && (n <=? 10)); [|left; reflexivity].
    right. eexists rec, _. repeat split; try eassumption; reflexivity. }
  destruct (col =? 13).
  { right. eexists rec, _. repeat split; try eassumption; reflexivity. }
  left. reflexivity.
Qed.

(** The edit of a cell touches one row at most: the number of rows, every
    other row, the skills and the rate provider are as before, and the
    edited row keeps its label, its cameras and its sources.  A row out of
    range is ignored without an error.  An edit that is refused leaves the
    table as it was, unless it is the edit of a time. *)
Theorem table_edit_touches_one_row (row col : Z) (v : Text) (tb : t) :
  let r := _apply_edit_to_record row col v tb in
  length (_records r.1) = length (_records tb) /\
  (forall j, j <> Z.to_nat row -> _records r.1 !! j = _records tb !! j) /\
  (forall rec rec', _records tb !! Z.to_nat row = Some rec ->
                    _records r.1 !! Z.to_nat row = Some rec' -> same_identity rec' rec) /\
  _skills r.1 = _skills tb /\ _fps_provider r.1 = _fps_provider tb /\
  (row < 0 \/ Z.of_nat (length (_records tb)) <= row -> r = (tb, Return tt)) /\
  (col <> 7 -> col <> 8 -> (exists e, r.2 = Raise e) -> r.1 = tb).
Proof.
  intros r.
  split; [|split; [|split; [|split; [|split; [|split]]]]].
  1-5: destruct (apply_edit_shape row col v tb) as [He|(rec & r' & Hrow & Hrec & He & Hid)];
       fold r in He; rewrite He.
  - reflexivity.
  - cbn. apply length_insert.
  - reflexivity.
  - intros j Hj. cbn. apply list_lookup_insert_ne. congruence.
  - intros rec0 rec' H0 H1. rewrite H0 in H1. injection H1 as <-.
    repeat split; reflexivity.
  - intros rec0 rec' H0 H1. cbn in H1.
    rewrite list_lookup_insert_eq in H1 by (eapply lookup_lt_Some; exact Hrec).
    injection H1 as <-. rewrite Hrec in H0. injection H0 as <-. exact Hid.
  - reflexivity.
  - reflexivity.
  - reflexivity.
  - reflexivity.
  - intros Hout. subst r. unfold _apply_edit_to_record.
    destruct (Z.ltb_spec row 0); [reflexivity|].
    destruct (Z.leb_spec (Z.of_nat (length (_records tb))) row); [reflexivity|lia].
  - intros H7 H8 [e He]. subst r. revert He. unfold _apply_edit_to_record.
    destruct ((row <? 0) || (Z.of_nat (length (_records tb)) <=? row)); [reflexivity|].
    destruct (_records tb !! Z.to_nat row) as [rec|]; [|reflexivity].
    destruct (Z.eqb_spec col 2).
    { destruct (as_int v "step_no") as [n|e']; [|reflexivity].
      destruct (n <=? 0); [reflexivity|].
      destruct (find _ (_skills tb)); [discriminate|reflexivity]. }
    destruct (Z.eqb_spec col 7); [contradiction|].
    destruct (Z.eqb_spec col 8); [contradiction|].
    destruct (Z.eqb_spec col 12).
    { destruct (as_int v "confidence") as [n'|e']; [|reflexivity].
      destruct ((1 <=? n') && (n' <=? 10)); [discriminate|reflexivity]. }
    destruct (Z.eqb_spec col 13); [discriminate|reflexivity].
Qed.

Lemma apply_edit_time (row col : Z) (v : Text) (x : Q) (tb : t) (rec : AnnotationRecord) :
  0 <= row -> _records tb !! Z.to_nat row = Some rec ->
  float_of_text v = Some x -> col = 7 \/ col = 8 ->
  _apply_edit_to_record row col v tb = edit_time (Z.to_nat row) (with_time col x rec) tb.
Proof.
  intros Hrow Hrec Hv Hcol. unfold _apply_edit_to_record.
  rewrite (apply_edit_in_range row col v tb rec Hrow Hrec), Hrec.
  unfold as_float, with_time. rewrite Hv.
  destruct Hcol as [->| ->]; reflexivity.
Qed.



(** A refused edit of a time is not undone: when the new time puts the
    start after the end the edit raises the range error, and the row is
    left with the new time as typed, next to the other time, the totals and
    the frames of before. *)
Theorem table_time_edit_refused_is_kept (row col : Z) (v : Text) (x : Q) (tb : t)
    (rec : AnnotationRecord) :
  0 <= row -> _records tb !! Z.to_nat row = Some rec ->
  float_of_text v = Some x -> col = 7 \/ col = 8 ->
  let r := _apply_edit_to_record row col v tb in
  let edited := with_time col x rec in
  (clamp0 (end_time edited) < clamp0 (start_time edited))%Q ->
  r.2 = Raise InvalidRange /\
  _records r.1 !! Z.to_nat row = Some edited /\
  (col = 7 -> start_time edited = x /\ end_time edited = end_time rec) /\
  (col = 8 -> end_time edited = x /\ start_time edited = start_time rec) /\
  start_frame edited = start_frame rec /\ end_frame edited = end_frame rec /\
  total_frames edited = total_frames rec /\ total_time edited = total_time rec.
Proof.
  intros Hrow Hrec Hv Hcol r edited Hlt. subst r.
  rewrite (apply_edit_time row col v x tb rec Hrow Hrec Hv Hcol). fold edited.
  pose proof (lookup_lt_Some _ _ _ Hrec) as Hlen.
  unfold edit_time, recompute_from_times. cbv zeta.
  apply Qltb_lt in Hlt. rewrite Hlt. cbn [fst snd _records with_records].
  split; [reflexivity|]. split; [apply list_lookup_insert_eq; exact Hlen|].
  unfold edited, with_time.
  split; [intros ->; split; reflexivity|].
  split; [intros ->; split; reflexivity|].
  destruct (col =? 7); repeat split; reflexivity.
Qed.

Lemma table_time_edit_refused_is_kept_witness :
  let r := _apply_edit_to_record 0 7 (mkText "9" (Some 9) (Some 9%Q))
             (mkTable [sample_record 4 5] [] None) in
  r.2 = Raise InvalidRange /\
  _records r.1 !! 0%nat = Some (with_start_time 9 (sample_record 4 5)).
Proof.
  intros r.
  destruct (table_time_edit_refused_is_kept 0 7 (mkText "9" (Some 9) (Some 9%Q)) 9%Q
              (mkTable [sample_record 4 5] [] None) (sample_record 4 5))
    as (Hr & Hl & _);
    [lia|reflexivity|reflexivity|left; reflexivity|reflexivity|].
  split; [exact Hr|exact Hl].
Defined.

End TableMore.


(** ** main_window.py: the step workflow from Start to Finish *)

Section StepMore.

Import Py TimeUtils MainWindow.

Variable gen : Z -> string.

Lemma color_for_shape (n : Z) (w : t) :
  color_for gen n w = ((color_for gen n w).1, with_cfg (cfg (color_for gen n w).2) w).
Proof.
  unfold color_for.
  destruct (Colors.get_skill_color_hex gen (Some n) (cfg w)) as [col cfg']. reflexivity.
Qed.

Lemma with_cfg_same (w : t) : with_cfg (cfg w) w = w.
Proof. destruct w; reflexivity. Qed.

(** [_refresh_overlays_and_timeline] writes the timeline, the overlays of
    the slider and at most the colour map of the configuration. *)
Lemma refresh_shape (w : t) :
  exists cfg' overlays,
    _refresh_overlays_and_timeline gen w =
      with_skill_timeline
        (SkillTimeline.set_allow_edit (idle w) (refreshed_timeline w))
        (with_slider_overlays overlays
           (with_cfg cfg' (with_skill_timeline (refreshed_timeline w) w))) /\
    (Domain.pending_start_ms (state w) = None -> overlays = []) /\
    (forall s step, Domain.pending_start_ms (state w) = Some s ->
                    Domain.pending_step (state w) = Some step ->
                    exists color, overlays =
                      [mkOverlayRange s (Z.max s (slider_value w)) color 140]).
Proof.
  unfold _refresh_overlays_and_timeline, idle. fold (refreshed_timeline w).
  cbn [state slider_value with_skill_timeline].
  destruct (Domain.pending_start_ms (state w)) as [s|] eqn:Hs;
    destruct (Domain.pending_step (state w)) as [step|] eqn:Hp.
  - assert (Hmax : (if slider_value w <? s then s else slider_value w)
                   = Z.max s (slider_value w)).
    { destruct (Z.ltb_spec (slider_value w) s); lia. }
    rewrite Hmax.
    destruct (Domain.truthy (Domain.pending_color (state w))).
    + exists (cfg w), [mkOverlayRange s (Z.max s (slider_value w))
                         (default EmptyString (Domain.pending_color (state w))) 140].
      split; [|split; [discriminate|]].
      * cbn [state skill_timeline with_slider_overlays with_skill_timeline].
        rewrite Hs, Hp. reflexivity.
      * intros s' step' [= <-] _. eauto.
    + rewrite (color_for_shape (number step) (with_skill_timeline (refreshed_timeline w) w)).
      eexists _, _. split; [|split; [discriminate|]].
      * cbn [state skill_timeline with_slider_overlays with_skill_timeline with_cfg].
        rewrite Hs, Hp. reflexivity.
      * intros s' step' [= <-] _. eauto.
  - exists (cfg w), []. split; [|split; [discriminate|intros ? ? _ [=]]].
    cbn [state skill_timeline with_slider_overlays with_skill_timeline].
    rewrite Hs, Hp. reflexivity.
  - exists (cfg w), []. split; [|split; [reflexivity|intros ? ? [=]]].
    cbn [state skill_timeline with_slider_overlays with_skill_timeline].
    rewrite Hs, Hp. reflexivity.
  - exists (cfg w), []. split; [|split; [reflexivity|intros ? ? [=]]].
    cbn [state skill_timeline with_slider_overlays with_skill_timeline].
    rewrite Hs, Hp. reflexivity.
Qed.

Lemma resume_shape (was_playing : bool) (w : t) :
  exists g, _resume_if_allowed was_playing w = with_video_grid g w.
Proof.
  unfold _resume_if_allowed. destruct (negb was_playing || _is_at_end w); eauto.
Qed.


Ltac refresh_out :=
  match goal with
  | |- context [_refresh_overlays_and_timeline gen ?x] =>
      let c := fresh "cfg'" in
      let ov := fresh "ov" in
      let Heq := fresh "Heq" in
      let Hov := fresh "Hov" in
      destruct (refresh_shape x) as (c & ov & Heq & _ & Hov); rewrite Heq; clear Heq
  end.

(** What [_start_step] does when it is accepted. *)
Lemma start_step_fields (w : t) (step : SkillStep) :
  Domain.is_loaded (state w) = true -> _skill_selected w = Some step ->
  SkillTimeline.is_editing (skill_timeline w) = false ->
  let r := _start_step gen w in
  exists color,
    r.2 = [] /\
    state r.1 =
      Domain.with_pending_color (Some color)
        (Domain.with_pending_audio_source None
           (Domain.with_pending_time_source None
              (Domain.with_pending_start_ms None
                 (Domain.with_pending_camid
                    (Some (Domain.encode_camid_from_active_views
                             (VideoGrid._active_view_ids (video_grid w))))
                    (Domain.with_pending_step (Some step) (state w)))))) /\
    video_grid r.1 = VideoGrid.pause_all (video_grid w) /\
    slider_value r.1 = slider_value w /\ slider_maximum r.1 = slider_maximum w /\
    _ignore_slider_updates r.1 = _ignore_slider_updates w /\
    _user_scrubbing r.1 = _user_scrubbing w /\
    _step_flow_was_playing r.1 = VideoGrid.is_playing (video_grid w) /\
    btn_start_step r.1 = false /\ btn_confirm_start r.1 = true /\
    btn_end_step r.1 = false /\ btn_finish_step r.1 = false /\
    SkillTimeline._allow_edit (skill_timeline r.1) = false.
Proof.
  intros Hl Hsk He r. subst r. unfold _start_step. rewrite Hl, Hsk, He.
  cbn [negb]. cbv zeta.
  match goal with
  | |- context [color_for gen ?n ?x] => rewrite (color_for_shape n x)
  end.
  cbv beta iota. refresh_out. cbn [fst snd].
  eexists. repeat split; reflexivity.
Qed.

(** What [_confirm_start] does when it is accepted. *)
Lemma confirm_start_fields (w : t) (step : SkillStep) :
  Domain.pending_step (state w) = Some step ->
  Domain.truthy (VideoGrid._time_source_id (video_grid w)) = true ->
  Domain.truthy (VideoGrid._audio_source_id (video_grid w)) = true ->
  let r := _confirm_start gen w in
  r.2 = [] /\
  state r.1 =
    Domain.with_pending_audio_source (VideoGrid._audio_source_id (video_grid w))
      (Domain.with_pending_time_source (VideoGrid._time_source_id (video_grid w))
         (Domain.with_pending_start_ms (Some (slider_value w)) (state w))) /\
  slider_value r.1 = slider_value w /\ slider_maximum r.1 = slider_maximum w /\
  _ignore_slider_updates r.1 = _ignore_slider_updates w /\
  _user_scrubbing r.1 = _user_scrubbing w /\
  btn_start_step r.1 = btn_start_step w /\ btn_confirm_start r.1 = false /\
  btn_end_step r.1 = true /\ btn_finish_step r.1 = false.
Proof.
  intros Hp Ht Ha r. subst r. unfold _confirm_start. rewrite Hp, Ht, Ha.
  cbn [negb orb]. cbv zeta.
  match goal with
  | |- context [_resume_if_allowed ?b ?x] =>
      destruct (resume_shape b x) as [g0 Hg0]; rewrite Hg0; clear Hg0
  end.
  refresh_out. cbn [fst snd]. repeat split; reflexivity.
Qed.

(** What [_on_master_position] does when the slider follows. *)
Lemma on_master_position_fields (pos : Z) (w : t) :
  _ignore_slider_updates w = false -> _user_scrubbing w = false ->
  let w' := _on_master_position gen pos w in
  state w' = state w /\ video_grid w' = video_grid w /\
  slider_value w' = Z.max 0 (Z.min (Z.max 0 pos) (slider_maximum w)) /\
  slider_maximum w' = slider_maximum w /\
  btn_start_step w' = btn_start_step w /\ btn_confirm_start w' = btn_confirm_start w /\
  btn_end_step w' = btn_end_step w /\ btn_finish_step w' = btn_finish_step w.
Proof.
  intros Hi Hu w'. subst w'. unfold _on_master_position. rewrite Hi, Hu.
  cbn [orb]. cbv zeta. refresh_out. repeat split; reflexivity.
Qed.

(** What [_end_step] does when it is accepted. *)
Lemma end_step_fields (w : t) (start_ms : Z) (step : SkillStep) :
  Domain.pending_start_ms (state w) = Some start_ms ->
  Domain.pending_step (state w) = Some step ->
  let r := _end_step gen w in
  r.2 = [] /\ state r.1 = state w /\
  video_grid r.1 = VideoGrid.pause_all (video_grid w) /\
  slider_value r.1 = slider_value w /\ slider_maximum r.1 = slider_maximum w /\
  btn_start_step r.1 = btn_start_step w /\ btn_confirm_start r.1 = btn_confirm_start w /\
  btn_end_step r.1 = false /\ btn_finish_step r.1 = true /\
  SkillTimeline._allow_edit (skill_timeline r.1) = false /\
  exists color,
    slider_overlays r.1 = [mkOverlayRange start_ms (Z.max start_ms (slider_value w)) color 140].
Proof.
  intros Hs Hp r. subst r. unfold _end_step. rewrite Hs, Hp. cbv zeta.
  refresh_out. cbn [fst snd].
  destruct (Hov start_ms step Hs Hp) as [color ->].
  unfold idle. cbn [state with_btn_finish_step with_btn_end_step with_video_grid].
  rewrite Hs, Hp.
  repeat split; try reflexivity. exists color. reflexivity.
Qed.

(** The workflow of a step up to its end.  From a loaded session with a
    label selected, no edit in progress, both sources chosen and some view
    active: Start, Confirm, the playback advancing to [pos], and End go
    through without a message and leave the workflow waiting for Finish,
    with the selected label pending, the value of the slider at Confirm as
    the captured start, the active views as cameras, the sources of the
    grid as sources, the slider at [pos] clamped to its range, every player
    paused, the timeline closed to edits, one overlay from the captured
    start, and the annotations as they were. *)
Theorem step_workflow_reaches_finish (w : t) (step : SkillStep) (pos : Z) :
  Domain.is_loaded (state w) = true -> _skill_selected w = Some step ->
  SkillTimeline.is_editing (skill_timeline w) = false ->
  Domain.truthy (VideoGrid._time_source_id (video_grid w)) = true ->
  Domain.truthy (VideoGrid._audio_source_id (video_grid w)) = true ->
  Domain.encode_camid_from_active_views (VideoGrid._active_view_ids (video_grid w))
    <> EmptyString ->
  _ignore_slider_updates w = false -> _user_scrubbing w = false ->
  let s1 := _start_step gen w in
  let s2 := _confirm_start gen s1.1 in
  let w3 := _on_master_position gen pos s2.1 in
  let s4 := _end_step gen w3 in
  let now := Z.max 0 (Z.min (Z.max 0 pos) (slider_maximum w)) in
  s1.2 = [] /\ s2.2 = [] /\ s4.2 = [] /\
  AwaitingConfirmEnd s4.1 /\
  Domain.pending_step (state s4.1) = Some step /\
  Domain.pending_start_ms (state s4.1) = Some (slider_value w) /\
  Domain.pending_camid (state s4.1) =
    Some (Domain.encode_camid_from_active_views
            (VideoGrid._active_view_ids (video_grid w))) /\
  Domain.pending_time_source (state s4.1) = VideoGrid._time_source_id (video_grid w) /\
  Domain.pending_audio_source (state s4.1) = VideoGrid._audio_source_id (video_grid w) /\
  Domain.annotations (state s4.1) = Domain.annotations (state w) /\
  slider_value s4.1 = now /\
  (forall vid p, VideoGrid._players (video_grid s4.1) !! vid = Some p ->
                 VideoGrid.state p = VideoGrid.PausedState) /\
  SkillTimeline._allow_edit (skill_timeline s4.1) = false /\
  exists color,
    slider_overlays s4.1 =
      [mkOverlayRange (slider_value w) (Z.max (slider_value w) now) color 140].
Proof.
  intros Hl Hsk He Ht Ha Hcam Hi Hu s1 s2 w3 s4 now.
  destruct (start_step_fields w step Hl Hsk He)
    as (color & E1 & St1 & G1 & V1 & M1 & I1 & U1 & _ & B1s & B1c & B1e & B1f & _).
  fold s1 in E1, St1, G1, V1, M1, I1, U1, B1s, B1c, B1e, B1f.
  assert (Hp1 : Domain.pending_step (state s1.1) = Some step) by (rewrite St1; reflexivity).
  assert (Ht1 : Domain.truthy (VideoGrid._time_source_id (video_grid s1.1)) = true)
    by (rewrite G1; exact Ht).
  assert (Ha1 : Domain.truthy (VideoGrid._audio_source_id (video_grid s1.1)) = true)
    by (rewrite G1; exact Ha).
  destruct (confirm_start_fields s1.1 step Hp1 Ht1 Ha1)
    as (E2 & St2 & V2 & M2 & I2 & U2 & B2s & B2c & B2e & B2f).
  fold s2 in E2, St2, V2, M2, I2, U2, B2s, B2c, B2e, B2f.
  assert (Hi2 : _ignore_slider_updates s2.1 = false) by congruence.
  assert (Hu2 : _user_scrubbing s2.1 = false) by congruence.
  destruct (on_master_position_fields pos s2.1 Hi2 Hu2)
    as (St3 & G3 & V3 & M3 & B3s & B3c & B3e & B3f).
  fold w3 in St3, G3, V3, M3, B3s, B3c, B3e, B3f.
  assert (Hs3 : Domain.pending_start_ms (state w3) = Some (slider_value w)).
  { rewrite St3, St2, V1. reflexivity. }
  assert (Hp3 : Domain.pending_step (state w3) = Some step).
  { rewrite St3, St2. exact Hp1. }
  destruct (end_step_fields w3 (slider_value w) step Hs3 Hp3)
    as (E4 & St4 & G4 & V4 & M4 & B4s & B4c & B4e & B4f & A4 & color4 & O4).
  fold s4 in E4, St4, G4, V4, M4, B4s, B4c, B4e, B4f, A4, O4.
  assert (Hnow : slider_value s4.1 = now).
  { rewrite V4, V3, M2, M1. reflexivity. }
  assert (Hst : state s4.1 =
            Domain.with_pending_audio_source (VideoGrid._audio_source_id (video_grid w))
              (Domain.with_pending_time_source (VideoGrid._time_source_id (video_grid w))
                 (Domain.with_pending_start_ms (Some (slider_value w)) (state s1.1)))).
  { rewrite St4, St3, St2, G1, V1. reflexivity. }
  split; [exact E1|]. split; [exact E2|]. split; [exact E4|].
  split.
  { unfold AwaitingConfirmEnd. rewrite Hst, St1.
    cbn [Domain.pending_step Domain.pending_start_ms Domain.pending_camid
         Domain.pending_time_source Domain.pending_audio_source
         Domain.with_pending_audio_source Domain.with_pending_time_source
         Domain.with_pending_start_ms Domain.with_pending_color
         Domain.with_pending_camid Domain.with_pending_step].
    split; [eauto|]. split; [eauto|].
    split.
    { unfold Domain.truthy.
      destruct (String.eqb_spec
                  (Domain.encode_camid_from_active_views
                     (VideoGrid._active_view_ids (video_grid w))) EmptyString) as [E|_];
        [contradiction|reflexivity]. }
    split; [exact Ht|]. split; [exact Ha|].
    split; [congruence|]. split; [congruence|]. split; [exact B4e|exact B4f]. }
  rewrite Hst, St1.
  split; [reflexivity|]. split; [reflexivity|]. split; [reflexivity|].
  split; [reflexivity|]. split; [reflexivity|]. split; [reflexivity|].
  split; [exact Hnow|].
  split.
  { intros vid p. rewrite G4. unfold VideoGrid.pause_all. cbn [VideoGrid._players
      VideoGrid.with_players]. rewrite lookup_fmap.
    destruct (VideoGrid._players (video_grid w3) !! vid); [|discriminate].
    cbn. intros [= <-]. reflexivity. }
  split; [exact A4|].
  exists color4. rewrite O4. rewrite V3, M2, M1. reflexivity.
Qed.

End StepMore.


Lemma step_workflow_reaches_finish_witness :
  let gen := sample_generated in
  let s1 := MainWindow._start_step gen (sample_window []) in
  let s2 := MainWindow._confirm_start gen s1.1 in
  let w3 := MainWindow._on_master_position gen 6000 s2.1 in
  MainWindow.AwaitingConfirmEnd (MainWindow._end_step gen w3).1.
Proof.
  intros gen s1 s2 w3.
  apply (step_workflow_reaches_finish gen (sample_window []) (mkSkillStep 1 "reach") 6000);
    vm_compute; (reflexivity || discriminate).
Defined.



(** ** persistence.py: the notes column *)

Section NotesMore.

Import Persistence.

Lemma chars_app (a b : string) :
  String.list_ascii_of_string (a +:+ b) =
  (String.list_ascii_of_string a ++ String.list_ascii_of_string b)%list.
Proof.
  induction a as [|x a IH]; [reflexivity|].
  change (x :: String.list_ascii_of_string (a +:+ b) =
          x :: (String.list_ascii_of_string a ++ String.list_ascii_of_string b)%list).
  rewrite IH. reflexivity.
Qed.

Lemma replace_char_chars (c : ascii) (new s : string) (x : ascii) :
  In x (String.list_ascii_of_string (replace_char c new s)) ->
  In x (String.list_ascii_of_string new) \/
  (In x (String.list_ascii_of_string s) /\ x <> c).
Proof.
  induction s as [|y s IH]; [cbn; tauto|].
  cbn [replace_char]. destruct (Ascii.eqb_spec y c) as [->|Hne].
  - rewrite chars_app, in_app_iff. intros [H|H]; [left; exact H|].
    destruct (IH H) as [H'|[H' Hx]]; [left; exact H'|].
    right; split; [right; exact H'|exact Hx].
  - cbn [String.list_ascii_of_string]. intros [<-|H].
    + right; split; [left; reflexivity|exact Hne].
    + destruct (IH H) as [H'|[H' Hx]]; [left; exact H'|].
      right; split; [right; exact H'|exact Hx].
Qed.

Lemma replace_char_keeps (c : ascii) (new s : string) (x : ascii) :
  In x (String.list_ascii_of_string s) -> x <> c ->
  In x (String.list_ascii_of_string (replace_char c new s)).
Proof.
  induction s as [|y s IH]; [intros []|].
  cbn [replace_char String.list_ascii_of_string]. intros [<-|H] Hne.
  - destruct (Ascii.eqb_spec y c) as [->|_]; [contradiction|]. left. reflexivity.
  - destruct (Ascii.eqb_spec y c) as [->|_].
    + rewrite chars_app, in_app_iff. right. apply IH; assumption.
    + right. apply IH; assumption.
Qed.

(** The characters that [_escape_notes] writes: no tab, no line feed and no
    carriage return, whatever the notes; and every other character of the
    notes is written as it is (a form feed or a vertical tab, for
    instance, is kept). *)
Theorem escape_notes_chars (notes : option string) (x : ascii) :
  (In x (String.list_ascii_of_string (_escape_notes notes)) ->
   x <> TAB /\ x <> LF /\ x <> CR) /\
  (In x (String.list_ascii_of_string (default EmptyString notes)) ->
   x <> TAB -> x <> LF -> x <> CR ->
   In x (String.list_ascii_of_string (_escape_notes notes))).
Proof.
  unfold _escape_notes. cbv zeta. split.
  - intros H.
    apply replace_char_chars in H as [H|[H Hlf]].
    { cbn in H. destruct H as [<-|[<-|[]]]; repeat split; discriminate. }
    apply replace_char_chars in H as [H|[H Htab]].
    { cbn in H. destruct H as [<-|[]]; repeat split; discriminate. }
    apply replace_char_chars in H as [H|[H Hcr]]; [destruct H|].
    repeat split; assumption.
  - intros H Htab Hlf Hcr.
    apply replace_char_keeps; [|exact Hlf].
    apply replace_char_keeps; [|exact Htab].
    apply replace_char_keeps; [exact H|exact Hcr].
Qed.

Lemma plain_tail (c : ascii) (s : string) : plain (String c s) = true -> plain s = true.
Proof. cbn [plain]. rewrite !andb_true_iff. tauto. Qed.

Lemma replace_absent (c : ascii) (new s : string) :
  (forall x, In x (String.list_ascii_of_string s) -> x <> c) ->
  replace_char c new s = s.
Proof.
  induction s as [|y s IH]; intros H; cbn; [reflexivity|].
  destruct (Ascii.eqb_spec y c) as [->|_].
  - exfalso. apply (H c); [left; reflexivity|reflexivity].
  - rewrite IH; [reflexivity|]. intros x Hx. apply H. right. exact Hx.
Qed.

Lemma plain_chars (s : string) (x : ascii) :
  plain s = true -> In x (String.list_ascii_of_string s) -> x <> CR /\ x <> TAB.
Proof.
  induction s as [|y s IH]; intros Hp Hx; [destruct Hx|].
  destruct Hx as [<-|Hx]; [|apply IH; [eapply plain_tail; exact Hp|exact Hx]].
  cbn [plain] in Hp. rewrite !andb_true_iff, !negb_true_iff in Hp.
  destruct Hp as [[[Hcr Htab] _] _].
  split; intros ->; discriminate.
Qed.

Lemma escaped_head (s : string) (d : ascii) (rest : string) :
  replace_char LF "\n" s = String d rest -> d = "n"%char ->
  exists s', s = String "n" s'.
Proof.
  destruct s as [|y s]; cbn; [discriminate|].
  destruct (Ascii.eqb_spec y LF) as [->|_].
  - cbn. intros [= <- _] [=].
  - intros [= -> _] ->. eauto.
Qed.

Lemma unescape_escaped (s : string) :
  plain s = true -> replace_backslash_n (replace_char LF "\n" s) = s.
Proof.
  induction s as [|c s IH]; intros Hp; [reflexivity|].
  pose proof (IH (plain_tail c s Hp)) as IHs.
  cbn [replace_char]. destruct (Ascii.eqb_spec c LF) as [->|Hne].
  - change ("\n" +:+ replace_char LF "\n" s)
      with (String "\" (String "n" (replace_char LF "\n" s))).
    cbn [replace_backslash_n]. cbn [Ascii.eqb Bool.eqb andb]. rewrite IHs. reflexivity.
  - cbn [replace_backslash_n].
    destruct (replace_char LF "\n" s) as [|d rest] eqn:E.
    + destruct s as [|y s]; [reflexivity|].
      cbn in E. destruct (Ascii.eqb y LF); discriminate.
    + destruct (Ascii.eqb c "\" && Ascii.eqb d "n") eqn:Hb.
      * exfalso. apply andb_true_iff in Hb as [Hc Hd].
        apply Ascii.eqb_eq in Hc, Hd.
        destruct (escaped_head s d rest E Hd) as [s' ->].
        subst c. cbn in Hp. discriminate.
      * rewrite IHs. reflexivity.
Qed.

(** Notes without a carriage return, a tab or a backslash followed by [n]
    come back from the file as they were written, line feeds included. *)
Theorem notes_roundtrip (s : string) :
  plain s = true -> _unescape_notes (Some (_escape_notes (Some s))) = s.
Proof.
  intros Hp. unfold _unescape_notes, _escape_notes. cbv zeta.
  change (default EmptyString (Some s)) with s.
  rewrite (replace_absent CR EmptyString s)
    by (intros x Hx; apply (plain_chars s x Hp Hx)).
  rewrite (replace_absent TAB " " s)
    by (intros x Hx; apply (plain_chars s x Hp Hx)).
  apply unescape_escaped. exact Hp.
Qed.

Lemma notes_roundtrip_witness :
  let s := String "a" (String LF (String "\" (String LF (String "b" EmptyString)))) in
  _unescape_notes (Some (_escape_notes (Some s))) = s.
Proof. intros s. apply (notes_roundtrip s). reflexivity. Defined.

End NotesMore.


(** ** domain.py: hue distance, camera ids and default sources *)

Section DomainMore.

Import Colors Domain.

Lemma fmod360_range (x : Q) : (0 <= fmod360 x /\ fmod360 x < 360)%Q.
Proof.
  unfold fmod360.
  pose proof (Qfloor_le (x / 360)) as Hlo.
  pose proof (Qlt_floor (x / 360)) as Hhi.
  rewrite inject_Z_plus in Hhi. change (inject_Z 1) with 1%Q in Hhi.
  assert (Hx : (x == x / 360 * 360)%Q) by (field).
  set (f := inject_Z (Qfloor (x / 360))) in *.
  set (y := (x / 360)%Q) in *.
  split; lra.
Qed.

Lemma fmod360_proper (x y : Q) : (x == y)%Q -> (fmod360 x == fmod360 y)%Q.
Proof.
  intros H. unfold fmod360.
  assert (Hf : Qfloor (x / 360) = Qfloor (y / 360)).
  { apply Qfloor_comp. rewrite H. reflexivity. }
  rewrite Hf, H. reflexivity.
Qed.

(** The circular hue distance lies between 0 and 180 degrees, does not
    depend on the order of the two hues, is zero between a hue and itself,
    and is the plain difference for two hues at most 180 degrees apart. *)
Theorem hue_distance_range (a b : Q) :
  (0 <= _circular_hue_distance_deg a b)%Q /\
  (_circular_hue_distance_deg a b <= 180)%Q /\
  (_circular_hue_distance_deg a b == _circular_hue_distance_deg b a)%Q /\
  (_circular_hue_distance_deg a a == 0)%Q /\
  (Qabs (a - b) <= 180 -> _circular_hue_distance_deg a b == Qabs (a - b))%Q.
Proof.
  unfold _circular_hue_distance_deg. cbv zeta.
  pose proof (fmod360_range (Qabs (a - b))) as [H0 H1].
  assert (Hsym : (Qabs (a - b) == Qabs (b - a))%Q).
  { assert (E : (a - b == - (b - a))%Q) by ring. rewrite E. apply Qabs_opp. }
  split; [|split; [|split; [|split]]].
  - apply Q.min_glb; lra.
  - destruct (Q.min_spec (fmod360 (Qabs (a - b))) (360 - fmod360 (Qabs (a - b))))
      as [[Hlt ->]|[Hle ->]]; lra.
  - rewrite (fmod360_proper _ _ Hsym). reflexivity.
  - assert (Hz : (Qabs (a - a) == 0)%Q).
    { assert (E : (a - a == 0)%Q) by ring. rewrite E. reflexivity. }
    rewrite (fmod360_proper _ _ Hz).
    assert (Hf : (fmod360 0 == 0)%Q) by reflexivity.
    rewrite Hf. reflexivity.
  - intros Hle. pose proof (Qabs_nonneg (a - b)) as Hn.
    set (x := Qabs (a - b)) in *.
    assert (Hfl : Qfloor (x / 360) = 0).
    { assert (Hq : (0 <= x / 360 /\ x / 360 < 1)%Q).
      { assert (Hx : (x == x / 360 * 360)%Q) by field.
        set (y := (x / 360)%Q) in *. split; lra. }
      destruct Hq as [Hq0 Hq1].
      pose proof (Qfloor_le (x / 360)) as Hlo.
      pose proof (Qlt_floor (x / 360)) as Hhi.
      assert (Ha : (inject_Z (Qfloor (x / 360)) < inject_Z 1)%Q)
        by (change (inject_Z 1) with 1%Q; lra).
      assert (Hb : (inject_Z (-1) < inject_Z (Qfloor (x / 360)))%Q).
      { rewrite inject_Z_plus in Hhi. change (inject_Z 1) with 1%Q in Hhi.
        change (inject_Z (-1)) with (-(1))%Q. lra. }
      rewrite <- Zlt_Qlt in Ha, Hb. lia. }
    assert (Hm : (fmod360 x == x)%Q).
    { unfold fmod360. rewrite Hfl. change (inject_Z 0) with 0%Q. ring. }
    rewrite Hm. apply Q.min_l. lra.
Qed.

Lemma seen_spec (x : string) (seen : list string) :
  existsb (String.eqb x) seen = true <-> x ∈ seen.
Proof.
  rewrite existsb_exists. split.
  - intros (y & Hy & He). apply String.eqb_eq in He as <-. apply list_elem_of_In, Hy.
  - intros H. exists x. split; [apply list_elem_of_In, H|apply String.eqb_refl].
Qed.

Lemma dedup_keep_order_spec (seen clean : list string) :
  NoDup (dedup_keep_order seen clean) /\
  (forall x, x ∈ dedup_keep_order seen clean <-> x ∈ clean /\ x ∉ seen) /\
  dedup_keep_order seen clean `sublist_of` clean.
Proof.
  revert seen. induction clean as [|y clean IH]; intros seen; cbn [dedup_keep_order].
  - split; [constructor|]. split; [|constructor].
    intros x. split; [intros H; inversion H|intros [H _]; inversion H].
  - destruct (existsb (String.eqb y) seen) eqn:E.
    + apply seen_spec in E. destruct (IH seen) as (Hn & Hm & Hs).
      split; [exact Hn|]. split; [|apply sublist_cons, Hs].
      intros x. rewrite Hm, elem_of_cons. split; [tauto|].
      intros [[->|H] Hx]; [contradiction|tauto].
    + assert (Hy : y ∉ seen) by (rewrite <- seen_spec; congruence).
      destruct (IH (y :: seen)) as (Hn & Hm & Hs).
      split; [|split; [|apply sublist_skip, Hs]].
      * constructor; [|exact Hn]. rewrite Hm, elem_of_cons. tauto.
      * intros x. rewrite !elem_of_cons, Hm, elem_of_cons.
        destruct (decide (x = y)) as [->|Hne]; tauto.
Qed.

(** The camera id written for the active views is the comma-joined list of
    their normalized ids: each non-empty normalized id once, none else, in
    the order of the views. *)
Theorem encode_camid_distinct (active_view_ids : list string) :
  exists out,
    encode_camid_from_active_views active_view_ids = String.concat "," out /\
    NoDup out /\
    (forall x, x ∈ out <->
               x <> EmptyString /\ exists y, y ∈ active_view_ids /\ normalize_camid y = x) /\
    out `sublist_of` map normalize_camid active_view_ids.
Proof.
  unfold encode_camid_from_active_views. cbv zeta.
  set (clean := filter _ (map normalize_camid active_view_ids)).
  destruct (dedup_keep_order_spec [] clean) as (Hn & Hm & Hs).
  exists (dedup_keep_order [] clean). split; [reflexivity|]. split; [exact Hn|].
  split.
  - intros x. rewrite Hm. unfold clean. rewrite list_elem_of_filter.
    rewrite list_elem_of_In, in_map_iff.
    split.
    + intros [[Hne (y & Hy & Hin)] _]. split.
      * intros ->. destruct Hne.
      * exists y. split; [apply list_elem_of_In, Hin|exact Hy].
    + intros [Hne (y & Hin & Hy)]. split; [|intros H; inversion H].
      split.
      * destruct (String.eqb_spec x EmptyString); [contradiction|exact I].
      * exists y. split; [exact Hy|apply list_elem_of_In, Hin].
  - etransitivity; [exact Hs|]. apply sublist_filter.
Qed.

Lemma unusable_spec (x : option string) (ids : list string) :
  unusable x ids = false <-> exists id, x = Some id /\ id <> EmptyString /\ id ∈ ids.
Proof.
  unfold unusable. destruct x as [id|].
  - rewrite orb_false_iff, negb_false_iff, seen_spec. split.
    + intros [He Hin]. exists id. split; [reflexivity|]. split; [|exact Hin].
      intros ->. discriminate.
    + intros (id' & [= <-] & Hne & Hin). split; [|exact Hin].
      destruct (String.eqb_spec id EmptyString); [contradiction|reflexivity].
  - split; [discriminate|intros (id & [=] & _)].
Qed.

(** The source that [ensure_default_sources] leaves, and the views. *)
Lemma ensure_default_sources_cons (id0 : string) (rest : list string) (s : SessionState) :
  ensure_default_sources (id0 :: rest) s =
  with_audio_source_id
    (if unusable (audio_source_id s) (id0 :: rest) then Some id0 else audio_source_id s)
    (with_time_source_id
       (if unusable (time_source_id s) (id0 :: rest) then Some id0 else time_source_id s)
       (with_active_view_ids
          (match active_view_ids s with [] => [id0] | _ => active_view_ids s end) s)).
Proof.
  destruct s as [rd lb sd ann av ts au ps pc pst pts pas pcl].
  destruct av as [|v av'];
    cbv [ensure_default_sources with_active_view_ids with_time_source_id
         with_audio_source_id active_view_ids time_source_id audio_source_id];
    destruct (unusable ts (id0 :: rest));
    cbv [ensure_default_sources with_active_view_ids with_time_source_id
         with_audio_source_id active_view_ids time_source_id audio_source_id];
    destruct (unusable au (id0 :: rest)); reflexivity.
Qed.

Lemma default_source_fixed (id0 : string) (rest : list string) (x : option string) :
  let y := if unusable x (id0 :: rest) then Some id0 else x in
  (if unusable y (id0 :: rest) then Some id0 else y) = y.
Proof.
  cbv zeta. destruct (unusable x (id0 :: rest)) eqn:E.
  - destruct (unusable (Some id0) (id0 :: rest)); reflexivity.
  - rewrite E. reflexivity.
Qed.

Lemma default_source_valid (id0 : string) (rest : list string) (x : option string) :
  exists t, (if unusable x (id0 :: rest) then Some id0 else x) = Some t /\
            t ∈ id0 :: rest.
Proof.
  destruct (unusable x (id0 :: rest)) eqn:E.
  - exists id0. split; [reflexivity|left].
  - apply unusable_spec in E as (t & -> & _ & Hin). eauto.
Qed.

(** [ensure_default_sources] leaves a session with usable sources: without
    videos both sources and the views are cleared; with videos the time
    source and the audio source are ids of videos, a source that already was
    the non-empty id of a video is kept and any other becomes the first
    video, and empty views become the first video while views that are set
    are kept as they are.  The annotations are untouched and a second call
    changes nothing. *)
Theorem ensure_default_sources_valid (ids : list string) (s : SessionState) :
  let s' := ensure_default_sources ids s in
  (ids = [] ->
   time_source_id s' = None /\ audio_source_id s' = None /\ active_view_ids s' = []) /\
  (forall id0 rest, ids = id0 :: rest ->
     (exists t, time_source_id s' = Some t /\ t ∈ ids) /\
     (exists a, audio_source_id s' = Some a /\ a ∈ ids) /\
     time_source_id s' =
       (if unusable (time_source_id s) ids then Some id0 else time_source_id s) /\
     audio_source_id s' =
       (if unusable (audio_source_id s) ids then Some id0 else audio_source_id s) /\
     active_view_ids s' =
       (match active_view_ids s with [] => [id0] | _ => active_view_ids s end)) /\
  annotations s' = annotations s /\
  pending_step s' = pending_step s /\ pending_start_ms s' = pending_start_ms s /\
  ensure_default_sources ids s' = s'.
Proof.
  intros s'. subst s'. destruct ids as [|id0 rest].
  - split; [intros _; repeat split|]. split; [intros ? ? [=]|].
    repeat split.
  - split; [intros [=]|].
    rewrite !ensure_default_sources_cons.
    cbn [active_view_ids time_source_id audio_source_id annotations pending_step
         pending_start_ms with_active_view_ids with_time_source_id with_audio_source_id].
    split.
    { intros i r [= <- <-].
      split; [apply default_source_valid|]. split; [apply default_source_valid|].
      repeat split. }
    split; [reflexivity|]. split; [reflexivity|]. split; [reflexivity|].
    rewrite !default_source_fixed.
    destruct s as [rd lb sd ann av ts au ps pc pst pts pas pcl].
    cbn [active_view_ids time_source_id audio_source_id with_active_view_ids
         with_time_source_id with_audio_source_id].
    unfold with_audio_source_id, with_time_source_id, with_active_view_ids.
    cbn [root_dir_s label_s session_dir annotations active_view_ids time_source_id
         audio_source_id pending_step pending_camid pending_start_ms
         pending_time_source pending_audio_source pending_color].
    destruct av; reflexivity.
Qed.

End DomainMore.



(** ** main_window.py: the commit of a timeline edit *)

Section CommitMore.

Import Py TimeUtils MainWindow.

Variable gen : Z -> string.





End CommitMore.

